(** * The Ex command line of the Vim emulation layer

    A shallow embedding of the command-line sources
    ([src/cmd_line/node.ts], [src/cmd_line/commandLineHistory.ts],
    [src/cmd_line/commandLine.ts], [src/neovim/neovim.ts]) and the
    properties of the specification that concern them.

    JavaScript values are modelled as follows: a number that the code uses
    as a line or a column is either an integer or NaN (rounding of integers
    above 2^53 is not modelled); a string is a [string]; an array is a
    [list]; an exception is a value of [exn] carried by [result]. *)

From stdpp Require Import base option list strings pretty.
From Stdlib Require Import ZArith Lia Ascii.

Local Open Scope string_scope.

(** ** The JavaScript runtime functions the sources call *)

Module JS.

Inductive number : Type :=
| NaN
| Int (z : Z).

Definition add (a b : number) : number :=
  match a, b with
  | Int x, Int y => Int (x + y)
  | _, _ => NaN
  end.

(** [Math.max] and [Math.min] of two arguments: NaN if either is NaN. *)
Definition Math_max (a b : number) : number :=
  match a, b with
  | Int x, Int y => Int (Z.max x y)
  | _, _ => NaN
  end.

Definition Math_min (a b : number) : number :=
  match a, b with
  | Int x, Int y => Int (Z.min x y)
  | _, _ => NaN
  end.

(** [Math.min.apply(null, x :: xs)] and [Math.max.apply(null, x :: xs)]
    on a non-empty argument list. *)
Definition Math_min_apply (x : number) (xs : list number) : number :=
  fold_left Math_min xs x.

Definition Math_max_apply (x : number) (xs : list number) : number :=
  fold_left Math_max xs x.

(** The comparisons [<], [<=] and [===] on numbers: false on NaN. *)
Definition lt (a b : number) : bool :=
  match a, b with
  | Int x, Int y => (x <? y)%Z
  | _, _ => false
  end.

Definition le (a b : number) : bool :=
  match a, b with
  | Int x, Int y => (x <=? y)%Z
  | _, _ => false
  end.

Definition eq (a b : number) : bool :=
  match a, b with
  | Int x, Int y => (x =? y)%Z
  | _, _ => false
  end.

(** [parseInt(s, 10)]: leading white space, an optional sign, then the
    longest prefix of decimal digits; NaN when there is no digit. *)
Definition is_space (c : ascii) : bool :=
  let n := nat_of_ascii c in
  (n =? 32)%nat || ((9 <=? n)%nat && (n <=? 13)%nat).

Definition digit_of (c : ascii) : option Z :=
  let n := nat_of_ascii c in
  if ((48 <=? n)%nat && (n <=? 57)%nat)%bool
  then Some (Z.of_nat (n - 48))
  else None.

Fixpoint skip_spaces (s : string) : string :=
  match s with
  | String c s' => if is_space c then skip_spaces s' else s
  | EmptyString => s
  end.

Fixpoint digits (acc : number) (s : string) : number :=
  match s with
  | String c s' =>
      match digit_of c with
      | Some d =>
          digits (Int (10 * (match acc with Int a => a | NaN => 0 end) + d)) s'
      | None => acc
      end
  | EmptyString => acc
  end.

Definition negate (a : number) : number :=
  match a with Int x => Int (- x) | NaN => NaN end.

Definition parseInt (s : string) : number :=
  match skip_spaces s with
  | String "-" s' => negate (digits NaN s')
  | String "+" s' => digits NaN s'
  | s' => digits NaN s'
  end.

(** [s.slice(n)] on a string, for [0 <= n]. *)
Fixpoint string_slice (n : nat) (s : string) : string :=
  match n, s with
  | O, _ => s
  | S n', String _ s' => string_slice n' s'
  | S _, EmptyString => EmptyString
  end.

(** [s.replace(pat, rep)] with a string pattern and a replacement free of
    dollar patterns: only the first occurrence of [pat] is replaced. *)
Fixpoint replace (pat rep s : string) : string :=
  if String.prefix pat s
  then rep ++ string_slice (String.length pat) s
  else match s with
       | String c s' => String c (replace pat rep s')
       | EmptyString => EmptyString
       end.

(** [s.split(sep)] with a one-character separator. *)
Fixpoint split (sep : ascii) (s : string) : list string :=
  match s with
  | EmptyString => [EmptyString]
  | String c s' =>
      if Ascii.eqb c sep then EmptyString :: split sep s'
      else match split sep s' with
           | w :: ws => String c w :: ws
           | [] => [String c EmptyString]
           end
  end.

(** [a.join(sep)]. *)
Fixpoint join (sep : string) (a : list string) : string :=
  match a with
  | [] => EmptyString
  | [w] => w
  | w :: ws => w ++ sep ++ join sep ws
  end.

(** [a.slice(start)] on an array: a negative [start] counts from the end. *)
Definition slice {A : Type} (start : Z) (a : list A) : list A :=
  if (start <? 0)%Z
  then drop (Z.to_nat (Z.max (Z.of_nat (length a) + start) 0)) a
  else drop (Z.to_nat start) a.

(** [a.indexOf(x)] on an array of strings: [None] stands for -1. *)
Fixpoint indexOf (x : string) (a : list string) : option nat :=
  match a with
  | [] => None
  | y :: a' => if String.eqb y x then Some O else S <$> indexOf x a'
  end.

(** [a.splice(i, 1)]: the array without its element at index [i]. *)
Definition splice1 {A : Type} (i : nat) (a : list A) : list A := delete i a.

End JS.

(** ** Exceptions *)

(** Modelled from the spec: [error.ts] is not among the sources.  The
    errors of the emulation layer carry a stable code; [E492] is the code
    of the "unsupported syntax" error. *)
Definition ErrorCode : Type := N.
Definition E492 : ErrorCode := 492%N.

(** What the code throws.  A [VimError] is represented by its code and by
    the text its [toString()] returns; a [SystemError] is an error of the
    file system with its [code] field. *)
Inductive exn : Type :=
| Error (message : string)
| TypeError (message : string)
| SyntaxError (message : string)
| SystemError (code : string)
| VimError (code : ErrorCode) (text : string).

Definition exn_toString (e : exn) : string :=
  match e with
  | Error m => "Error: " ++ m
  | TypeError m => "TypeError: " ++ m
  | SyntaxError m => "SyntaxError: " ++ m
  | SystemError c => "Error: " ++ c
  | VimError _ t => t
  end.

Inductive result (A : Type) : Type :=
| Ok (a : A)
| Throw (e : exn).
Arguments Ok {A} a.
Arguments Throw {A} e.

Definition result_bind {A B : Type} (r : result A) (k : A -> result B) : result B :=
  match r with
  | Ok a => k a
  | Throw e => Throw e
  end.

(** ** Tokens *)

Module token.

(** Modelled from the spec: [token.ts] is not among the sources.  A token is
    a kind and its raw content; the kinds are the nine of the data model. *)
Inductive TokenType : Type :=
| LineNumber
| Dot
| Dollar
| Percent
| Comma
| Offset
| Mark
| SelectionFirstLine
| SelectionLastLine.

Definition TokenType_eqb (a b : TokenType) : bool :=
  match a, b with
  | LineNumber, LineNumber | Dot, Dot | Dollar, Dollar | Percent, Percent
  | Comma, Comma | Offset, Offset | Mark, Mark
  | SelectionFirstLine, SelectionFirstLine
  | SelectionLastLine, SelectionLastLine => true
  | _, _ => false
  end.

Record Token : Type := mkToken {
  type : TokenType;
  content : string
}.

End token.

(** ** The editor as the command line sees it *)

(** A position of the buffer (both [vscode.Position] and the emulation
    layer's own [Position], which extends it). *)
Record Position : Type := mkPosition {
  line : JS.number;
  character : JS.number
}.

(** [p.isBeforeOrEqual(q)] and [p.isAfter(q)] of [vscode.Position]. *)
Definition isBeforeOrEqual (p q : Position) : bool :=
  if JS.lt (line p) (line q) then true
  else if JS.lt (line q) (line p) then false
  else JS.le (character p) (character q).

Definition isAfter (p q : Position) : bool := negb (isBeforeOrEqual p q).

(** [p.setLocation(line, character)]: a new position. *)
Definition setLocation (p : Position) (l c : JS.number) : Position :=
  mkPosition l c.

(** A selection with the fields the code reads. *)
Record Selection : Type := mkSelection {
  start : Position;
  end_ : Position;
  active : Position
}.

(** A document is its text; its lines are separated by line feeds. *)
Record TextDocument : Type := mkTextDocument {
  getText : string
}.

Definition lineCount (d : TextDocument) : Z :=
  Z.of_nat (length (JS.split "010" (getText d))).

(** A [vscode.TextEditor]: an editor always has a primary selection, so
    that [selections] is never empty. *)
Record TextEditor : Type := mkTextEditor {
  document : TextDocument;
  selection : Selection;
  secondary_selections : list Selection
}.

Definition selections (e : TextEditor) : list Selection :=
  selection e :: secondary_selections e.

(** A mark of the history tracker. *)
Record IMark : Type := mkMark {
  name : string;
  position : Position
}.

(** Modelled from the spec: [historyTracker.ts] is not among the sources.
    The tracker holds the mark table, a mark name leading to a buffer
    position; [getMark] is [undefined] ([None]) when the mark is not set. *)
Record HistoryTracker : Type := mkHistoryTracker {
  getMarks : list IMark
}.

Definition getMark (h : HistoryTracker) (markName : string) : option IMark :=
  List.find (fun m => String.eqb (name m) markName) (getMarks h).

(** The register modes of [RegisterMode], in the order of their numeric
    values 0 to 3. *)
Inductive RegisterMode : Type :=
| FigureItOutFromCurrentMode
| CharacterWise
| LineWise
| BlockWise.

(** Modelled from the spec: [register.ts] is not among the sources.  The
    unnamed register is a text, read by [Register.get] and written by
    [Register.put], with the wise-mode kept in [currentRegisterMode]
    ([None] is [undefined]). *)
Record VimState : Type := mkVimState {
  editor : TextEditor;
  cursorPosition : Position;
  cursorStartPosition : Position;
  historyTracker : HistoryTracker;
  currentMode : string;
  isRecordingMacro : bool;
  currentRegisterMode : option RegisterMode;
  unnamedRegister : string
}.

Definition set_cursor (v : VimState) (c s : Position) : VimState :=
  mkVimState (editor v) c s (historyTracker v) (currentMode v)
    (isRecordingMacro v) (currentRegisterMode v) (unnamedRegister v).

Definition set_editor (v : VimState) (e : TextEditor) : VimState :=
  mkVimState e (cursorPosition v) (cursorStartPosition v) (historyTracker v)
    (currentMode v) (isRecordingMacro v) (currentRegisterMode v)
    (unnamedRegister v).

Definition set_register (v : VimState) (m : option RegisterMode)
    (text : string) : VimState :=
  mkVimState (editor v) (cursorPosition v) (cursorStartPosition v)
    (historyTracker v) (currentMode v) (isRecordingMacro v) m text.

(** ** [node.ts]: line ranges *)

Module LineRange.
Import token.

Record t : Type := mk {
  left : list Token;
  separator : option Token;
  right : list Token
}.

(** The constructor. *)
Definition new : t := mk [] None [].

Definition not_a_Vim_command : exn := Error "not a Vim command".

Definition addToken (tok : Token) (r : t) : result t :=
  if TokenType_eqb (type tok) Comma then
    Ok (mk (left r) (Some tok) (right r))
  else
    match separator r with
    | None =>
        if (0 <? length (left r))%nat && negb (TokenType_eqb (type tok) Offset)
        then Throw not_a_Vim_command
        else Ok (mk (left r ++ [tok])%list (separator r) (right r))
    | Some _ =>
        if (0 <? length (right r))%nat && negb (TokenType_eqb (type tok) Offset)
        then Throw not_a_Vim_command
        else Ok (mk (left r) (separator r) (right r ++ [tok])%list)
    end.

(** Adding the tokens of a list one after the other, as the parser does;
    the first exception ends it. *)
Fixpoint addTokens (toks : list Token) (r : t) : result t :=
  match toks with
  | [] => Ok r
  | tok :: toks' => result_bind (addToken tok r) (addTokens toks')
  end.

Definition isEmpty (r : t) : bool :=
  (length (left r) =? 0)%nat && (length (right r) =? 0)%nat
  && match separator r with None => true | Some _ => false end.

Definition lineRefToPosition (doc : TextEditor) (toks : list Token)
    (vimState : VimState) : result Position :=
  match toks with
  | [] => Throw (TypeError "Cannot read property 'type' of undefined")
  | first :: _ =>
      match type first with
      | Dollar | Percent =>
          Ok (mkPosition (JS.Int (lineCount (document doc) - 1)) (JS.Int 0))
      | Dot =>
          Ok (mkPosition (line (active (selection doc))) (JS.Int 0))
      | LineNumber =>
          let line := JS.parseInt (content first) in
          let line := JS.Math_max (JS.Int 0) (JS.add line (JS.Int (-1))) in
          let line := JS.Math_min (JS.Int (lineCount (document doc))) line in
          Ok (mkPosition line (JS.Int 0))
      | SelectionFirstLine =>
          (* [doc.selections] is [selection doc :: secondary_selections doc] *)
          let lineOf (selection : Selection) :=
            if isBeforeOrEqual (start selection) (end_ selection)
            then line (start selection)
            else line (end_ selection) in
          let startLine :=
            JS.Math_min_apply (lineOf (selection doc))
              (map lineOf (secondary_selections doc)) in
          Ok (mkPosition startLine (JS.Int 0))
      | SelectionLastLine =>
          let lineOf (selection : Selection) :=
            if isAfter (start selection) (end_ selection)
            then line (start selection)
            else line (end_ selection) in
          let endLine :=
            JS.Math_max_apply (lineOf (selection doc))
              (map lineOf (secondary_selections doc)) in
          Ok (mkPosition endLine (JS.Int 0))
      | Mark =>
          match getMark (historyTracker vimState) (content first) with
          | Some m => Ok (position m)
          | None => Throw (TypeError "Cannot read property 'position' of undefined")
          end
      | _ => Throw (Error "Not Implemented")
      end
  end.

Definition execute (document : TextEditor) (vimState : VimState)
    (r : t) : result VimState :=
  if isEmpty r then Ok vimState
  else
    let lineRef := if (length (right r) =? 0)%nat then left r else right r in
    result_bind (lineRefToPosition document lineRef vimState) (fun pos =>
      let cursor :=
        setLocation (cursorPosition vimState) (line pos) (character pos) in
      Ok (set_cursor vimState cursor cursor)).

End LineRange.

(** ** The world around the command line *)

(** The fields of the global [configuration] that the sources read. *)
Record Configuration : Type := mkConfiguration {
  enableNeovim : bool;
  history : Z;
  expandtab : bool;
  substituteGlobalFlag : bool
}.

(** The history directory and the history file in it, as [fs] shows them:
    whether the directory exists, the content of the file when it exists,
    and the error with which an operation of [fs] on them fails, if it
    does. *)
Record FS : Type := mkFS {
  dir_exists : bool;
  file : option string;
  mkdir_error : option exn;
  read_error : option exn;
  write_error : option exn;
  unlink_error : option exn
}.

Definition ENOENT : exn := SystemError "ENOENT".

Definition exn_code (e : exn) : option string :=
  match e with
  | SystemError c => Some c
  | _ => None
  end.

Definition readFileSync (f : FS) : result string :=
  match file f with
  | None => Throw ENOENT
  | Some data =>
      match read_error f with
      | Some e => Throw e
      | None => Ok data
      end
  end.

Definition unlinkSync (f : FS) : result FS :=
  match file f with
  | None => Throw ENOENT
  | Some _ =>
      match unlink_error f with
      | Some e => Throw e
      | None =>
          Ok (mkFS (dir_exists f) None (mkdir_error f) (read_error f)
                (write_error f) (unlink_error f))
      end
  end.

Definition mkdirp_sync (f : FS) : result FS :=
  match mkdir_error f with
  | Some e => Throw e
  | None =>
      Ok (mkFS true (file f) (mkdir_error f) (read_error f)
            (write_error f) (unlink_error f))
  end.

Definition writeFileSync (data : string) (f : FS) : result FS :=
  if negb (dir_exists f) then Throw ENOENT
  else match write_error f with
       | Some e => Throw e
       | None =>
           Ok (mkFS (dir_exists f) (Some data) (mkdir_error f) (read_error f)
                 (write_error f) (unlink_error f))
       end.

(** The calls made to the external Vim process through the client. *)
Inductive scalar : Type :=
| VUndefined
| VBool (b : bool)
| VNum (n : JS.number)
| VStr (s : string).

Inductive arg : Type :=
| AScalar (v : scalar)
| AList (l : list scalar).

Inductive rpc : Type :=
| nvim_getCurrentBuf
| nvim_setOption (name : string) (value : bool)
| buf_setLines (first last : Z) (strict : bool) (lines : list string)
| buf_getLines (first last : Z) (strict : bool)
| nvim_callFunction (name : string) (args : list arg)
| nvim_command (cmd : string)
| nvim_input (keys : string)
| nvim_getMode
| nvim_getVvar (name : string).

(** The external process: given the calls made so far, whether the next
    call fails, and what the calls that read from the process answer. *)
Record NvimProcess : Type := mkNvimProcess {
  fails : list rpc -> rpc -> option exn;
  mode_blocking : list rpc -> bool;
  vvar : list rpc -> string -> string;
  buffer_lines : list rpc -> list string;
  function_value : list rpc -> string -> list arg -> arg
}.

(** A session ([vimState.nvim]): the process and the calls made to it,
    oldest first. *)
Record Nvim : Type := mkNvim {
  process : NvimProcess;
  calls : list rpc
}.

Inductive LogLevel : Type :=
| debug
| warn
| error.

Record World : Type := mkWorld {
  configuration : Configuration;
  platform : string;
  fs : FS;
  logger : list (LogLevel * string);
  statusBar : list string;
  messages : list string;
  vimState : VimState;
  nvim : option Nvim
}.

Definition set_fs (f : FS) (w : World) : World :=
  mkWorld (configuration w) (platform w) f (logger w) (statusBar w)
    (messages w) (vimState w) (nvim w).

Definition set_vimState (v : VimState) (w : World) : World :=
  mkWorld (configuration w) (platform w) (fs w) (logger w) (statusBar w)
    (messages w) v (nvim w).

Definition set_nvim (n : option Nvim) (w : World) : World :=
  mkWorld (configuration w) (platform w) (fs w) (logger w) (statusBar w)
    (messages w) (vimState w) n.

(** [logger.debug], [logger.warn], [logger.error]. *)
Definition log (l : LogLevel) (msg : string) (w : World) : World :=
  mkWorld (configuration w) (platform w) (fs w) (logger w ++ [(l, msg)])%list
    (statusBar w) (messages w) (vimState w) (nvim w).

(** [StatusBar.SetText(text, ...)]: the texts shown, oldest first. *)
Definition StatusBar_SetText (text : string) (w : World) : World :=
  mkWorld (configuration w) (platform w) (fs w) (logger w)
    (statusBar w ++ [text])%list (messages w) (vimState w) (nvim w).

(** [Message.ShowError(text)]: the messages shown, oldest first. *)
Definition Message_ShowError (text : string) (w : World) : World :=
  mkWorld (configuration w) (platform w) (fs w) (logger w) (statusBar w)
    (messages w ++ [text])%list (vimState w) (nvim w).

(** What the runtime, the host editor and the rest of the extension
    provide: [JSON.parse] (restricted to what the history store
    distinguishes: a syntax error, a value that is not an array, an array,
    whose elements are strings as the type of the field it is stored in
    says), [JSON.stringify] on an array of strings, the effect of an editor
    command on the editor, and the getter [vimState.effectiveRegisterMode]. *)
Inductive parsed : Type :=
| NotArray
| IsArray (entries : list string).

Class Host : Type := mkHost {
  JSON_parse : string -> result parsed;
  JSON_stringify : list string -> string;
  executeCommand : string -> TextEditor -> TextEditor;
  effectiveRegisterMode : VimState -> RegisterMode
}.

(** ** Computations: a world threaded through, and exceptions *)

Definition M (A : Type) : Type := World -> World * result A.

Global Instance M_ret : MRet M := fun A a w => (w, Ok a).

Global Instance M_bind : MBind M := fun A B k m w =>
  match m w with
  | (w', Ok a) => k a w'
  | (w', Throw e) => (w', Throw e)
  end.

Definition throw {A : Type} (e : exn) : M A := fun w => (w, Throw e).

Definition try_catch {A : Type} (body : M A) (handler : exn -> M A) : M A :=
  fun w =>
    match body w with
    | (w', Ok a) => (w', Ok a)
    | (w', Throw e) => handler e w'
    end.

Definition get_world : M World := fun w => (w, Ok w).

Definition modify (f : World -> World) : M unit := fun w => (f w, Ok tt).

Definition lift {A : Type} (r : result A) : M A := fun w => (w, r).

(** ** [commandLineHistory.ts] *)

Module CommandLineHistory.
Section WithHost.
Context `{!Host}.

Record t : Type := mk {
  _historyDir : string;
  _history : list string
}.

Definition _historyFileName : string := ".cmdline_history".

(** [path.join(this._historyDir, _historyFileName)]. *)
Definition _historyFilePath (this : t) : string :=
  _historyDir this ++ "/" ++ _historyFileName.

(** [save()]: the outcome is that of the promise, rejected by the first
    failure; the executor goes on to the write after a failed [mkdirp]. *)
Definition save (this : t) : M unit :=
  r1 ← try_catch
         (w ← get_world;
          if negb (dir_exists (fs w))
          then f ← lift (mkdirp_sync (fs w));
               modify (set_fs f);;
               mret None
          else mret None)
         (fun err =>
            modify (log error
              ("CommandLineHistory: Failed to create directory. path="
               ++ _historyDir this ++ ". err=" ++ exn_toString err ++ "."));;
            mret (Some err));
  r2 ← try_catch
         (w ← get_world;
          f ← lift (writeFileSync (JSON_stringify (_history this)) (fs w));
          modify (set_fs f);;
          mret None)
         (fun err =>
            modify (log error
              ("CommandLineHistory: Failed to save history. err="
               ++ exn_toString err ++ "."));;
            mret (Some err));
  match r1, r2 with
  | Some err, _ => throw err
  | None, Some err => throw err
  | None, None => mret tt
  end.

(** [add(command)]; [None] is [undefined].  The promise of [save()] is not
    awaited, so that its rejection does not reach [add]. *)
Definition add (command : option string) (this : t) : M t :=
  match command with
  | None => mret this
  | Some command =>
      if (String.length command =? 0)%nat then mret this
      else
        let index := JS.indexOf command (_history this) in
        let h :=
          match index with
          | Some index => JS.splice1 index (_history this)
          | None => _history this
          end in
        let h := (h ++ [command])%list in
        w ← get_world;
        let h :=
          if (history (configuration w) <? Z.of_nat (length h))%Z
          then JS.slice (Z.of_nat (length h) - history (configuration w)) h
          else h in
        let this := mk (_historyDir this) h in
        try_catch (save this) (fun _ => mret tt);;
        mret this
  end.

(** [get()]: the entries, and the store after the resize. *)
Definition get (this : t) : M (list string * t) :=
  w ← get_world;
  let h := _history this in
  let h :=
    if (history (configuration w) <? Z.of_nat (length h))%Z
    then JS.slice (Z.of_nat (length h) - history (configuration w)) h
    else h in
  mret (h, mk (_historyDir this) h).

Definition clear (this : t) : M unit :=
  try_catch
    (w ← get_world;
     f ← lift (unlinkSync (fs w));
     modify (set_fs f))
    (fun err =>
       modify (log warn
         ("CommandLineHistory: unable to delete " ++ _historyFilePath this
          ++ ". err=" ++ exn_toString err ++ "."))).

(** [_loadFromFile()]; the first step yields [None] where the code
    returns from the [catch] clause. *)
Definition _loadFromFile (this : t) : M t :=
  data ← try_catch
           (w ← get_world;
            data ← lift (readFileSync (fs w));
            mret (Some data))
           (fun err =>
              if match exn_code err with
                 | Some c => String.eqb c "ENOENT"
                 | None => false
                 end
              then modify (log debug "CommandLineHistory: History does not exist.");;
                   mret (Some EmptyString)
              else modify (log error
                     ("CommandLineHistory: Failed to load history. err="
                      ++ exn_toString err ++ "."));;
                   mret None);
  match data with
  | None => mret this
  | Some data =>
      if (String.length data =? 0)%nat then mret this
      else
        try_catch
          (parsedData ← lift (JSON_parse data);
           match parsedData with
           | NotArray => throw (Error "Expected JSON")
           | IsArray entries => mret (mk (_historyDir this) entries)
           end)
          (fun e =>
             modify (log error
               ("CommandLineHistory: Deleting corrupted history file. err="
                ++ exn_toString e ++ "."));;
             clear this;;
             mret this)
  end.

(** The constructor. *)
Definition new (historyDir : string) : M t :=
  _loadFromFile (mk historyDir []).

(** A sequence of calls of [add], in order. *)
Fixpoint adds (commands : list (option string)) (this : t) : M t :=
  match commands with
  | [] => mret this
  | command :: commands' => this ← add command this; adds commands' this
  end.

End WithHost.
End CommandLineHistory.

(** ** [neovim.ts]: the bridge to the external Vim process *)

Module Neovim.
Section WithHost.
Context `{!Host}.

(** Modelled from the spec: [position.ts] is not among the sources.
    [Position.EarlierOf] is the earlier of two positions, by line and then
    by column, and [Position.LaterOf] the other one. *)
Definition EarlierOf (p1 p2 : Position) : Position :=
  if JS.lt (line p1) (line p2) then p1
  else if JS.eq (line p1) (line p2) && JS.lt (character p1) (character p2)
       then p1
       else p2.

Definition LaterOf (p1 p2 : Position) : Position :=
  if JS.lt (line p1) (line p2) then p2
  else if JS.eq (line p1) (line p2) && JS.lt (character p1) (character p2)
       then p2
       else p1.

(** The double quote, the name of the unnamed register. *)
Definition dquote : string := String "034" EmptyString.

(** A call to the process through [this.nvim]. *)
Definition request (r : rpc) : M Nvim :=
  fun w =>
    match nvim w with
    | None => (w, Throw (TypeError "Cannot read property of undefined"))
    | Some n =>
        match fails (process n) (calls n) r with
        | Some e => (w, Throw e)
        | None =>
            let n' := mkNvim (process n) (calls n ++ [r]) in
            (set_nvim (Some n') w, Ok n')
        end
    end.

Definition setpos (mark : string) (l c : JS.number) : rpc :=
  nvim_callFunction "setpos"
    [AScalar (VStr mark); AList [VNum (JS.Int 0); VNum l; VNum c; VBool false]].

(** [vscode.commands.executeCommand(cmd)] on the editor. *)
Definition vscode_executeCommand (cmd : string) : M unit :=
  modify (fun w =>
    set_vimState (set_editor (vimState w) (executeCommand cmd (editor (vimState w)))) w).

(** The loop over [vimState.historyTracker.getMarks()]. *)
Fixpoint push_marks (marks : list IMark) : M unit :=
  match marks with
  | [] => mret tt
  | mark :: marks' =>
      request (setpos ("'" ++ name mark)
                 (JS.add (line (position mark)) (JS.Int 1))
                 (character (position mark)));;
      push_marks marks'
  end.

(** The table [[undefined, 'c', 'l', 'b']] indexed by a register mode. *)
Definition vsRegTovimReg (m : RegisterMode) : scalar :=
  match m with
  | FigureItOutFromCurrentMode => VUndefined
  | CharacterWise => VStr "c"
  | LineWise => VStr "l"
  | BlockWise => VStr "b"
  end.

(** Data flows from VS to Vim. *)
Definition syncVSToVim : M unit :=
  request nvim_getCurrentBuf;;
  w ← get_world;
  (if expandtab (configuration w)
   then vscode_executeCommand "editor.action.indentationToTabs"
   else mret tt);;
  w ← get_world;
  request (nvim_setOption "gdefault" (substituteGlobalFlag (configuration w)));;
  w ← get_world;
  request (buf_setLines 0 (-1) true
             (JS.split "010" (getText (document (editor (vimState w))))));;
  w ← get_world;
  let vimState := vimState w in
  let rangeStart :=
    EarlierOf (cursorPosition vimState) (cursorStartPosition vimState) in
  let rangeEnd :=
    LaterOf (cursorPosition vimState) (cursorStartPosition vimState) in
  request (setpos "."
             (JS.add (line (cursorPosition vimState)) (JS.Int 1))
             (character (cursorPosition vimState)));;
  request (setpos "'<"
             (JS.add (line rangeStart) (JS.Int 1)) (character rangeEnd));;
  request (setpos "'>"
             (JS.add (line rangeEnd) (JS.Int 1)) (character rangeEnd));;
  push_marks (getMarks (historyTracker vimState));;
  (* We only copy over the unnamed register. *)
  request (nvim_callFunction "setreg"
             [AScalar (VStr dquote);
              AScalar (VStr (unnamedRegister vimState));
              AScalar (vsRegTovimReg (effectiveRegisterMode vimState))]);;
  mret tt.

(** [line.replace(/\r$/, '')]. *)
Fixpoint strip_cr (s : string) : string :=
  match s with
  | EmptyString => EmptyString
  | String c EmptyString => if Ascii.eqb c "013" then EmptyString else s
  | String c s' => String c (strip_cr s')
  end.

(** The table from the register types of the process to register modes. *)
Definition vimRegToVsReg (v : arg) : option RegisterMode :=
  match v with
  | AScalar (VStr s) =>
      if String.eqb s "v" then Some CharacterWise
      else if String.eqb s "V" then Some LineWise
      else if String.eqb s (String "022" EmptyString) then Some BlockWise
      else None
  | _ => None
  end.

Definition as_number (v : option scalar) : JS.number :=
  match v with
  | Some (VNum n) => n
  | _ => JS.NaN
  end.

Definition as_string (v : arg) : string :=
  match v with
  | AScalar (VStr s) => s
  | _ => EmptyString
  end.

(** Data flows from Vim to VS. *)
Definition syncVimToVs : M unit :=
  request nvim_getCurrentBuf;;
  n ← request (buf_getLines 0 (-1) false);
  let lines := buffer_lines (process n) (calls n) in
  w ← get_world;
  let fixedLines :=
    if String.eqb (platform w) "win32" then map strip_cr lines else lines in
  (* the whole text is replaced by the lines read back *)
  modify (fun w =>
    let e := editor (vimState w) in
    set_vimState
      (set_editor (vimState w)
         (mkTextEditor (mkTextDocument (JS.join (String "010" EmptyString) fixedLines))
            (selection e) (secondary_selections e))) w);;
  w ← get_world;
  modify (log debug
    ("Neovim: " ++ pretty (length lines) ++ " lines in nvim. "
     ++ pretty (lineCount (document (editor (vimState w)))) ++ " in editor."));;
  n ← request (nvim_callFunction "getpos" [AScalar (VStr ".")]);
  let pos :=
    match function_value (process n) (calls n) "getpos" [AScalar (VStr ".")] with
    | AList l => l
    | AScalar _ => []
    end in
  let row := as_number (pos !! 1%nat) in
  let character := as_number (pos !! 2%nat) in
  (* [new Position(row - 1, character)], on the cursor of the process: a
     position of its buffer, whose row is at least 1 and whose column is
     not negative *)
  let p := mkPosition (JS.add row (JS.Int (-1))) character in
  modify (fun w =>
    set_vimState
      (set_editor (vimState w)
         (mkTextEditor (document (editor (vimState w))) (mkSelection p p p) [])) w);;
  w ← get_world;
  (if expandtab (configuration w)
   then vscode_executeCommand "editor.action.indentationToSpaces"
   else mret tt);;
  (* Only the unnamed register is synced back. *)
  n ← request (nvim_callFunction "getregtype" [AScalar (VStr dquote)]);
  let regtype :=
    function_value (process n) (calls n) "getregtype" [AScalar (VStr dquote)] in
  n ← request (nvim_callFunction "getreg" [AScalar (VStr dquote)]);
  let text :=
    function_value (process n) (calls n) "getreg" [AScalar (VStr dquote)] in
  modify (fun w =>
    set_vimState (set_register (vimState w) (vimRegToVsReg regtype) (as_string text)) w).

Definition clear_messages : string :=
  "let v:errmsg=" ++ dquote ++ dquote ++ " | let v:statusmsg=" ++ dquote ++ dquote.

Definition run (command : string) : M unit :=
  syncVSToVim;;
  let command := ":" ++ command ++ String "010" EmptyString in
  let command := JS.replace "<" "<lt>" command in
  (* Clear the previous error and status messages. *)
  request (nvim_command clear_messages);;
  (* Execute the command *)
  request (nvim_input command);;
  n ← request nvim_getMode;
  (if mode_blocking (process n) (calls n)
   then request (nvim_input "<esc>");; mret tt
   else mret tt);;
  (* Check if an error occurred *)
  n ← request (nvim_getVvar "errmsg");
  let errMsg := vvar (process n) (calls n) "errmsg" in
  statusBarText ←
    (if negb (String.eqb errMsg EmptyString) then mret errMsg
     else
       n ← request (nvim_getVvar "statusmsg");
       let statusMsg := vvar (process n) (calls n) "statusmsg" in
       if negb (String.eqb statusMsg EmptyString) then mret statusMsg
       else mret EmptyString);
  (* Sync buffer back to vscode *)
  syncVimToVs;;
  (* Lastly update the status bar *)
  modify (StatusBar_SetText statusBarText).

Definition input (keys : string) : M unit :=
  syncVSToVim;;
  request (nvim_input keys);;
  syncVimToVs.

End WithHost.
End Neovim.

(** ** [node.ts]: commands and parsed command lines *)

Module node.

Module CommandBase.

(** A command: its capability flag and its two entry points, which act on
    the shared [vimState]. *)
Record t : Type := mk {
  neovimCapable : bool;
  execute : M unit;
  executeWithRange : LineRange.t -> M unit
}.

(** The [executeWithRange] of the base class. *)
Definition executeWithRange_default (range : LineRange.t) : M unit :=
  throw (Error "Not implemented!").

End CommandBase.

Module CommandLine.

Record t : Type := mk {
  range : LineRange.t;
  command : option CommandBase.t
}.

Definition isEmpty (this : t) : bool :=
  LineRange.isEmpty (range this)
  && match command this with None => true | Some _ => false end.

Definition execute (document : TextEditor) (this : t) : M unit :=
  match command this with
  | None =>
      w ← get_world;
      v ← lift (LineRange.execute document (vimState w) (range this));
      modify (set_vimState v)
  | Some command =>
      if LineRange.isEmpty (range this)
      then CommandBase.execute command
      else CommandBase.executeWithRange command (range this)
  end.

End CommandLine.

End node.

(** ** [commandLine.ts]: the command-line engine *)

Module CommandLine.
Section WithHost.
Context `{!Host}.

(** [parser.parse]: [parser.ts] is not among the sources. *)
Variable parse : string -> result node.CommandLine.t.

Record t : Type := mk {
  _history : CommandLineHistory.t;
  _commandLineHistoryIndex : Z
}.

(** The constructor; [extensionDir] is [getExtensionDirPath()]. *)
Definition new (extensionDir : string) : M t :=
  h ← CommandLineHistory.new extensionDir;
  mret (mk h 0).

(** The body of the [try] block of [Run]. *)
Definition Run_try (command : string) : M unit :=
  cmd ← lift (parse command);
  w ← get_world;
  let useNeovim :=
    enableNeovim (configuration w)
    && match node.CommandLine.command cmd with
       | Some c => node.CommandBase.neovimCapable c
       | None => false
       end in
  if useNeovim then Neovim.run command
  else node.CommandLine.execute (editor (vimState w)) cmd.

(** The [catch] clause of [Run]. *)
Definition Run_catch (command : string) (e : exn) : M unit :=
  match e with
  | VimError code _ =>
      w ← get_world;
      if (code =? E492)%N && enableNeovim (configuration w)
      then Neovim.run command
      else modify (StatusBar_SetText (exn_toString e ++ ". " ++ command))
  | _ =>
      modify (log error
        ("commandLine : error executing cmd=" ++ command
         ++ ". err=" ++ exn_toString e ++ "."));;
      modify (Message_ShowError (exn_toString e))
  end.

(** [command.slice(1)] when the first character is a colon. *)
Definition strip_colon (command : string) : string :=
  match command with
  | String ":" _ => JS.string_slice 1 command
  | _ => command
  end.

(** The start of [Run], up to the [try] block: the command recorded in the
    history and the history index set. *)
Definition Run_record (command : string) (this : t) : M t :=
  h ← CommandLineHistory.add (Some command) (_history this);
  '(entries, h) ← CommandLineHistory.get h;
  mret (mk h (Z.of_nat (length entries))).

(** [Run(command, vimState)]; [None] is [undefined].  The outcome is the
    world, the command line object, and whether [Run] returned or threw. *)
Definition Run (command : option string) (this : t) (w : World)
    : World * t * result unit :=
  match command with
  | None => (w, this, Ok tt)
  | Some command =>
      if (String.length command =? 0)%nat then (w, this, Ok tt)
      else
        let command := strip_colon command in
        match Run_record command this w with
        | (w, Throw e) => (w, this, Throw e)
        | (w, Ok this) =>
            let '(w, r) := try_catch (Run_try command) (Run_catch command) w in
            (w, this, r)
        end
  end.

(** Whether [vscode.window.activeTextEditor] is set, and what the user
    picks among the items of a quick pick ([None] when it is dismissed). *)
Variable activeTextEditor : bool.
Variable showQuickPick : list string -> option string.

(** [ShowHistory(initialText, vimState)]: the pick, and the command line
    object after it. *)
Definition ShowHistory (initialText : string) (this : t) : M (option string * t) :=
  if negb activeTextEditor then
    modify (log debug "commandLine : No active document.");;
    mret (Some EmptyString, this)
  else
    h ← CommandLineHistory.add (Some initialText) (_history this);
    '(entries, h) ← CommandLineHistory.get h;
    let cmd := showQuickPick (reverse entries) in
    mret (cmd, mk h (_commandLineHistoryIndex this)).

End WithHost.
End CommandLine.

(** ** The statements of the specification *)

Module Spec.
Import token.

(** A side of a range holds at most one primary address, at its head: all
    the tokens after the first are offsets. *)
Definition one_primary (side : list Token) : Prop :=
  match side with
  | [] => True
  | _ :: offsets => Forall (fun t => type t = Offset) offsets
  end.

(** The side that [addToken] appends to. *)
Definition active_side (r : LineRange.t) : list Token :=
  match LineRange.separator r with
  | None => LineRange.left r
  | Some _ => LineRange.right r
  end.

(** The invariant of a range under construction. *)
Definition range_ok (r : LineRange.t) : Prop :=
  (LineRange.right r <> [] -> is_Some (LineRange.separator r))
  /\ one_primary (LineRange.left r)
  /\ one_primary (LineRange.right r).

(** The rightmost non-empty side: right if non-empty, else left. *)
Definition rightmost_side (r : LineRange.t) : list Token :=
  match LineRange.right r with
  | [] => LineRange.left r
  | _ :: _ => LineRange.right r
  end.

(** The history as the specification describes it.  [remove_first]
    removes the prior occurrence of an entry, [move_to_end] is the
    deduplicating append, [keep_last] the truncation from the front to the
    cap, and [ideal_history] the history that a sequence of additions
    to an empty store builds when there is no cap. *)
Fixpoint remove_first (c : string) (l : list string) : list string :=
  match l with
  | [] => []
  | x :: l' => if String.eqb x c then l' else x :: remove_first c l'
  end.

Definition move_to_end (c : string) (l : list string) : list string :=
  (remove_first c l ++ [c])%list.

Definition keep_last (N : Z) (l : list string) : list string :=
  drop (Z.to_nat (Z.of_nat (length l) - N)) l.

Definition ideal_add (l : list string) (c : option string) : list string :=
  match c with
  | None => l
  | Some EmptyString => l
  | Some c => move_to_end c l
  end.

Definition ideal_history (commands : list (option string)) : list string :=
  fold_left ideal_add commands [].

(** What stays the same in the world when only the file system and the
    log are written. *)
Definition frame (w w' : World) : Prop :=
  configuration w' = configuration w
  /\ platform w' = platform w
  /\ statusBar w' = statusBar w
  /\ messages w' = messages w
  /\ vimState w' = vimState w
  /\ nvim w' = nvim w.

Definition framed {A : Type} (m : M A) : Prop :=
  forall w, frame w (m w).1.

(** The failure that Run answers by delegation: the error coded E492. *)
Definition is_E492 (e : exn) : bool :=
  match e with
  | VimError code _ => (code =? E492)%N
  | _ => false
  end.

(** Between two worlds, a message about [e] and [command] was shown to
    the user: in the status bar or as an error message. *)
Definition shown (e : exn) (command : string) (w w' : World) : Prop :=
  (statusBar w' = (statusBar w ++ [(exn_toString e ++ ". " ++ command)%string])%list
   /\ messages w' = messages w)
  \/ (messages w' = (messages w ++ [exn_toString e])%list
      /\ statusBar w' = statusBar w).

(** The calls of the sync-out, in order, for the state [v] of the session:
    the buffer, the cursor, the two visual marks, the tracked marks and
    the unnamed register. *)
Definition mark_call (mark : IMark) : rpc :=
  Neovim.setpos ("'" ++ name mark)
    (JS.add (line (position mark)) (JS.Int 1)) (character (position mark)).

Definition sync_out_calls `{!Host} (c : Configuration) (v : VimState) : list rpc :=
  let rangeStart := Neovim.EarlierOf (cursorPosition v) (cursorStartPosition v) in
  let rangeEnd := Neovim.LaterOf (cursorPosition v) (cursorStartPosition v) in
  ([nvim_getCurrentBuf;
    nvim_setOption "gdefault" (substituteGlobalFlag c);
    buf_setLines 0 (-1) true (JS.split "010" (getText (document (editor v))));
    Neovim.setpos "." (JS.add (line (cursorPosition v)) (JS.Int 1))
      (character (cursorPosition v));
    Neovim.setpos "'<" (JS.add (line rangeStart) (JS.Int 1)) (character rangeEnd);
    Neovim.setpos "'>" (JS.add (line rangeEnd) (JS.Int 1)) (character rangeEnd)]
   ++ map mark_call (getMarks (historyTracker v))
   ++ [nvim_callFunction "setreg"
         [AScalar (VStr Neovim.dquote);
          AScalar (VStr (unnamedRegister v));
          AScalar (Neovim.vsRegTovimReg (effectiveRegisterMode v))]])%list.

(** The state of the session once the indentation was converted to tabs,
    which the sync-out asks of the editor when [expandtab] is set. *)
Definition tabs_applied `{!Host} (c : Configuration) (v : VimState) : VimState :=
  if expandtab c
  then set_editor v (executeCommand "editor.action.indentationToTabs" (editor v))
  else v.

(** Every occurrence of the less-than sign replaced by its key notation. *)
Fixpoint escape_all_lt (s : string) : string :=
  match s with
  | EmptyString => EmptyString
  | String c s' =>
      if Ascii.eqb c "<" then "<lt>" ++ escape_all_lt s'
      else String c (escape_all_lt s')
  end.

(** The synthetic input of [run] for a command text: the command line with
    the [replace] of the source applied. *)
Definition injected (command : string) : string :=
  JS.replace "<" "<lt>" (":" ++ command ++ String "010" EmptyString).

(** The number of less-than signs of a text. *)
Fixpoint count_lt (s : string) : nat :=
  match s with
  | EmptyString => 0
  | String c s' => (if Ascii.eqb c "<" then 1 else 0) + count_lt s'
  end.

(** A computation that shows nothing: it leaves the status bar and the
    messages as they are. *)
Definition quiet {A : Type} (m : M A) : Prop :=
  forall w, statusBar (m w).1 = statusBar w /\ messages (m w).1 = messages w.

(** A computation that shows one text in the status bar, as its last
    step, when it returns, and nothing when it throws. *)
Definition ends_with_status {A : Type} (m : M A) : Prop :=
  forall w,
    match (m w).2 with
    | Ok _ =>
        (exists text, statusBar (m w).1 = (statusBar w ++ [text])%list)
        /\ messages (m w).1 = messages w
    | Throw _ =>
        statusBar (m w).1 = statusBar w /\ messages (m w).1 = messages w
    end.

(** The selections whose ends are on lines that are integers. *)
Definition int_lines (s : Selection) : Prop :=
  exists a b, line (start s) = JS.Int a /\ line (end_ s) = JS.Int b.

(** The line that the resolution of ['<], and of ['>], takes from a
    selection. *)
Definition first_line (s : Selection) : JS.number :=
  if isBeforeOrEqual (start s) (end_ s) then line (start s) else line (end_ s).

Definition last_line (s : Selection) : JS.number :=
  if isAfter (start s) (end_ s) then line (start s) else line (end_ s).

(** The call that reads the cursor of the process, and the position that
    the sync-in makes of its answer. *)
Definition getpos_call : rpc :=
  nvim_callFunction "getpos" [AScalar (VStr ".")].

Definition cursor_read (answer : arg) : Position :=
  let pos := match answer with AList l => l | AScalar _ => [] end in
  mkPosition (JS.add (Neovim.as_number (pos !! 1%nat)) (JS.Int (-1)))
    (Neovim.as_number (pos !! 2%nat)).

(** The token kinds that resolve to a line alone. *)
Definition line_only (k : TokenType) : Prop :=
  k = Dollar \/ k = Percent \/ k = Dot \/ k = LineNumber
  \/ k = SelectionFirstLine \/ k = SelectionLastLine.

(** [clamp(x, lo, hi)]. *)
Definition clamp (x lo hi : Z) : Z := Z.max lo (Z.min hi x).

End Spec.

(** ** Concrete inputs *)

Module Examples.

Definition origin : Position := mkPosition (JS.Int 0) (JS.Int 0).

Definition at_ (l c : Z) : Position := mkPosition (JS.Int l) (JS.Int c).

(** An editor on a text, the cursor of its only selection at line [l]. *)
Definition editor_on (text : string) (l : Z) : TextEditor :=
  mkTextEditor (mkTextDocument text)
    (mkSelection (at_ l 0) (at_ l 0) (at_ l 0)) [].

Definition three_lines : string :=
  "one" ++ String "010" ("two" ++ String "010" "three").

(** The state of a session on [three_lines], cursor on the first line,
    with the mark [a] at line 2, column 5. *)
Definition vimState0 : VimState :=
  mkVimState (editor_on three_lines 0) origin origin
    (mkHistoryTracker [mkMark "a" (at_ 2 5)])
    "Normal" false None EmptyString.

(** The default configuration: no delegation, fifty entries of history. *)
Definition configuration0 : Configuration := mkConfiguration false 50 false false.

(** No history directory yet, and no failure of the file system. *)
Definition fs0 : FS := mkFS false None None None None None.

Definition world0 : World :=
  mkWorld configuration0 "linux" fs0 [] [] [] vimState0 None.

(** A host for the examples.  Its [JSON.parse] knows the empty array and
    the empty object and takes any other text for a syntax error; its
    [JSON.stringify] writes the entries without escapes; its editor
    commands do nothing. *)
Definition quoted (s : string) : string :=
  String "034" (s ++ String "034" EmptyString).

Definition quoted_list (l : list string) : string :=
  "[" ++ JS.join "," (map quoted l) ++ "]".

Definition host0 : Host :=
  mkHost
    (fun s =>
       if String.eqb s "[]" then Ok (IsArray [])
       else if String.eqb s "{}" then Ok NotArray
       else Throw (SyntaxError "Unexpected token"))
    quoted_list
    (fun _ e => e)
    (fun v => match currentRegisterMode v with
              | Some m => m
              | None => CharacterWise
              end).

(** An external process that never fails, is never blocked, reports no
    message, holds the one line [done], and answers every function call
    with the position of line 1, column 0. *)
Definition process0 : NvimProcess :=
  mkNvimProcess (fun _ _ => None) (fun _ => false) (fun _ _ => EmptyString)
    (fun _ => ["done"])
    (fun _ _ _ =>
       AList [VNum (JS.Int 0); VNum (JS.Int 1); VNum (JS.Int 0); VNum (JS.Int 0)]).

(** [world0] with delegation enabled and a session on [process0]. *)
Definition world_nvim : World :=
  mkWorld (mkConfiguration true 50 false false) "linux" fs0 [] [] []
    vimState0 (Some (mkNvim process0 [])).

(** A parser that rejects every text, a parser for which every text is
    unsupported syntax, and a parser that yields a command, not marked as
    eligible for delegation, whose execution finds the syntax unsupported. *)
Definition parse_fail (text : string) : result node.CommandLine.t :=
  Throw (Error "not a Vim command").

Definition not_an_editor_command : exn :=
  VimError E492 "E492: Not an editor command".

Definition parse_E492 (text : string) : result node.CommandLine.t :=
  Throw not_an_editor_command.

Definition parse_unsupported (text : string) : result node.CommandLine.t :=
  Ok (node.CommandLine.mk LineRange.new
        (Some (node.CommandBase.mk false (throw not_an_editor_command)
                 node.CommandBase.executeWithRange_default))).

(** A command line whose history holds one entry. *)
Definition commandLine0 : CommandLine.t :=
  CommandLine.mk (CommandLineHistory.mk "dir" ["old"]) 1.

(** [world_nvim] in visual mode: the cursor at line 0, column 3, the start
    of the selection at line 2, column 7. *)
Definition world_visual : World :=
  set_vimState (set_cursor vimState0 (at_ 0 3) (at_ 2 7)) world_nvim.

(** The keys injected by the [input] calls among the calls of a session. *)
Definition inputs (cs : list rpc) : list string :=
  omap (fun r => match r with nvim_input keys => Some keys | _ => None end) cs.

(** A reader of the arrays that [quoted_list] writes: [cur] is the entry
    being read, [acc] the entries read. *)
Fixpoint read_entries (s : string) (cur : option string) (acc : list string)
    : option (list string) :=
  match s with
  | EmptyString => None
  | String c s' =>
      match cur with
      | Some entry =>
          if Ascii.eqb c "034" then read_entries s' None (acc ++ [entry])
          else read_entries s' (Some (entry ++ String c EmptyString)) acc
      | None =>
          if Ascii.eqb c "034" then read_entries s' (Some EmptyString) acc
          else if Ascii.eqb c "," then read_entries s' None acc
          else if Ascii.eqb c "]"
               then match s' with EmptyString => Some acc | _ => None end
               else None
      end
  end.

(** [host0] with a [JSON.parse] that reads those arrays back. *)
Definition host_json : Host :=
  mkHost
    (fun s =>
       match s with
       | String "[" s' =>
           match read_entries s' None [] with
           | Some l => Ok (IsArray l)
           | None => Throw (SyntaxError "Unexpected token")
           end
       | _ =>
           if String.eqb s "{}" then Ok NotArray
           else Throw (SyntaxError "Unexpected token")
       end)
    quoted_list
    (fun _ e => e)
    (fun v => match currentRegisterMode v with
              | Some m => m
              | None => CharacterWise
              end).

(** A world whose history directory exists and holds the history
    [["one"; "two"]]. *)
Definition fs_saved : FS :=
  mkFS true (Some (quoted_list ["one"; "two"])) None None None None.

Definition world_saved : World := set_fs fs_saved world0.

(** An external process that holds the three lines of [three_lines], its
    cursor on line 2 (from 1), column 4, which reports [err] as its error
    message and [status] as its status message. *)
Definition process_reporting (err status : string) : NvimProcess :=
  mkNvimProcess (fun _ _ => None) (fun _ => false)
    (fun _ name => if String.eqb name "errmsg" then err else status)
    (fun _ => JS.split "010" three_lines)
    (fun _ _ _ =>
       AList [VNum (JS.Int 0); VNum (JS.Int 2); VNum (JS.Int 4); VNum (JS.Int 0)]).

Definition world_reporting (err status : string) : World :=
  mkWorld (mkConfiguration true 50 false false) "linux" fs0 [] [] []
    vimState0 (Some (mkNvim (process_reporting err status) [])).

(** On Windows, a process that returns every line with a carriage return
    at its end. *)
Definition process_crlf : NvimProcess :=
  mkNvimProcess (fun _ _ => None) (fun _ => false) (fun _ _ => EmptyString)
    (fun _ => map (fun l => l ++ String "013" EmptyString)
                (JS.split "010" three_lines))
    (fun _ _ _ =>
       AList [VNum (JS.Int 0); VNum (JS.Int 1); VNum (JS.Int 0); VNum (JS.Int 0)]).

Definition world_win32 : World :=
  mkWorld (mkConfiguration true 50 false false) "win32" fs0 [] [] []
    vimState0 (Some (mkNvim process_crlf [])).

(** A process that is dead: every call fails. *)
Definition process_dead : NvimProcess :=
  mkNvimProcess (fun _ _ => Some (Error "channel closed")) (fun _ => false)
    (fun _ _ => EmptyString) (fun _ => []) (fun _ _ _ => AList []).

(** A parser that yields a command with the range [1], not eligible for
    delegation and without an [executeWithRange] of its own. *)
Definition parse_ranged (text : string) : result node.CommandLine.t :=
  Ok (node.CommandLine.mk
        (LineRange.mk [token.mkToken token.LineNumber "1"] None [])
        (Some (node.CommandBase.mk false
                 (modify (StatusBar_SetText "executed"))
                 node.CommandBase.executeWithRange_default))).

(** Two parsers that yield commands eligible for delegation, which differ
    in what the commands do when they are executed locally. *)
Definition parse_capable_1 (text : string) : result node.CommandLine.t :=
  Ok (node.CommandLine.mk LineRange.new
        (Some (node.CommandBase.mk true
                 (modify (StatusBar_SetText "executed"))
                 node.CommandBase.executeWithRange_default))).

Definition parse_capable_2 (text : string) : result node.CommandLine.t :=
  Ok (node.CommandLine.mk
        (LineRange.mk [token.mkToken token.Percent "%"] None [])
        (Some (node.CommandBase.mk true
                 (throw not_an_editor_command)
                 (fun _ => modify (Message_ShowError "ranged"))))).

End Examples.

(** ** The runtime functions on concrete inputs *)

Example parseInt_42 : JS.parseInt "42" = JS.Int 42.
Proof. reflexivity. Qed.

Example parseInt_prefix : JS.parseInt " 12abc" = JS.Int 12.
Proof. reflexivity. Qed.

Example parseInt_no_digit : JS.parseInt "abc" = JS.NaN.
Proof. reflexivity. Qed.

Example replace_first_occurrence : JS.replace "<" "<lt>" "a<b<c" = "a<lt>b<c".
Proof. reflexivity. Qed.

Example replace_absent : JS.replace "<" "<lt>" "abc" = "abc".
Proof. reflexivity. Qed.

Example split_lines :
  JS.split "010" Examples.three_lines = ["one"; "two"; "three"].
Proof. reflexivity. Qed.

Example join_lines :
  JS.join (String "010" EmptyString) ["one"; "two"; "three"] = Examples.three_lines.
Proof. reflexivity. Qed.

Example slice_from_2 : JS.slice 2 ["a"; "b"; "c"] = ["c"].
Proof. reflexivity. Qed.

Example slice_past_end : JS.slice 5 ["a"; "b"; "c"] = [].
Proof. reflexivity. Qed.

Example indexOf_second : JS.indexOf "b" ["a"; "b"; "b"] = Some 1%nat.
Proof. reflexivity. Qed.

(** ** Line ranges: proofs *)

Section LineRangeFacts.
Import token.

Lemma TokenType_eqb_eq (a b : TokenType) : TokenType_eqb a b = true <-> a = b.
Proof. split; [destruct a, b; simpl; congruence | intros ->; destruct b; reflexivity]. Qed.

Lemma TokenType_eqb_neq (a b : TokenType) : TokenType_eqb a b = false <-> a <> b.
Proof.
  split.
  - intros H Heq. apply TokenType_eqb_eq in Heq. congruence.
  - intros H. destruct (TokenType_eqb a b) eqn:E; [|reflexivity].
    apply TokenType_eqb_eq in E. contradiction.
Qed.

Lemma length_pos_nonempty {A : Type} (l : list A) :
  (0 <? length l)%nat = true <-> l <> [].
Proof.
  destruct l; simpl; split; intros H; try congruence; try reflexivity.
  unfold Nat.ltb in H. simpl in H. discriminate.
Qed.

(** What [addToken] does, case by case. *)
Lemma addToken_Comma tok r :
  type tok = Comma ->
  LineRange.addToken tok r
  = Ok (LineRange.mk (LineRange.left r) (Some tok) (LineRange.right r)).
Proof. intros H. unfold LineRange.addToken. rewrite H. reflexivity. Qed.

Lemma addToken_second_primary tok r :
  type tok <> Comma -> type tok <> Offset -> Spec.active_side r <> [] ->
  LineRange.addToken tok r = Throw LineRange.not_a_Vim_command.
Proof.
  intros Hc Ho Hs. unfold LineRange.addToken, Spec.active_side in *.
  apply TokenType_eqb_neq in Hc, Ho. rewrite Hc, Ho.
  destruct (LineRange.separator r);
    apply length_pos_nonempty in Hs; rewrite Hs; reflexivity.
Qed.

Lemma addToken_push tok r :
  type tok <> Comma -> (Spec.active_side r = [] \/ type tok = Offset) ->
  LineRange.addToken tok r
  = Ok (match LineRange.separator r with
        | None => LineRange.mk (LineRange.left r ++ [tok]) None (LineRange.right r)
        | Some s => LineRange.mk (LineRange.left r) (Some s) (LineRange.right r ++ [tok])
        end).
Proof.
  intros Hc Hs. unfold LineRange.addToken, Spec.active_side in *.
  apply TokenType_eqb_neq in Hc. rewrite Hc.
  destruct (LineRange.separator r) eqn:E.
  - destruct Hs as [-> | ->]; simpl; [reflexivity|].
    rewrite andb_false_r. reflexivity.
  - destruct Hs as [-> | ->]; simpl; [reflexivity|].
    rewrite andb_false_r. reflexivity.
Qed.

Lemma addToken_Ok_inv tok r r' :
  LineRange.addToken tok r = Ok r' ->
  (type tok = Comma /\
   r' = LineRange.mk (LineRange.left r) (Some tok) (LineRange.right r))
  \/ (type tok <> Comma /\ (Spec.active_side r = [] \/ type tok = Offset) /\
      r' = match LineRange.separator r with
           | None => LineRange.mk (LineRange.left r ++ [tok]) None (LineRange.right r)
           | Some s => LineRange.mk (LineRange.left r) (Some s) (LineRange.right r ++ [tok])
           end).
Proof.
  intros H. destruct (TokenType_eqb (type tok) Comma) eqn:Ec.
  - apply TokenType_eqb_eq in Ec. left. split; [assumption|].
    rewrite addToken_Comma in H by assumption. congruence.
  - apply TokenType_eqb_neq in Ec. right. split; [assumption|].
    destruct (TokenType_eqb (type tok) Offset) eqn:Eo.
    + apply TokenType_eqb_eq in Eo.
      rewrite addToken_push in H by auto. split; [auto | congruence].
    + apply TokenType_eqb_neq in Eo.
      destruct (Spec.active_side r) eqn:Es.
      * rewrite addToken_push in H by auto. split; [auto | congruence].
      * rewrite addToken_second_primary in H; [discriminate|auto..].
        rewrite Es. discriminate.
Qed.

Lemma one_primary_snoc side tok :
  Spec.one_primary side -> (side = [] \/ type tok = Offset) ->
  Spec.one_primary (side ++ [tok])%list.
Proof.
  intros H [-> | Ho]; [simpl; constructor|].
  destruct side as [|t side]; [simpl; constructor|]. simpl in *.
  apply Forall_app. split; [assumption|]. constructor; [assumption|constructor].
Qed.

Lemma addToken_range_ok tok r r' :
  Spec.range_ok r -> LineRange.addToken tok r = Ok r' -> Spec.range_ok r'.
Proof.
  intros (Hsep & Hl & Hr) H.
  apply addToken_Ok_inv in H as [[_ ->] | (_ & Hs & ->)].
  - repeat split; simpl; eauto.
  - unfold Spec.active_side in Hs.
    destruct (LineRange.separator r) eqn:E; repeat split; simpl;
      eauto using one_primary_snoc.
Qed.

Lemma addTokens_range_ok toks : forall r r',
  Spec.range_ok r -> LineRange.addTokens toks r = Ok r' -> Spec.range_ok r'.
Proof.
  induction toks as [|tok toks IH]; simpl; intros r r' Hok H.
  - congruence.
  - destruct (LineRange.addToken tok r) as [r1|e] eqn:E; simpl in H; [|discriminate].
    eapply IH; [|eassumption]. eapply addToken_range_ok; eassumption.
Qed.

(** Once the separator is there, the right side only grows by the tokens
    that are added. *)
Lemma addTokens_after_separator toks : forall r r',
  is_Some (LineRange.separator r) ->
  LineRange.addTokens toks r = Ok r' ->
  forall t, t ∈ LineRange.right r' -> t ∈ LineRange.right r \/ t ∈ toks.
Proof.
  induction toks as [|tok toks IH]; simpl; intros r r' Hsep H t Ht.
  - left. congruence.
  - destruct (LineRange.addToken tok r) as [r1|e] eqn:E; simpl in H; [|discriminate].
    destruct Hsep as [s Hs].
    apply addToken_Ok_inv in E as [[_ ->] | (_ & _ & ->)].
    + edestruct IH as [?|?]; [|exact H|exact Ht| |]; simpl; eauto.
      right; right; assumption.
    + rewrite Hs in H.
      edestruct IH as [Hin|?]; [|exact H|exact Ht| |]; simpl; eauto.
      * simpl in Hin. apply elem_of_app in Hin as [?|Hin]; [left; assumption|].
        apply list_elem_of_singleton in Hin as ->. right; left.
      * right; right; assumption.
Qed.

(** Before the separator, the right side stays empty; the first comma
    splits the tokens. *)
Lemma addTokens_before_separator toks : forall r r',
  LineRange.separator r = None -> LineRange.right r = [] ->
  LineRange.addTokens toks r = Ok r' ->
  LineRange.right r' <> [] ->
  exists pre comma post,
    toks = (pre ++ comma :: post)%list /\ type comma = Comma
    /\ forall t, t ∈ LineRange.right r' -> t ∈ post.
Proof.
  induction toks as [|tok toks IH]; simpl; intros r r' Hsep Hright H Hne.
  - congruence.
  - destruct (LineRange.addToken tok r) as [r1|e] eqn:E; simpl in H; [|discriminate].
    apply addToken_Ok_inv in E as [[Hc ->] | (_ & _ & ->)].
    + exists [], tok, toks. repeat split; [assumption|].
      intros t Ht.
      edestruct addTokens_after_separator as [Hin|Hin];
        [|exact H|exact Ht| |]; simpl; eauto.
      simpl in Hin. rewrite Hright in Hin. inversion Hin.
    + rewrite Hsep in H.
      edestruct IH as (pre & comma & post & -> & Hc & Hin);
        [| |exact H|exact Hne|]; [reflexivity|exact Hright|].
      exists (tok :: pre), comma, post. repeat split; assumption.
Qed.

End LineRangeFacts.

(** C5.  For every sequence of tokens added to a fresh range without an
    exception: the right side is non-empty only if a Comma token came
    before all the tokens it holds (and the separator is set); each side
    holds at most one token that is not an Offset, at its head.  Adding a
    token that is neither a Comma nor an Offset to a side that already
    holds a token throws the error 'not a Vim command'; adding an Offset
    never throws and appends it to the side. *)
Theorem LineRange_addToken_sides (toks : list token.Token) (r : LineRange.t) :
  LineRange.addTokens toks LineRange.new = Ok r ->
  (LineRange.right r <> [] ->
     is_Some (LineRange.separator r)
     /\ exists pre comma post,
          toks = (pre ++ comma :: post)%list /\ token.type comma = token.Comma
          /\ forall t, t ∈ LineRange.right r -> t ∈ post)
  /\ Spec.one_primary (LineRange.left r)
  /\ Spec.one_primary (LineRange.right r)
  /\ (forall tok,
        token.type tok <> token.Comma -> token.type tok <> token.Offset ->
        Spec.active_side r <> [] ->
        LineRange.addToken tok r = Throw (Error "not a Vim command"))
  /\ (forall tok,
        token.type tok = token.Offset ->
        exists r', LineRange.addToken tok r = Ok r'
                   /\ Spec.active_side r' = (Spec.active_side r ++ [tok])%list).
Proof.
  intros H.
  assert (Hok : Spec.range_ok r).
  { eapply addTokens_range_ok; [|exact H]. repeat split; simpl; auto. congruence. }
  destruct Hok as (Hsep & Hl & Hr).
  split; [|split; [assumption|split; [assumption|split]]].
  - intros Hne. split; [auto|].
    eapply addTokens_before_separator; [| |exact H|exact Hne]; reflexivity.
  - intros tok Hc Ho Hs. apply addToken_second_primary; assumption.
  - intros tok Ho. eexists. split.
    + apply addToken_push; [rewrite Ho; discriminate | right; assumption].
    + unfold Spec.active_side. destruct (LineRange.separator r); reflexivity.
Qed.

Lemma LineRange_addToken_sides_witness :
  let toks := [token.mkToken token.LineNumber "1"; token.mkToken token.Comma ",";
               token.mkToken token.Dollar "$"; token.mkToken token.Offset "+2"] in
  let r := LineRange.mk [token.mkToken token.LineNumber "1"]
             (Some (token.mkToken token.Comma ","))
             [token.mkToken token.Dollar "$"; token.mkToken token.Offset "+2"] in
  LineRange.addTokens toks LineRange.new = Ok r
  /\ Spec.one_primary (LineRange.right r)
  /\ LineRange.addToken (token.mkToken token.Dot ".") r
     = Throw (Error "not a Vim command").
Proof.
  intros toks r.
  pose proof (LineRange_addToken_sides toks r eq_refl) as (_ & _ & Hr & Hthrow & _).
  split; [reflexivity|]. split; [exact Hr|].
  apply Hthrow; simpl; discriminate.
Defined.

(** ** Resolving an address: proofs *)

Lemma split_nonempty sep s : (1 <= length (JS.split sep s))%nat.
Proof.
  induction s as [|c s IH]; simpl; [lia|].
  destruct (Ascii.eqb c sep); simpl; [lia|].
  destruct (JS.split sep s); simpl; lia.
Qed.

Lemma lineCount_pos d : (1 <= lineCount d)%Z.
Proof. unfold lineCount. pose proof (split_nonempty "010" (getText d)). lia. Qed.

(** C4.  A numeric address token of value [n] resolves to the line index
    [clamp(n-1, 0, lineCount)] at column 0: the upper bound of the clamp is
    the raw line count, which an [n] beyond it reaches, and the lower
    bound is 0. *)
Theorem lineRefToPosition_LineNumber_clamp
    (doc : TextEditor) (first : token.Token) (rest : list token.Token)
    (vimState : VimState) (n : Z) :
  token.type first = token.LineNumber ->
  JS.parseInt (token.content first) = JS.Int n ->
  LineRange.lineRefToPosition doc (first :: rest) vimState
  = Ok (mkPosition (JS.Int (Spec.clamp (n - 1) 0 (lineCount (document doc))))
          (JS.Int 0))
  /\ (lineCount (document doc) < n ->
      Spec.clamp (n - 1) 0 (lineCount (document doc)) = lineCount (document doc))%Z
  /\ (n <= 1 -> Spec.clamp (n - 1) 0 (lineCount (document doc)) = 0)%Z.
Proof.
  intros Ht Hn. pose proof (lineCount_pos (document doc)) as Hpos.
  split; [|split].
  - unfold LineRange.lineRefToPosition. rewrite Ht, Hn. simpl.
    do 3 f_equal. unfold Spec.clamp. lia.
  - intros Hlt. unfold Spec.clamp. lia.
  - intros Hle. unfold Spec.clamp. lia.
Qed.

Lemma lineRefToPosition_LineNumber_clamp_witness :
  JS.parseInt "7" = JS.Int 7
  /\ LineRange.lineRefToPosition (editor Examples.vimState0)
       [token.mkToken token.LineNumber "7"] Examples.vimState0
     = Ok (mkPosition (JS.Int 3) (JS.Int 0))
  /\ lineCount (document (editor Examples.vimState0)) = 3%Z.
Proof.
  pose proof (lineRefToPosition_LineNumber_clamp (editor Examples.vimState0)
                (token.mkToken token.LineNumber "7") [] Examples.vimState0 7
                eq_refl eq_refl) as [H _].
  split; [reflexivity|]. split; [exact H|reflexivity].
Defined.

(** C10.  An address whose first token is Dollar, Percent, Dot, LineNumber,
    SelectionFirstLine or SelectionLastLine resolves to column 0; a Mark
    token resolves to the stored position of the mark, column included,
    so that only a Mark resolves to a column other than 0; every other
    kind of token throws the error 'Not Implemented'. *)
Theorem lineRefToPosition_column
    (doc : TextEditor) (first : token.Token) (rest : list token.Token)
    (vimState : VimState) :
  (Spec.line_only (token.type first) ->
   exists l, LineRange.lineRefToPosition doc (first :: rest) vimState
             = Ok (mkPosition l (JS.Int 0)))
  /\ (token.type first = token.Mark ->
      forall m, getMark (historyTracker vimState) (token.content first) = Some m ->
      LineRange.lineRefToPosition doc (first :: rest) vimState = Ok (position m))
  /\ (~ Spec.line_only (token.type first) -> token.type first <> token.Mark ->
      LineRange.lineRefToPosition doc (first :: rest) vimState
      = Throw (Error "Not Implemented"))
  /\ (forall pos,
      LineRange.lineRefToPosition doc (first :: rest) vimState = Ok pos ->
      character pos <> JS.Int 0 ->
      token.type first = token.Mark
      /\ exists m, getMark (historyTracker vimState) (token.content first) = Some m
                   /\ pos = position m).
Proof.
  unfold LineRange.lineRefToPosition, Spec.line_only.
  split; [|split; [|split]].
  - intros [H|[H|[H|[H|[H|H]]]]]; rewrite H; eexists; reflexivity.
  - intros H m Hm. rewrite H, Hm. reflexivity.
  - intros Hn Hm. destruct (token.type first); try reflexivity; try congruence;
      exfalso; apply Hn; auto 10.
  - intros pos Hpos Hc.
    destruct (token.type first); try discriminate;
      try (injection Hpos as <-; simpl in Hc; congruence).
    split; [reflexivity|].
    destruct (getMark _ _) as [m|]; [|discriminate].
    exists m. split; [reflexivity|congruence].
Qed.

Lemma lineRefToPosition_column_witness :
  LineRange.lineRefToPosition (editor Examples.vimState0)
    [token.mkToken token.Mark "a"] Examples.vimState0
  = Ok (Examples.at_ 2 5)
  /\ LineRange.lineRefToPosition (editor Examples.vimState0)
       [token.mkToken token.Offset "+1"] Examples.vimState0
     = Throw (Error "Not Implemented").
Proof.
  split.
  - exact (proj1 (proj2 (lineRefToPosition_column (editor Examples.vimState0)
             (token.mkToken token.Mark "a") [] Examples.vimState0))
             eq_refl (mkMark "a" (Examples.at_ 2 5)) eq_refl).
  - apply (proj1 (proj2 (proj2 (lineRefToPosition_column (editor Examples.vimState0)
             (token.mkToken token.Offset "+1") [] Examples.vimState0)))).
    + unfold Spec.line_only. simpl. intros [H|[H|[H|[H|[H|H]]]]]; discriminate.
    + simpl. discriminate.
Defined.

(** ** The bare-range jump *)

Lemma lineRef_rightmost_side (r : LineRange.t) :
  (if (length (LineRange.right r) =? 0)%nat
   then LineRange.left r else LineRange.right r)
  = Spec.rightmost_side r.
Proof. unfold Spec.rightmost_side. destruct (LineRange.right r); reflexivity. Qed.

Lemma setLocation_eta (p pos : Position) :
  setLocation p (line pos) (character pos) = pos.
Proof. destruct pos; reflexivity. Qed.

(** ** The history store: proofs *)

Section HistoryFacts.
Context {host : Host}.
Import Spec.

Lemma frame_refl w : frame w w.
Proof. repeat split. Qed.

Lemma frame_trans w1 w2 w3 : frame w1 w2 -> frame w2 w3 -> frame w1 w3.
Proof. unfold frame. intuition congruence. Qed.

Lemma framed_ret {A} (a : A) : framed (mret a).
Proof. intros w. apply frame_refl. Qed.

Lemma framed_throw {A} (e : exn) : framed (@throw A e).
Proof. intros w. apply frame_refl. Qed.

Lemma framed_lift {A} (r : result A) : framed (lift r).
Proof. intros w. apply frame_refl. Qed.

Lemma framed_get_world : framed get_world.
Proof. intros w. apply frame_refl. Qed.

Lemma framed_set_fs f : framed (modify (set_fs f)).
Proof. intros w. repeat split. Qed.

Lemma framed_log l msg : framed (modify (log l msg)).
Proof. intros w. repeat split. Qed.

Lemma framed_bind {A B} (m : M A) (k : A -> M B) :
  framed m -> (forall a, framed (k a)) -> framed (m ≫= k).
Proof.
  intros Hm Hk w. unfold mbind, M_bind. specialize (Hm w).
  destruct (m w) as [w1 [a|e]]; simpl in *; [|assumption].
  eapply frame_trans; [exact Hm | apply Hk].
Qed.

Lemma framed_try_catch {A} (m : M A) (h : exn -> M A) :
  framed m -> (forall e, framed (h e)) -> framed (try_catch m h).
Proof.
  intros Hm Hh w. unfold try_catch. specialize (Hm w).
  destruct (m w) as [w1 [a|e]]; simpl in *; [assumption|].
  eapply frame_trans; [exact Hm | apply Hh].
Qed.

Lemma framed_if {A} (b : bool) (m1 m2 : M A) :
  framed m1 -> framed m2 -> framed (if b then m1 else m2).
Proof. destruct b; auto. Qed.

Create HintDb framed.
#[local] Hint Resolve framed_ret framed_throw framed_lift framed_get_world
  framed_set_fs framed_log framed_if : framed.
#[local] Hint Extern 2 (framed (_ ≫= _)) =>
  apply framed_bind; [|intros ?] : framed.
#[local] Hint Extern 2 (framed (try_catch _ _)) =>
  apply framed_try_catch; [|intros ?] : framed.
#[local] Hint Extern 3 (framed (match ?x with _ => _ end)) =>
  destruct x : framed.

Lemma framed_save this : framed (CommandLineHistory.save this).
Proof. unfold CommandLineHistory.save. auto 20 with framed. Qed.

Lemma framed_clear this : framed (CommandLineHistory.clear this).
Proof. unfold CommandLineHistory.clear. auto 20 with framed. Qed.

(** The array operations of [add] are the deduplicating append. *)
Lemma indexOf_splice_remove_first c l :
  match JS.indexOf c l with
  | Some index => JS.splice1 index l
  | None => l
  end = remove_first c l.
Proof.
  induction l as [|x l IH]; simpl; [reflexivity|].
  destruct (String.eqb x c); [reflexivity|].
  rewrite <- IH. destruct (JS.indexOf c l); reflexivity.
Qed.

(** The resize of [add] and [get] keeps the last [N] entries. *)
Lemma resize_keep_last N (l : list string) :
  (if (N <? Z.of_nat (length l))%Z
   then JS.slice (Z.of_nat (length l) - N) l else l)
  = keep_last N l.
Proof.
  unfold keep_last, JS.slice.
  destruct (Z.ltb_spec N (Z.of_nat (length l))).
  - destruct (Z.ltb_spec (Z.of_nat (length l) - N) 0); [lia|reflexivity].
  - replace (Z.to_nat (Z.of_nat (length l) - N)) with 0%nat by lia. reflexivity.
Qed.

Lemma keep_last_all N (l : list string) :
  (Z.of_nat (length l) <= N)%Z -> keep_last N l = l.
Proof.
  intros H. unfold keep_last.
  replace (Z.to_nat (Z.of_nat (length l) - N)) with 0%nat by lia. reflexivity.
Qed.

Lemma keep_last_none N (l : list string) : (N <= 0)%Z -> keep_last N l = [].
Proof. intros H. unfold keep_last. apply drop_ge. lia. Qed.

Lemma keep_last_length N (l : list string) :
  (0 <= N <= Z.of_nat (length l))%Z -> Z.of_nat (length (keep_last N l)) = N.
Proof. intros H. unfold keep_last. rewrite length_drop. lia. Qed.

Lemma keep_last_app_ge N (a b : list string) :
  (N <= Z.of_nat (length b))%Z -> keep_last N (a ++ b) = keep_last N b.
Proof.
  intros H. unfold keep_last. rewrite length_app, drop_app_ge by lia.
  f_equal. lia.
Qed.

Lemma keep_last_idemp N (l : list string) :
  keep_last N (keep_last N l) = keep_last N l.
Proof.
  destruct (Z.le_gt_cases N 0) as [H0|H0].
  - rewrite !keep_last_none; [reflexivity|lia..].
  - destruct (Z.le_gt_cases (Z.of_nat (length l)) N) as [H|H].
    + rewrite !(keep_last_all N l H). reflexivity.
    + apply keep_last_all. rewrite keep_last_length; lia.
Qed.

(** The entries that the truncation drops are the oldest ones. *)
Lemma keep_last_suffix N (l : list string) :
  l = (take (Z.to_nat (Z.of_nat (length l) - N)) l ++ keep_last N l)%list.
Proof. unfold keep_last. symmetry. apply take_drop. Qed.

Lemma remove_first_notin c (l : list string) : c ∉ l -> remove_first c l = l.
Proof.
  induction l as [|x l IH]; simpl; intros H; [reflexivity|].
  apply not_elem_of_cons in H as [Hx Hl].
  destruct (String.eqb_spec x c); [congruence|]. rewrite IH; auto.
Qed.

Lemma remove_first_app_l c (p s : list string) :
  c ∈ p -> remove_first c (p ++ s) = (remove_first c p ++ s)%list.
Proof.
  induction p as [|x p IH]; simpl; intros H; [inversion H|].
  destruct (String.eqb_spec x c); [reflexivity|].
  apply elem_of_cons in H as [?|H]; [congruence|]. rewrite IH; auto.
Qed.

Lemma remove_first_app_r c (p s : list string) :
  c ∉ p -> remove_first c (p ++ s) = (p ++ remove_first c s)%list.
Proof.
  induction p as [|x p IH]; simpl; intros H; [reflexivity|].
  apply not_elem_of_cons in H as [Hx Hl].
  destruct (String.eqb_spec x c); [congruence|]. rewrite IH; auto.
Qed.

Lemma remove_first_length c (l : list string) :
  c ∈ l -> S (length (remove_first c l)) = length l.
Proof.
  induction l as [|x l IH]; simpl; intros H; [inversion H|].
  destruct (String.eqb_spec x c); [reflexivity|].
  apply elem_of_cons in H as [?|H]; [congruence|]. simpl. rewrite IH; auto.
Qed.

Lemma remove_first_subseteq c (l : list string) x :
  x ∈ remove_first c l -> x ∈ l.
Proof.
  induction l as [|y l IH]; simpl; [auto|].
  destruct (String.eqb y c); intros H; [right; assumption|].
  apply elem_of_cons in H as [->|H]; [left | right; auto].
Qed.

Lemma remove_first_NoDup c (l : list string) :
  NoDup l -> NoDup (remove_first c l) /\ c ∉ remove_first c l.
Proof.
  induction 1 as [|x l Hx Hl IH]; simpl.
  - split; [constructor | apply not_elem_of_nil].
  - destruct (String.eqb_spec x c) as [->|Hne]; [split; assumption|].
    destruct IH as [IH1 IH2]. split.
    + constructor; [|assumption]. intros Hin. apply Hx.
      eapply remove_first_subseteq; eassumption.
    + apply not_elem_of_cons. split; [congruence|assumption].
Qed.

Lemma move_to_end_NoDup c (l : list string) : NoDup l -> NoDup (move_to_end c l).
Proof.
  intros H. destruct (remove_first_NoDup c l H) as [H1 H2].
  unfold move_to_end. apply NoDup_app. split; [assumption|]. split.
  - intros x Hx Hc. apply list_elem_of_singleton in Hc as ->. contradiction.
  - apply NoDup_singleton.
Qed.

(** Moving to the end, written out. *)
Lemma move_to_end_present c (l1 l2 : list string) :
  c ∉ l1 -> move_to_end c (l1 ++ c :: l2) = (l1 ++ l2 ++ [c])%list.
Proof.
  intros H. unfold move_to_end. rewrite remove_first_app_r by assumption.
  simpl. rewrite String.eqb_refl, <- app_assoc. reflexivity.
Qed.

Lemma move_to_end_absent c (l : list string) :
  c ∉ l -> move_to_end c l = (l ++ [c])%list.
Proof. intros H. unfold move_to_end. rewrite remove_first_notin; auto. Qed.

(** The capped history is the end of the uncapped one: truncating before
    an addition or after it makes no difference. *)
Lemma keep_last_move_to_end N c (u : list string) :
  NoDup u ->
  keep_last N (move_to_end c (keep_last N u)) = keep_last N (move_to_end c u).
Proof.
  intros Hnd.
  destruct (Z.le_gt_cases N 0) as [H0|H0].
  { rewrite !keep_last_none; [reflexivity|lia..]. }
  destruct (Z.le_gt_cases (Z.of_nat (length u)) N) as [Hlen|Hlen].
  { rewrite !(keep_last_all N u Hlen). reflexivity. }
  pose proof (keep_last_suffix N u) as Hsplit.
  pose proof (keep_last_length N u ltac:(lia)) as Hs.
  set (p := take (Z.to_nat (Z.of_nat (length u) - N)) u) in *.
  set (s := keep_last N u) in *. clearbody p s.
  rewrite Hsplit in Hnd. apply NoDup_app in Hnd as (Hp & Hps & Hsn).
  rewrite Hsplit. unfold move_to_end.
  destruct (decide (c ∈ s)) as [Hin|Hnin].
  - assert (c ∉ p) by (intros Hc; exact (Hps c Hc Hin)).
    rewrite remove_first_app_r by assumption.
    pose proof (remove_first_length c s Hin) as Hl.
    rewrite <- app_assoc, (keep_last_app_ge N p); [reflexivity|].
    rewrite length_app. simpl. lia.
  - rewrite (remove_first_notin c s Hnin).
    destruct (decide (c ∈ p)) as [Hcp|Hcp].
    + rewrite remove_first_app_l by assumption.
      rewrite <- app_assoc, (keep_last_app_ge N (remove_first c p)); [reflexivity|].
      rewrite length_app. simpl. lia.
    + rewrite remove_first_app_r, (remove_first_notin c s Hnin) by assumption.
      rewrite <- app_assoc, (keep_last_app_ge N p); [reflexivity|].
      rewrite length_app. simpl. lia.
Qed.

Lemma ideal_add_NoDup u c : NoDup u -> NoDup (ideal_add u c).
Proof.
  intros H. destruct c as [[|a c]|]; simpl; auto using move_to_end_NoDup.
Qed.

Lemma keep_last_ideal_add N c (u : list string) :
  NoDup u ->
  keep_last N (ideal_add (keep_last N u) c) = keep_last N (ideal_add u c).
Proof.
  intros H. destruct c as [[|a c]|]; simpl;
    auto using keep_last_idemp, keep_last_move_to_end.
Qed.

(** What [add] and [get] compute, and that they return. *)
Lemma add_ignored this w :
  CommandLineHistory.add None this w = (w, Ok this)
  /\ CommandLineHistory.add (Some EmptyString) this w = (w, Ok this).
Proof. split; reflexivity. Qed.

Lemma save_dropped this w :
  exists w', try_catch (CommandLineHistory.save this) (fun _ => mret ()) w
             = (w', Ok ())
             /\ frame w w'.
Proof.
  pose proof (framed_save this w) as Hf. unfold try_catch.
  destruct (CommandLineHistory.save this w) as [w' [[]|e]]; simpl in Hf;
    eexists; split; try reflexivity; assumption.
Qed.

Lemma add_spec c this w :
  c <> EmptyString ->
  exists w',
    CommandLineHistory.add (Some c) this w
    = (w', Ok (CommandLineHistory.mk (CommandLineHistory._historyDir this)
                 (keep_last (history (configuration w))
                    (move_to_end c (CommandLineHistory._history this)))))
    /\ frame w w'.
Proof.
  intros Hc. unfold CommandLineHistory.add.
  destruct c as [|a c]; [congruence|].
  change (String.length (String a c) =? 0)%nat with false. cbv iota.
  rewrite indexOf_splice_remove_first.
  cbv [mbind M_bind get_world].
  rewrite resize_keep_last.
  match goal with
  | |- context [try_catch (CommandLineHistory.save ?t) _ w] =>
      destruct (save_dropped t w) as (w' & -> & Hf)
  end.
  exists w'. split; [reflexivity|assumption].
Qed.

Lemma get_spec this w :
  CommandLineHistory.get this w
  = (w, Ok (keep_last (history (configuration w)) (CommandLineHistory._history this),
            CommandLineHistory.mk (CommandLineHistory._historyDir this)
              (keep_last (history (configuration w))
                 (CommandLineHistory._history this)))).
Proof.
  unfold CommandLineHistory.get. cbv [mbind M_bind get_world].
  rewrite resize_keep_last. reflexivity.
Qed.

(** A sequence of additions keeps the store at the end of the uncapped
    history. *)
Lemma adds_spec commands : forall u this w,
  NoDup u ->
  CommandLineHistory._history this = keep_last (history (configuration w)) u ->
  exists w',
    CommandLineHistory.adds commands this w
    = (w', Ok (CommandLineHistory.mk (CommandLineHistory._historyDir this)
                 (keep_last (history (configuration w))
                    (fold_left ideal_add commands u))))
    /\ frame w w'.
Proof.
  induction commands as [|c commands IH]; intros u this w Hnd Hh; simpl.
  - exists w. split; [|apply frame_refl].
    destruct this as [d h]. simpl in *. rewrite Hh. reflexivity.
  - assert (Hadd : exists w1,
      CommandLineHistory.add c this w
      = (w1, Ok (CommandLineHistory.mk (CommandLineHistory._historyDir this)
                   (keep_last (history (configuration w)) (ideal_add u c))))
      /\ frame w w1).
    { destruct c as [[|a c]|].
      - exists w. split; [|apply frame_refl]. simpl.
        destruct this as [d h]. simpl in *. rewrite Hh. reflexivity.
      - destruct (add_spec (String a c) this w) as (w1 & Hw1 & Hf); [congruence|].
        exists w1. split; [|assumption]. rewrite Hw1, Hh. simpl ideal_add.
        rewrite keep_last_move_to_end by assumption. reflexivity.
      - exists w. split; [|apply frame_refl]. simpl.
        destruct this as [d h]. simpl in *. rewrite Hh. reflexivity. }
    destruct Hadd as (w1 & Hw1 & Hf1).
    unfold mbind, M_bind. rewrite Hw1.
    destruct (IH (ideal_add u c)
                (CommandLineHistory.mk (CommandLineHistory._historyDir this)
                   (keep_last (history (configuration w)) (ideal_add u c))) w1)
      as (w' & Hw' & Hf').
    + apply ideal_add_NoDup. assumption.
    + simpl. destruct Hf1 as [-> _]. reflexivity.
    + exists w'. split; [|eapply frame_trans; eassumption].
      rewrite Hw'. simpl. destruct Hf1 as [-> _]. reflexivity.
Qed.

End HistoryFacts.

(** C3.  [add] ignores an undefined or empty entry.  Adding any other entry
    removes its prior occurrence and appends it at the end, then keeps the
    last [N] entries, [N] being the configured cap: the truncation is from
    the front.  After any sequence of additions to an empty store, [get]
    returns the last [N] entries of the history that the same additions
    build without a cap, so that once more than [N] distinct entries were
    added it has [N] entries, the oldest dropped.  With a cap of at least
    two, [add("foo"); add("bar"); add("foo")] yields [["bar"; "foo"]]. *)
Theorem history_add_move_to_end_capped `{!Host}
    (commands : list (option string)) (dir : string) (w : World) :
  let N := history (configuration w) in
  (forall this,
     CommandLineHistory.add None this w = (w, Ok this)
     /\ CommandLineHistory.add (Some EmptyString) this w = (w, Ok this))
  /\ (forall this c, c <> EmptyString ->
      exists w',
        CommandLineHistory.add (Some c) this w
        = (w', Ok (CommandLineHistory.mk (CommandLineHistory._historyDir this)
                     (Spec.keep_last N
                        (Spec.move_to_end c (CommandLineHistory._history this))))))
  /\ (forall c l1 l2, c ∉ l1 ->
      Spec.move_to_end c (l1 ++ c :: l2) = (l1 ++ l2 ++ [c])%list)
  /\ (forall c l, c ∉ l -> Spec.move_to_end c l = (l ++ [c])%list)
  /\ (forall l,
      (exists oldest, l = (oldest ++ Spec.keep_last N l)%list)
      /\ ((0 <= N < Z.of_nat (length l))%Z ->
          Z.of_nat (length (Spec.keep_last N l)) = N))
  /\ (exists w' this',
      CommandLineHistory.adds commands (CommandLineHistory.mk dir []) w
      = (w', Ok this')
      /\ CommandLineHistory.get this' w'
         = (w', Ok (Spec.keep_last N (Spec.ideal_history commands), this')))
  /\ ((2 <= N)%Z ->
      exists w' this',
        CommandLineHistory.adds [Some "foo"; Some "bar"; Some "foo"]
          (CommandLineHistory.mk dir []) w
        = (w', Ok this')
        /\ CommandLineHistory.get this' w' = (w', Ok (["bar"; "foo"], this'))).
Proof.
  intros N.
  assert (Hseq : forall cs, exists w' this',
    CommandLineHistory.adds cs (CommandLineHistory.mk dir []) w = (w', Ok this')
    /\ CommandLineHistory.get this' w'
       = (w', Ok (Spec.keep_last N (Spec.ideal_history cs), this'))).
  { intros cs.
    destruct (adds_spec cs [] (CommandLineHistory.mk dir []) w) as (w' & Hw' & Hf).
    - constructor.
    - simpl. unfold Spec.keep_last. rewrite drop_nil. reflexivity.
    - eexists _, _. split; [exact Hw'|].
      rewrite get_spec. simpl. destruct Hf as [-> _].
      fold N. rewrite keep_last_idemp. reflexivity. }
  split; [intros this; apply add_ignored|].
  split.
  { intros this c Hc. destruct (add_spec c this w Hc) as (w' & Hw' & _).
    exists w'. exact Hw'. }
  split; [intros; apply move_to_end_present; assumption|].
  split; [intros; apply move_to_end_absent; assumption|].
  split.
  { intros l. split.
    - eexists. apply keep_last_suffix.
    - intros HN. apply keep_last_length. lia. }
  split; [apply Hseq|].
  intros HN. destruct (Hseq [Some "foo"; Some "bar"; Some "foo"]) as (w' & this' & H1 & H2).
  exists w', this'. split; [exact H1|]. rewrite H2.
  rewrite keep_last_all; [reflexivity|]. simpl. lia.
Qed.

Lemma history_add_move_to_end_capped_witness :
  (2 <= history (configuration Examples.world0))%Z
  /\ exists w' this',
       CommandLineHistory.adds (H := Examples.host0)
         [Some "foo"; Some "bar"; Some "foo"]
         (CommandLineHistory.mk "dir" []) Examples.world0
       = (w', Ok this')
       /\ CommandLineHistory.get this' w' = (w', Ok (["bar"; "foo"], this')).
Proof.
  assert (Hcap : (2 <= history (configuration Examples.world0))%Z)
    by (simpl; lia).
  split; [exact Hcap|].
  exact (proj2 (proj2 (proj2 (proj2 (proj2 (proj2
           (@history_add_move_to_end_capped Examples.host0 [] "dir"
              Examples.world0)))))) Hcap).
Defined.

(** ** The command-line engine: proofs *)

Section RunFacts.
Context {host : Host}.
Variable parse : string -> result node.CommandLine.t.

Lemma Run_record_spec command this w :
  exists w1,
    CommandLine.Run_record command this w
    = (w1, Ok (CommandLine.mk
                 (CommandLineHistory.mk
                    (CommandLineHistory._historyDir (CommandLine._history this))
                    (Spec.keep_last (history (configuration w))
                       (Spec.ideal_add
                          (CommandLineHistory._history (CommandLine._history this))
                          (Some command))))
                 (Z.of_nat (length
                    (Spec.keep_last (history (configuration w))
                       (Spec.ideal_add
                          (CommandLineHistory._history (CommandLine._history this))
                          (Some command)))))))
    /\ Spec.frame w w1.
Proof.
  unfold CommandLine.Run_record. cbv [mbind M_bind].
  destruct command as [|a c].
  - destruct (add_ignored (CommandLine._history this) w) as [_ ->].
    rewrite get_spec. exists w. split; [reflexivity|apply frame_refl].
  - destruct (add_spec (String a c) (CommandLine._history this) w)
      as (w1 & -> & Hf); [congruence|].
    rewrite get_spec. exists w1. split; [|assumption].
    simpl. destruct Hf as [-> _]. rewrite keep_last_idemp. reflexivity.
Qed.

Lemma Run_unfold text this w :
  text <> EmptyString ->
  exists w1 this1,
    CommandLine.Run_record (CommandLine.strip_colon text) this w = (w1, Ok this1)
    /\ CommandLine.Run parse (Some text) this w
       = (let '(w2, r) :=
            try_catch (CommandLine.Run_try parse (CommandLine.strip_colon text))
              (CommandLine.Run_catch (CommandLine.strip_colon text)) w1 in
          (w2, this1, r)).
Proof.
  intros Ht. unfold CommandLine.Run.
  destruct text as [|a text]; [congruence|].
  change (String.length (String a text) =? 0)%nat with false. cbv iota.
  destruct (Run_record_spec (CommandLine.strip_colon (String a text)) this w)
    as (w1 & Hw1 & _).
  rewrite Hw1. eexists _, _. split; reflexivity.
Qed.

End RunFacts.

Lemma last_keep_last_snoc N (l : list string) c :
  (1 <= N)%Z -> last (Spec.keep_last N (l ++ [c])) = Some c.
Proof.
  intros HN. unfold Spec.keep_last. rewrite length_app. simpl.
  rewrite drop_app_le by lia. apply last_snoc.
Qed.

(** C6.  For a non-empty command text, Run strips one leading colon, if
    there is one, and passes the result to [add] of the history store,
    whatever the parser and the commands do afterwards: the history of the
    command line after Run is the one that [add] built from the initial
    history (resized by [get]), also when parsing or execution fails or
    Run throws.  So the stripped text, when it is not empty and the cap is
    at least one, is the newest entry of the history. *)
Theorem Run_records_history {host : Host}
    (parse : string -> result node.CommandLine.t)
    (text : string) (this : CommandLine.t) (w : World) :
  text <> EmptyString ->
  let command := CommandLine.strip_colon text in
  let N := history (configuration w) in
  (forall rest, text = String ":" rest -> command = rest)
  /\ ((forall rest, text <> String ":" rest) -> command = text)
  /\ exists w' this' r w1 h1,
       CommandLine.Run parse (Some text) this w = (w', this', r)
       /\ CommandLineHistory.add (Some command) (CommandLine._history this) w
          = (w1, Ok h1)
       /\ CommandLineHistory._history (CommandLine._history this')
          = Spec.keep_last N (CommandLineHistory._history h1)
       /\ CommandLineHistory._history (CommandLine._history this')
          = Spec.keep_last N
              (Spec.ideal_add
                 (CommandLineHistory._history (CommandLine._history this))
                 (Some command))
       /\ (command <> EmptyString -> (1 <= N)%Z ->
           last (CommandLineHistory._history (CommandLine._history this'))
           = Some command).
Proof.
  intros Ht command N.
  split; [intros rest ->; reflexivity|].
  split.
  { intros Hn. subst command. destruct text as [|a text]; [reflexivity|].
    unfold CommandLine.strip_colon.
    destruct (Ascii.eqb_spec a ":") as [->|Hne]; [destruct (Hn text eq_refl)|].
    destruct a as [[] [] [] [] [] [] [] []]; try reflexivity. congruence. }
  destruct (Run_unfold parse text this w Ht) as (w1 & this1 & Hrec & Hrun).
  destruct (Run_record_spec command this w) as (w1' & Hrec' & Hf).
  fold command in Hrec. rewrite Hrec' in Hrec. injection Hrec as -> <-.
  destruct (try_catch (CommandLine.Run_try parse command)
              (CommandLine.Run_catch command) w1) as [w2 r] eqn:Htry.
  fold command in Hrun. rewrite Htry in Hrun.
  assert (Hadd : exists wa ha,
    CommandLineHistory.add (Some command) (CommandLine._history this) w = (wa, Ok ha)
    /\ Spec.keep_last N (CommandLineHistory._history ha)
       = Spec.keep_last N
           (Spec.ideal_add (CommandLineHistory._history (CommandLine._history this))
              (Some command))).
  { destruct command as [|a c] eqn:Ec.
    - destruct (add_ignored (CommandLine._history this) w) as [_ Hi].
      eexists _, _. split; [exact Hi|reflexivity].
    - destruct (add_spec (String a c) (CommandLine._history this) w)
        as (wa & Hwa & _); [congruence|].
      eexists _, _. split; [exact Hwa|]. simpl. apply keep_last_idemp. }
  destruct Hadd as (wa & ha & Hadd & Hkeep).
  eexists w2, _, r, wa, ha. split; [exact Hrun|]. split; [exact Hadd|].
  simpl. split; [symmetry; exact Hkeep|]. split; [reflexivity|].
  intros Hc HN. destruct command as [|a c]; [congruence|].
  simpl. apply last_keep_last_snoc. exact HN.
Qed.

Lemma Run_records_history_witness :
  ":w!" <> EmptyString
  /\ exists w' this' r,
       CommandLine.Run (H := Examples.host0) Examples.parse_fail (Some ":w!")
         Examples.commandLine0 Examples.world0
       = (w', this', r)
       /\ CommandLineHistory._history (CommandLine._history this') = ["old"; "w!"].
Proof.
  assert (Hne : ":w!" <> EmptyString) by discriminate.
  split; [exact Hne|].
  destruct (@Run_records_history Examples.host0 Examples.parse_fail ":w!"
              Examples.commandLine0 Examples.world0 Hne)
    as (_ & _ & w' & this' & r & _ & _ & Hrun & _ & _ & Hh & _).
  exists w', this', r. split; [exact Hrun|exact Hh].
Defined.

(** The outcome of Run on a non-empty command text, whatever the parser
    and the commands do: when the [try] block of Run (parsing, then
    delegation or local execution) returns, Run returns; when it throws
    anything but an E492 error with delegation enabled, Run returns and a
    message about the failure was shown, in the status bar or as an error
    message; when it throws an E492 error and delegation is enabled, the
    outcome of Run is that of the bridge run on the command, whether or
    not the command is marked as eligible for delegation: what that run
    throws, Run throws. *)
Lemma Run_outcome {host : Host}
    (parse : string -> result node.CommandLine.t)
    (text : string) (this : CommandLine.t) (w : World) :
  text <> EmptyString ->
  let command := CommandLine.strip_colon text in
  exists w1 this1,
    CommandLine.Run_record command this w = (w1, Ok this1)
    /\ forall w2 r2,
         CommandLine.Run_try parse command w1 = (w2, r2) ->
         match r2 with
         | Ok _ => CommandLine.Run parse (Some text) this w = (w2, this1, Ok tt)
         | Throw e =>
             if Spec.is_E492 e && enableNeovim (configuration w2)
             then forall w3 r3,
                    Neovim.run command w2 = (w3, r3) ->
                    CommandLine.Run parse (Some text) this w = (w3, this1, r3)
             else exists w3,
                    CommandLine.Run parse (Some text) this w = (w3, this1, Ok tt)
                    /\ Spec.shown e command w2 w3
         end.
Proof.
  intros Ht command.
  destruct (Run_unfold parse text this w Ht) as (w1 & this1 & Hrec & Hrun).
  exists w1, this1. split; [exact Hrec|].
  intros w2 r2 Htry. fold command in Hrun.
  unfold try_catch in Hrun. rewrite Htry in Hrun.
  destruct r2 as [[]|e]; [exact Hrun|].
  unfold CommandLine.Run_catch in Hrun.
  destruct e as [m|m|m|c|code t]; simpl Spec.is_E492; cbv iota;
    try (eexists; split; [exact Hrun|]; right; split; reflexivity).
  cbv [mbind M_bind get_world] in Hrun.
  destruct ((code =? E492)%N && enableNeovim (configuration w2)).
  - intros w3 r3 Hnv. rewrite Hnv in Hrun. exact Hrun.
  - eexists; split; [exact Hrun|]. left; split; reflexivity.
Qed.

(** The retry at work: a command whose execution finds the syntax
    unsupported is run by the bridge, though it is not marked as eligible. *)
Lemma Run_outcome_retry :
  exists w3 this1 n,
    CommandLine.Run (H := Examples.host0) Examples.parse_unsupported
      (Some "foo") Examples.commandLine0 Examples.world_nvim
    = (w3, this1, Ok tt)
    /\ nvim w3 = Some n
    /\ Examples.inputs (calls n) = [":foo" ++ String "010" EmptyString].
Proof.
  assert (Hne : "foo" <> EmptyString) by discriminate.
  destruct (@Run_outcome Examples.host0 Examples.parse_unsupported
              "foo" Examples.commandLine0 Examples.world_nvim Hne)
    as (w1 & this1 & Hrec & Hrun).
  vm_compute in Hrec. injection Hrec as <- <-.
  pose proof (Hrun _ _ (surjective_pairing _)) as Hdelegated.
  vm_compute in Hdelegated.
  eexists _, _, _. split; [exact (Hdelegated _ _ eq_refl)|].
  split; reflexivity.
Qed.

(** C1.  Run does not catch every failure.  With the delegation enabled
    and a session whose process is dead, so that every call to it fails
    with [channel closed]: on a text that the parser rejects as
    unsupported syntax (E492), Run retries the command through the bridge
    from its [catch] clause, and the failure of the retry is thrown by Run
    to its caller with nothing shown to the user; the same failure of the
    bridge inside the [try] block, on a command that is marked as eligible
    for delegation, is caught: Run returns and the failure is shown as an
    error message. *)
Theorem Run_rethrows_retry_failure :
  let w := set_nvim (Some (mkNvim Examples.process_dead [])) Examples.world_nvim in
  enableNeovim (configuration w) = true
  /\ Examples.parse_E492 "foo" = Throw (VimError E492 "E492: Not an editor command")
  /\ (exists w' this',
        CommandLine.Run (H := Examples.host0) Examples.parse_E492 (Some "foo")
          Examples.commandLine0 w
        = (w', this', Throw (Error "channel closed"))
        /\ statusBar w' = statusBar w
        /\ messages w' = messages w)
  /\ (exists w' this',
        CommandLine.Run (H := Examples.host0) Examples.parse_capable_1 (Some "foo")
          Examples.commandLine0 w
        = (w', this', Ok tt)
        /\ statusBar w' = statusBar w
        /\ messages w' = (messages w ++ ["Error: channel closed"])%list).
Proof.
  intros w. split; [reflexivity|]. split; [reflexivity|]. split.
  - eexists _, _. split; [vm_compute; reflexivity|]. split; reflexivity.
  - eexists _, _. split; [vm_compute; reflexivity|]. split; reflexivity.
Qed.

(** ** Loading the history: proofs *)

Section LoadFacts.
Context {host : Host}.

Lemma framed_loadFromFile this : Spec.framed (CommandLineHistory._loadFromFile this).
Proof.
  unfold CommandLineHistory._loadFromFile.
  apply framed_bind.
  - apply framed_try_catch.
    + apply framed_bind; [apply framed_get_world|intros w0].
      apply framed_bind; [apply framed_lift|intros d; apply framed_ret].
    + intros err. destruct (match exn_code err with Some c => _ | None => _ end);
        (apply framed_bind; [apply framed_log|intros; apply framed_ret]).
  - intros [data|]; [|apply framed_ret].
    destruct (String.length data =? 0)%nat; [apply framed_ret|].
    apply framed_try_catch.
    + apply framed_bind; [apply framed_lift|].
      intros [|l]; [apply framed_throw|apply framed_ret].
    + intros e. apply framed_bind; [apply framed_log|intros _].
      apply framed_bind; [apply framed_clear|intros _; apply framed_ret].
Qed.

(** [clear] never throws. *)
Lemma clear_total this w :
  exists w', CommandLineHistory.clear this w = (w', Ok tt)
             /\ (forall f, unlinkSync (fs w) = Ok f -> w' = set_fs f w)
             /\ (forall e, unlinkSync (fs w) = Throw e -> fs w' = fs w).
Proof.
  unfold CommandLineHistory.clear.
  cbv [try_catch mbind M_bind get_world lift modify].
  destruct (unlinkSync (fs w)) as [f|e]; eexists; split; try reflexivity;
    split; intros ? [= <-]; reflexivity.
Qed.

(** The constructor never throws. *)
Lemma new_total dir w :
  exists w' this, CommandLineHistory.new dir w = (w', Ok this).
Proof.
  unfold CommandLineHistory.new, CommandLineHistory._loadFromFile.
  cbv [try_catch mbind M_bind get_world lift modify mret M_ret throw].
  destruct (readFileSync (fs w)) as [data|err].
  - destruct (String.length data =? 0)%nat; [eauto|].
    destruct (JSON_parse data) as [[|l]|e]; eauto.
    + match goal with
      | |- context [CommandLineHistory.clear ?t ?w1] =>
          destruct (clear_total t w1) as (w' & -> & _)
      end. eauto.
    + match goal with
      | |- context [CommandLineHistory.clear ?t ?w1] =>
          destruct (clear_total t w1) as (w' & -> & _)
      end. eauto.
  - destruct (match exn_code err with Some c => _ | None => _ end); eauto.
Qed.

(** A file that is not there. *)
Lemma new_missing dir w :
  file (fs w) = None ->
  CommandLineHistory.new dir w
  = (log debug "CommandLineHistory: History does not exist." w,
     Ok (CommandLineHistory.mk dir [])).
Proof.
  intros Hf. unfold CommandLineHistory.new, CommandLineHistory._loadFromFile.
  cbv [try_catch mbind M_bind get_world lift modify mret M_ret].
  unfold readFileSync. rewrite Hf. reflexivity.
Qed.

(** An empty file is left as it is. *)
Lemma new_empty_file dir w :
  file (fs w) = Some EmptyString -> read_error (fs w) = None ->
  CommandLineHistory.new dir w = (w, Ok (CommandLineHistory.mk dir [])).
Proof.
  intros Hf Hr. unfold CommandLineHistory.new, CommandLineHistory._loadFromFile.
  cbv [try_catch mbind M_bind get_world lift modify mret M_ret].
  unfold readFileSync. rewrite Hf, Hr. reflexivity.
Qed.

(** A file whose content is not an array of JSON. *)
Lemma new_corrupted dir w data :
  file (fs w) = Some data -> read_error (fs w) = None ->
  data <> EmptyString ->
  (JSON_parse data = Ok NotArray \/ exists e, JSON_parse data = Throw e) ->
  exists w',
    CommandLineHistory.new dir w = (w', Ok (CommandLineHistory.mk dir []))
    /\ (unlink_error (fs w) = None -> file (fs w') = None)
    /\ (unlink_error (fs w) <> None -> fs w' = fs w).
Proof.
  intros Hf Hr Hd Hp. unfold CommandLineHistory.new, CommandLineHistory._loadFromFile.
  cbv [try_catch mbind M_bind get_world lift modify mret M_ret throw].
  unfold readFileSync. rewrite Hf, Hr.
  destruct data as [|a data]; [congruence|].
  change (String.length (String a data) =? 0)%nat with false. cbv iota.
  assert (Hclear : forall w1, fs w1 = fs w ->
    exists w', CommandLineHistory.clear (CommandLineHistory.mk dir []) w1 = (w', Ok tt)
               /\ (unlink_error (fs w) = None -> file (fs w') = None)
               /\ (unlink_error (fs w) <> None -> fs w' = fs w)).
  { intros w1 Hw1.
    destruct (clear_total (CommandLineHistory.mk dir []) w1) as (w' & Hc & Hok & Hko).
    exists w'. split; [exact Hc|]. rewrite Hw1 in Hok, Hko.
    unfold unlinkSync in Hok, Hko. rewrite Hf in Hok, Hko.
    destruct (unlink_error (fs w)) as [e|].
    - split; [discriminate|]. intros _. exact (Hko e eq_refl).
    - split; [|congruence]. intros _. rewrite (Hok _ eq_refl). reflexivity. }
  destruct Hp as [Hp | [e Hp]]; rewrite Hp;
    match goal with
    | |- context [CommandLineHistory.clear _ ?w1] =>
        destruct (Hclear w1 eq_refl) as (w' & -> & H1 & H2)
    end; exists w'; auto.
Qed.

End LoadFacts.

Section LoadLog.
Context {host : Host}.

(** A file whose content is not an array of JSON, with what is logged. *)
Lemma new_corrupted_log dir w data :
  file (fs w) = Some data -> read_error (fs w) = None ->
  data <> EmptyString ->
  (JSON_parse data = Ok NotArray \/ exists e, JSON_parse data = Throw e) ->
  exists w' cause,
    CommandLineHistory.new dir w = (w', Ok (CommandLineHistory.mk dir []))
    /\ (JSON_parse data = Throw cause
        \/ (JSON_parse data = Ok NotArray /\ cause = Error "Expected JSON"))
    /\ match unlink_error (fs w) with
       | None =>
           file (fs w') = None
           /\ dir_exists (fs w') = dir_exists (fs w)
           /\ logger w'
              = (logger w
                 ++ [(error, ("CommandLineHistory: Deleting corrupted history file. err="
                             ++ exn_toString cause ++ ".")%string)])%list
       | Some e =>
           fs w' = fs w
           /\ logger w'
              = (logger w
                 ++ [(error, ("CommandLineHistory: Deleting corrupted history file. err="
                             ++ exn_toString cause ++ ".")%string);
                     (warn, ("CommandLineHistory: unable to delete "
                            ++ CommandLineHistory._historyFilePath
                                 (CommandLineHistory.mk dir [])
                            ++ ". err=" ++ exn_toString e ++ ".")%string)])%list
       end.
Proof.
  intros Hf Hr Hd Hp.
  destruct w as [c pl f lg sb ms v nv]. destruct f as [d fl me re we ue].
  simpl in Hf, Hr. subst fl re.
  destruct data as [|a data]; [congruence|].
  unfold CommandLineHistory.new, CommandLineHistory._loadFromFile,
    CommandLineHistory.clear.
  cbv [try_catch mbind M_bind get_world lift modify mret M_ret throw].
  unfold readFileSync, unlinkSync. simpl.
  destruct Hp as [Hp | [e Hp]]; rewrite Hp; destruct ue as [e'|];
    eexists _, _; (split; [reflexivity|]); (split; [eauto|]); simpl;
    rewrite <- ?app_assoc; auto.
Qed.

End LoadLog.

(** C7, as amended.  The constructor of the history store never throws.
    Over a directory whose history file is missing it yields an empty
    history and leaves the file system as it is.  A history file that is
    read and is empty is left in place: the history is empty and nothing
    changes, nothing is logged.  When the file is read, its content is
    not empty, and the content is unparsable JSON or parses to a value
    that is not an array, the store yields an empty history and logs the
    corruption as an error; it deletes the file, and nothing else of the
    file system, or, where the deletion fails, leaves the file system as
    it is and logs a warning that names the file and the failure. *)
Theorem history_load_tolerant {host : Host} (dir : string) (w : World) :
  (exists w' this, CommandLineHistory.new dir w = (w', Ok this))
  /\ (file (fs w) = None ->
      exists w',
        CommandLineHistory.new dir w = (w', Ok (CommandLineHistory.mk dir []))
        /\ fs w' = fs w)
  /\ (file (fs w) = Some EmptyString -> read_error (fs w) = None ->
      CommandLineHistory.new dir w = (w, Ok (CommandLineHistory.mk dir [])))
  /\ (forall data,
        file (fs w) = Some data -> read_error (fs w) = None ->
        data <> EmptyString ->
        (JSON_parse data = Ok NotArray \/ exists e, JSON_parse data = Throw e) ->
        exists w' cause,
          CommandLineHistory.new dir w = (w', Ok (CommandLineHistory.mk dir []))
          /\ (JSON_parse data = Throw cause
              \/ (JSON_parse data = Ok NotArray /\ cause = Error "Expected JSON"))
          /\ (unlink_error (fs w) = None -> file (fs w') = None)
          /\ (unlink_error (fs w) <> None -> fs w' = fs w)
          /\ match unlink_error (fs w) with
             | None =>
                 file (fs w') = None
                 /\ dir_exists (fs w') = dir_exists (fs w)
                 /\ logger w'
                    = (logger w
                       ++ [(error,
                            ("CommandLineHistory: Deleting corrupted history file. err="
                             ++ exn_toString cause ++ ".")%string)])%list
             | Some e =>
                 fs w' = fs w
                 /\ logger w'
                    = (logger w
                       ++ [(error,
                            ("CommandLineHistory: Deleting corrupted history file. err="
                             ++ exn_toString cause ++ ".")%string);
                           (warn,
                            ("CommandLineHistory: unable to delete "
                             ++ CommandLineHistory._historyFilePath
                                  (CommandLineHistory.mk dir [])
                             ++ ". err=" ++ exn_toString e ++ ".")%string)])%list
             end).
Proof.
  split; [apply new_total|]. split; [|split].
  - intros Hf. rewrite (new_missing dir w Hf). eexists. split; reflexivity.
  - apply new_empty_file.
  - intros data Hf Hr Hd Hp.
    destruct (new_corrupted_log dir w data Hf Hr Hd Hp) as (w' & cause & Hnew & Hc & Hlog).
    exists w', cause. split; [exact Hnew|]. split; [exact Hc|].
    split; [|split; [|exact Hlog]].
    + intros Hu. rewrite Hu in Hlog. apply Hlog.
    + intros Hu. destruct (unlink_error (fs w)); [apply Hlog|congruence].
Qed.

Lemma history_load_tolerant_witness :
  let w := set_fs (mkFS true (Some "{}") None None None None) Examples.world0 in
  let w2 :=
    set_fs (mkFS true (Some "{}") None None None (Some (SystemError "EPERM")))
      Examples.world0 in
  JSON_parse (Host := Examples.host0) "{}" = Ok NotArray
  /\ (exists w',
        CommandLineHistory.new (H := Examples.host0) "dir" w
        = (w', Ok (CommandLineHistory.mk "dir" []))
        /\ file (fs w') = None)
  /\ (exists w',
        CommandLineHistory.new (H := Examples.host0) "dir" w2
        = (w', Ok (CommandLineHistory.mk "dir" []))
        /\ file (fs w') = Some "{}"
        /\ last (logger w')
           = Some (warn,
                   "CommandLineHistory: unable to delete dir/.cmdline_history. err=Error: EPERM.")).
Proof.
  intros w w2. split; [reflexivity|]. split.
  - destruct (proj2 (proj2 (proj2 (@history_load_tolerant Examples.host0 "dir" w)))
                "{}" eq_refl eq_refl ltac:(discriminate) (or_introl eq_refl))
      as (w' & cause & Hnew & _ & Hdel & _).
    exists w'. split; [exact Hnew|exact (Hdel eq_refl)].
  - destruct (proj2 (proj2 (proj2 (@history_load_tolerant Examples.host0 "dir" w2)))
                "{}" eq_refl eq_refl ltac:(discriminate) (or_introl eq_refl))
      as (w' & cause & Hnew & _ & _ & Hkept & Hlog).
    exists w'. split; [exact Hnew|].
    split; [rewrite (Hkept ltac:(discriminate)); reflexivity|].
    destruct Hlog as (_ & ->). reflexivity.
Defined.

(** C7, as stated, fails on a history file that exists and is empty: the
    empty text is unparsable JSON, yet the store leaves the file in
    place. *)
Lemma history_load_empty_file_kept :
  let w := set_fs (mkFS true (Some EmptyString) None None None None) Examples.world0 in
  file (fs w) = Some EmptyString
  /\ JSON_parse (Host := Examples.host0) EmptyString
     = Throw (SyntaxError "Unexpected token")
  /\ exists w',
       CommandLineHistory.new (H := Examples.host0) "dir" w
       = (w', Ok (CommandLineHistory.mk "dir" []))
       /\ file (fs w') = Some EmptyString
       /\ file (fs w') <> None.
Proof.
  intros w. split; [reflexivity|]. split; [reflexivity|].
  exists w. split; [reflexivity|]. split; [reflexivity|discriminate].
Qed.

(** ** The bridge: proofs *)

Section NeovimFacts.
Local Open Scope list_scope.
Context {host : Host}.
Variable p : NvimProcess.
Hypothesis never_fails : forall cs r, fails p cs r = None.

Lemma request_ok r w cs :
  nvim w = Some (mkNvim p cs) ->
  Neovim.request r w
  = (set_nvim (Some (mkNvim p (cs ++ [r]))) w, Ok (mkNvim p (cs ++ [r]))).
Proof.
  intros Hn. unfold Neovim.request. rewrite Hn. simpl. rewrite never_fails.
  reflexivity.
Qed.

Lemma bind_request {B} r (k : Nvim -> M B) w cs :
  nvim w = Some (mkNvim p cs) ->
  (Neovim.request r ≫= k) w
  = k (mkNvim p (cs ++ [r])) (set_nvim (Some (mkNvim p (cs ++ [r]))) w).
Proof.
  intros Hn. unfold mbind, M_bind. rewrite (request_ok r w cs Hn). reflexivity.
Qed.

Lemma push_marks_ok marks : forall w cs,
  nvim w = Some (mkNvim p cs) ->
  Neovim.push_marks marks w
  = (set_nvim (Some (mkNvim p (cs ++ map Spec.mark_call marks))) w, Ok tt).
Proof.
  induction marks as [|m marks IH]; intros w cs Hn; simpl.
  - rewrite app_nil_r. destruct w; simpl in *; subst; reflexivity.
  - rewrite (bind_request _ _ w cs Hn). rewrite (IH _ (cs ++ [Spec.mark_call m])).
    + rewrite <- app_assoc. destruct w; reflexivity.
    + reflexivity.
Qed.

Lemma bind_get_world {B} (k : World -> M B) w : (get_world ≫= k) w = k w w.
Proof. reflexivity. Qed.

Lemma bind_modify {B} f (k : unit -> M B) w : (modify f ≫= k) w = k tt (f w).
Proof. reflexivity. Qed.

Lemma bind_ret {A B} (a : A) (k : A -> M B) w : (mret a ≫= k) w = k a w.
Proof. reflexivity. Qed.

Lemma bind_push_marks {B} marks (k : unit -> M B) w cs :
  nvim w = Some (mkNvim p cs) ->
  (Neovim.push_marks marks ≫= k) w
  = k tt (set_nvim (Some (mkNvim p (cs ++ map Spec.mark_call marks))) w).
Proof.
  intros Hn. unfold mbind, M_bind at 1. rewrite (push_marks_ok marks w cs Hn).
  reflexivity.
Qed.

Lemma bind_assoc {A B C} (m : M A) (f : A -> M B) (g : B -> M C) w :
  ((m ≫= f) ≫= g) w = (m ≫= (fun a => f a ≫= g)) w.
Proof. unfold mbind, M_bind. destruct (m w) as [w1 [a|e]]; reflexivity. Qed.

Ltac step :=
  first [ erewrite bind_request by reflexivity
        | erewrite bind_push_marks by reflexivity
        | rewrite bind_get_world
        | rewrite bind_modify
        | rewrite bind_ret ].

Lemma syncVSToVim_ok w cs :
  nvim w = Some (mkNvim p cs) ->
  Neovim.syncVSToVim w
  = (set_nvim
       (Some (mkNvim p
          (cs ++ Spec.sync_out_calls (configuration w)
                   (Spec.tabs_applied (configuration w) (vimState w)))))
       (set_vimState (Spec.tabs_applied (configuration w) (vimState w)) w),
     Ok tt).
Proof.
  intros Hn. destruct w as [c pl f lg sb ms v nv]. simpl in Hn. subst nv.
  unfold Neovim.syncVSToVim, Spec.tabs_applied, Neovim.vscode_executeCommand.
  step. step. simpl configuration.
  destruct (expandtab c); repeat step;
    unfold Spec.sync_out_calls; simpl; rewrite <- !app_assoc; reflexivity.
Qed.

Lemma bind_syncVSToVim {B} (k : unit -> M B) w cs :
  nvim w = Some (mkNvim p cs) ->
  (Neovim.syncVSToVim ≫= k) w
  = k tt (set_nvim
            (Some (mkNvim p
               (cs ++ Spec.sync_out_calls (configuration w)
                        (Spec.tabs_applied (configuration w) (vimState w)))))
            (set_vimState (Spec.tabs_applied (configuration w) (vimState w)) w)).
Proof.
  intros Hn. unfold mbind, M_bind at 1. rewrite (syncVSToVim_ok w cs Hn).
  reflexivity.
Qed.

Lemma syncVimToVs_ok w cs :
  nvim w = Some (mkNvim p cs) ->
  exists w' more,
    Neovim.syncVimToVs w = (w', Ok tt)
    /\ nvim w' = Some (mkNvim p (cs ++ more))
    /\ Examples.inputs more = []
    /\ statusBar w' = statusBar w /\ messages w' = messages w
    /\ configuration w' = configuration w.
Proof.
  intros Hn. destruct w as [c pl f lg sb ms v nv]. simpl in Hn. subst nv.
  unfold Neovim.syncVimToVs, Neovim.vscode_executeCommand.
  repeat step. simpl configuration.
  destruct (expandtab c); repeat step;
    (eexists _, _; split; [reflexivity|]; simpl; split;
     [rewrite <- !app_assoc; reflexivity|repeat split]).
Qed.
Lemma inputs_app (a b : list rpc) :
  Examples.inputs (a ++ b) = Examples.inputs a ++ Examples.inputs b.
Proof. unfold Examples.inputs. apply omap_app. Qed.

Lemma inputs_marks marks : Examples.inputs (map Spec.mark_call marks) = [].
Proof. induction marks; simpl; auto. Qed.

Lemma inputs_sync_out c v : Examples.inputs (Spec.sync_out_calls c v) = [].
Proof.
  unfold Spec.sync_out_calls. rewrite !inputs_app, inputs_marks. reflexivity.
Qed.

Lemma run_ok command w cs :
  nvim w = Some (mkNvim p cs) ->
  exists w' before more,
    Neovim.run command w = (w', Ok tt)
    /\ nvim w' = Some (mkNvim p (cs ++ more))
    /\ Examples.inputs before = []
    /\ Examples.inputs more
       = Spec.injected command
         :: (if mode_blocking p
                 (cs ++ before ++ [nvim_input (Spec.injected command); nvim_getMode])
             then ["<esc>"] else []).
Proof.
  intros Hn. unfold Neovim.run.
  erewrite bind_syncVSToVim by exact Hn.
  set (sync := Spec.sync_out_calls _ _).
  do 3 step. fold (Spec.injected command).
  simpl process; simpl calls. rewrite <- !app_assoc.
  assert (Hend : forall w1 cs1 statusBarText,
    nvim w1 = Some (mkNvim p cs1) ->
    exists w' more,
      (Neovim.syncVimToVs ≫= (fun _ => modify (StatusBar_SetText statusBarText))) w1
      = (w', Ok tt)
      /\ nvim w' = Some (mkNvim p (cs1 ++ more)) /\ Examples.inputs more = []).
  { intros w1 cs1 t Hw1.
    destruct (syncVimToVs_ok w1 cs1 Hw1) as (w' & more & Hs & Hn' & Hi & _).
    unfold mbind, M_bind at 1. rewrite Hs.
    eexists _, more. split; [reflexivity|]. split; [exact Hn'|exact Hi]. }
  assert (Hin : forall a b : list rpc,
    Examples.inputs a = [] -> Examples.inputs (a ++ b) = Examples.inputs b).
  { intros a b Ha. rewrite inputs_app, Ha. reflexivity. }
  pose proof (inputs_sync_out (configuration w)
                (Spec.tabs_applied (configuration w) (vimState w))) as Hsync.
  fold sync in Hsync. clearbody sync.
  destruct (mode_blocking p _) eqn:Hb; [rewrite bind_assoc|]; repeat step;
    (destruct (negb _);
     [rewrite bind_ret
     |rewrite bind_assoc; step; destruct (negb _); rewrite bind_ret]);
    match goal with
    | |- context [(Neovim.syncVimToVs
                    ≫= (fun _ => modify (StatusBar_SetText ?t))) ?W] =>
        destruct (Hend W _ t eq_refl) as (w' & more & -> & Hn' & Hi)
    end;
    exists w', (sync ++ [nvim_command Neovim.clear_messages]);
    eexists; (split; [reflexivity|]);
    (split; [rewrite Hn'; rewrite <- !app_assoc; reflexivity|]);
    (split; [rewrite inputs_app, Hsync; reflexivity|]);
    rewrite <- !app_assoc; simpl app in Hb |- *; rewrite Hb;
    rewrite (Hin sync) by exact Hsync; simpl; rewrite ?Hin by reflexivity;
    rewrite ?Hi; reflexivity.
Qed.
End NeovimFacts.

Lemma tabs_applied_cursor {host : Host} c v :
  cursorPosition (Spec.tabs_applied c v) = cursorPosition v
  /\ cursorStartPosition (Spec.tabs_applied c v) = cursorStartPosition v.
Proof. unfold Spec.tabs_applied. destruct (expandtab c); split; reflexivity. Qed.

(** C9.  During the sync-out to a process that answers, the mark ['<] is
    set with the line of the earlier of the cursor and the start of the
    cursor, plus one, and the mark ['>] with the line of the later of the
    two, plus one; the column of both marks is the column of the later
    one. *)
Theorem syncVSToVim_visual_marks {host : Host}
    (w : World) (p : NvimProcess) (cs : list rpc) :
  nvim w = Some (mkNvim p cs) ->
  (forall cs r, fails p cs r = None) ->
  let rangeStart :=
    Neovim.EarlierOf (cursorPosition (vimState w)) (cursorStartPosition (vimState w)) in
  let rangeEnd :=
    Neovim.LaterOf (cursorPosition (vimState w)) (cursorStartPosition (vimState w)) in
  exists w' before after,
    Neovim.syncVSToVim w = (w', Ok tt)
    /\ nvim w'
       = Some (mkNvim p
           (cs ++ before
            ++ [nvim_callFunction "setpos"
                  [AScalar (VStr "'<");
                   AList [VNum (JS.Int 0);
                          VNum (JS.add (line rangeStart) (JS.Int 1));
                          VNum (character rangeEnd); VBool false]];
                nvim_callFunction "setpos"
                  [AScalar (VStr "'>");
                   AList [VNum (JS.Int 0);
                          VNum (JS.add (line rangeEnd) (JS.Int 1));
                          VNum (character rangeEnd); VBool false]]]
            ++ after)%list).
Proof.
  intros Hn Hp rangeStart rangeEnd.
  rewrite (syncVSToVim_ok p Hp w cs Hn).
  destruct (tabs_applied_cursor (configuration w) (vimState w)) as [Hc Hs].
  set (sync := Spec.sync_out_calls (configuration w)
                 (Spec.tabs_applied (configuration w) (vimState w))).
  exists (set_nvim (Some (mkNvim p (cs ++ sync)))
            (set_vimState (Spec.tabs_applied (configuration w) (vimState w)) w)),
    (take 4 sync), (drop 6 sync).
  split; [reflexivity|].
  subst sync. unfold Spec.sync_out_calls. rewrite Hc, Hs. reflexivity.
Qed.

Lemma syncVSToVim_visual_marks_witness :
  exists w' n,
    Neovim.syncVSToVim (H := Examples.host0) Examples.world_visual = (w', Ok tt)
    /\ nvim w' = Some n
    /\ Neovim.setpos "'<" (JS.Int 1) (JS.Int 7) ∈ calls n
    /\ Neovim.setpos "'>" (JS.Int 3) (JS.Int 7) ∈ calls n
    /\ cursorPosition (vimState Examples.world_visual) = Examples.at_ 0 3.
Proof.
  destruct (@syncVSToVim_visual_marks Examples.host0 Examples.world_visual
              Examples.process0 [] eq_refl (fun _ _ => eq_refl))
    as (w' & before & after & Hsync & Hn).
  eexists w', _. split; [exact Hsync|]. split; [exact Hn|].
  cbn [calls app]. split; [|split; [|reflexivity]].
  - apply elem_of_app. right. apply list_elem_of_here.
  - apply elem_of_app. right. apply list_elem_of_further, list_elem_of_here.
Defined.

(** C8.  At the command text [a<b<c], the input that [run] injects into a
    process that answers is the command line between a colon and a line
    feed with the first less-than sign alone replaced by [<lt>]: the second
    one is injected as it is, where escaping every occurrence gives
    another text. *)
Theorem run_escapes_only_first_lt :
  exists w' n,
    Neovim.run (H := Examples.host0) "a<b<c" Examples.world_nvim = (w', Ok tt)
    /\ nvim w' = Some n
    /\ Examples.inputs (calls n) = [":a<lt>b<c" ++ String "010" EmptyString]
    /\ Spec.escape_all_lt (":a<b<c" ++ String "010" EmptyString)
       = ":a<lt>b<lt>c" ++ String "010" EmptyString.
Proof.
  eexists _, _. split; [vm_compute; reflexivity|].
  split; [reflexivity|]. split; reflexivity.
Qed.

Lemma escape_all_lt_length (s : string) :
  (String.length s <= String.length (Spec.escape_all_lt s))%nat.
Proof.
  induction s as [|c s IH]; [reflexivity|].
  cbn [Spec.escape_all_lt]. destruct (Ascii.eqb c "<").
  - change (String.length ("<lt>" ++ Spec.escape_all_lt s))
      with (4 + String.length (Spec.escape_all_lt s))%nat.
    change (String.length (String c s)) with (1 + String.length s)%nat. lia.
  - change (String.length (String c (Spec.escape_all_lt s)))
      with (1 + String.length (Spec.escape_all_lt s))%nat.
    change (String.length (String c s)) with (1 + String.length s)%nat. lia.
Qed.

(** Where the command line holds one less-than sign at most, replacing the
    first occurrence replaces them all. *)
Lemma replace_first_single_lt (s t : string) :
  Spec.escape_all_lt s = s -> Spec.escape_all_lt t = t ->
  JS.replace "<" "<lt>" (s ++ String "<" t) = Spec.escape_all_lt (s ++ String "<" t).
Proof.
  intros Hs Ht. induction s as [|c s IH].
  - simpl. rewrite Ht. destruct t; reflexivity.
  - cbn [Spec.escape_all_lt] in Hs.
    change (String c s ++ String "<" t) with (String c (s ++ String "<" t)).
    cbn [Spec.escape_all_lt].
    destruct (Ascii.eqb_spec c "<") as [->|Hc].
    + exfalso. apply (f_equal String.length) in Hs.
      change (String.length ("<lt>" ++ Spec.escape_all_lt s))
        with (4 + String.length (Spec.escape_all_lt s))%nat in Hs.
      change (String.length (String "<" s)) with (1 + String.length s)%nat in Hs.
      pose proof (escape_all_lt_length s). lia.
    + injection Hs as Hs. rewrite <- (IH Hs).
      assert (Hp : String.prefix "<" (String c (s ++ String "<" t)) = false).
      { cbn -[Ascii.ascii_dec].
        destruct (Ascii.ascii_dec "<" c) as [E|E]; [congruence|reflexivity]. }
      change (JS.replace "<" "<lt>" (String c (s ++ String "<" t)))
        with (if String.prefix "<" (String c (s ++ String "<" t))
              then "<lt>" ++ JS.string_slice 1 (String c (s ++ String "<" t))
              else String c (JS.replace "<" "<lt>" (s ++ String "<" t))).
      rewrite Hp. reflexivity.
Qed.

(** ** The engine on concrete inputs *)

(** A history capped at two entries drops the oldest one. *)
Example history_cap_two :
  exists w' this,
    CommandLineHistory.adds (H := Examples.host0)
      [Some "a"; Some "b"; None; Some "c"; Some "b"]
      (CommandLineHistory.mk "dir" [])
      (mkWorld (mkConfiguration false 2 false false) "linux" Examples.fs0
         [] [] [] Examples.vimState0 None)
    = (w', Ok this)
    /\ CommandLineHistory._history this = ["c"; "b"]
    /\ file (fs w') = Some (Examples.quoted_list ["c"; "b"]).
Proof. eexists _, _. split; [vm_compute; reflexivity|]. split; reflexivity. Qed.

(** A parse failure ends in an error message, and the text is in the
    history. *)
Example Run_parse_failure :
  exists w' this',
    CommandLine.Run (H := Examples.host0) Examples.parse_fail (Some ":nonsense")
      Examples.commandLine0 Examples.world0
    = (w', this', Ok tt)
    /\ messages w' = ["Error: not a Vim command"]
    /\ CommandLineHistory._history (CommandLine._history this') = ["old"; "nonsense"].
Proof. eexists _, _. split; [vm_compute; reflexivity|]. split; reflexivity. Qed.

(** Unsupported syntax without delegation ends in the status bar. *)
Example Run_unsupported_no_delegation :
  exists w' this',
    CommandLine.Run (H := Examples.host0) Examples.parse_E492 (Some "foo")
      Examples.commandLine0 Examples.world0
    = (w', this', Ok tt)
    /\ statusBar w' = ["E492: Not an editor command. foo"].
Proof. eexists _, _. split; [vm_compute; reflexivity|]. reflexivity. Qed.

(** The retry by the bridge runs in the [catch] clause: what it throws,
    here for want of a session, is thrown by Run. *)
Example Run_retry_failure :
  exists w' this' e,
    CommandLine.Run (H := Examples.host0) Examples.parse_E492 (Some "foo")
      Examples.commandLine0
      (set_nvim None Examples.world_nvim)
    = (w', this', Throw e).
Proof. eexists _, _, _. vm_compute. reflexivity. Qed.

(** A range that is a separator alone is not empty and has no token to
    resolve. *)
Example bare_separator :
  exists e,
    node.CommandLine.execute (editor Examples.vimState0)
      (node.CommandLine.mk
         (LineRange.mk [] (Some (token.mkToken token.Comma ",")) []) None)
      Examples.world0
    = (Examples.world0, Throw (TypeError e)).
Proof. eexists. reflexivity. Qed.

(** ** The history store: further properties *)

Section HistoryMore.
Context {host : Host}.
Local Open Scope list_scope.

Lemma keep_last_NoDup N (l : list string) : NoDup l -> NoDup (Spec.keep_last N l).
Proof.
  intros Hl. unfold Spec.keep_last.
  eapply sublist_NoDup; [exact Hl|apply sublist_drop].
Qed.

Lemma keep_last_bound N (l : list string) :
  (0 <= N)%Z -> (Z.of_nat (length (Spec.keep_last N l)) <= N)%Z.
Proof. intros HN. unfold Spec.keep_last. rewrite length_drop. lia. Qed.

(** What [save] does to the file system. *)
Lemma save_written this w :
  (dir_exists (fs w) = true \/ mkdir_error (fs w) = None) ->
  write_error (fs w) = None ->
  CommandLineHistory.save this w
  = (set_fs (mkFS true
               (Some (JSON_stringify (CommandLineHistory._history this)))
               (mkdir_error (fs w)) (read_error (fs w)) None
               (unlink_error (fs w))) w,
     Ok tt).
Proof.
  intros Hdir Hw. unfold CommandLineHistory.save.
  cbv [try_catch mbind M_bind get_world lift modify mret M_ret throw].
  destruct w as [c pl f lg sb ms v nv]. destruct f as [d fl me re we ue].
  simpl in *. subst we.
  destruct d; simpl.
  - reflexivity.
  - destruct Hdir as [Hd|Hm]; [discriminate|]. subst me. reflexivity.
Qed.


Lemma save_write_failed this w e :
  dir_exists (fs w) = true -> write_error (fs w) = Some e ->
  exists w',
    CommandLineHistory.save this w = (w', Throw e)
    /\ fs w' = fs w
    /\ length (logger w') = (length (logger w) + 1)%nat.
Proof.
  intros Hd Hm. unfold CommandLineHistory.save.
  cbv [try_catch mbind M_bind get_world lift modify mret M_ret throw].
  destruct w as [c pl f lg sb ms v nv]. destruct f as [d fl me re we ue].
  simpl in *. subst d we. simpl.
  eexists. split; [reflexivity|]. split; [reflexivity|].
  simpl. rewrite !length_app. simpl. lia.
Qed.

(** [add], whatever the entry. *)
Lemma add_general c this w :
  exists w',
    CommandLineHistory.add c this w
    = (w', Ok (CommandLineHistory.mk (CommandLineHistory._historyDir this)
                 (match c with
                  | None | Some EmptyString => CommandLineHistory._history this
                  | Some c =>
                      Spec.keep_last (history (configuration w))
                        (Spec.move_to_end c (CommandLineHistory._history this))
                  end)))
    /\ Spec.frame w w'.
Proof.
  destruct c as [[|a c]|].
  - exists w. split; [destruct this; reflexivity|apply frame_refl].
  - destruct (add_spec (String a c) this w) as (w' & Hw' & Hf); [congruence|].
    exists w'. split; assumption.
  - exists w. split; [destruct this; reflexivity|apply frame_refl].
Qed.

(** The world after an [add] that is not ignored: the file system is that
    after [save]. *)
Lemma add_saves c this w :
  c <> EmptyString ->
  let this' :=
    CommandLineHistory.mk (CommandLineHistory._historyDir this)
      (Spec.keep_last (history (configuration w))
         (Spec.move_to_end c (CommandLineHistory._history this))) in
  CommandLineHistory.add (Some c) this w
  = ((CommandLineHistory.save this' w).1, Ok this').
Proof.
  intros Hc this'. unfold CommandLineHistory.add.
  destruct c as [|a c]; [congruence|].
  change (String.length (String a c) =? 0)%nat with false. cbv iota.
  rewrite indexOf_splice_remove_first.
  cbv [mbind M_bind get_world try_catch].
  rewrite resize_keep_last. fold (Spec.move_to_end (String a c) (CommandLineHistory._history this)).
  fold this'.
  destruct (CommandLineHistory.save this' w) as [w' [[]|e]]; reflexivity.
Qed.

End HistoryMore.

(** X1.  [add] keeps a history without duplicates without duplicates, and
    the entries that [get] then returns are free of duplicates and, for a
    cap that is not negative, at most as many as the cap. *)
Theorem history_add_distinct_capped {host : Host}
    (c : option string) (this : CommandLineHistory.t) (w : World) :
  NoDup (CommandLineHistory._history this) ->
  exists w' this' entries this'',
    CommandLineHistory.add c this w = (w', Ok this')
    /\ NoDup (CommandLineHistory._history this')
    /\ CommandLineHistory.get this' w' = (w', Ok (entries, this''))
    /\ NoDup entries
    /\ ((0 <= history (configuration w))%Z ->
        (Z.of_nat (length entries) <= history (configuration w))%Z).
Proof.
  intros Hnd. destruct (add_general c this w) as (w' & Hadd & Hf).
  assert (Hnd' : NoDup (match c with
                  | None | Some EmptyString => CommandLineHistory._history this
                  | Some c =>
                      Spec.keep_last (history (configuration w))
                        (Spec.move_to_end c (CommandLineHistory._history this))
                  end)).
  { destruct c as [[|a c]|]; auto using keep_last_NoDup, move_to_end_NoDup. }
  eexists w', _, _, _. split; [exact Hadd|]. split; [exact Hnd'|].
  rewrite get_spec. simpl. split; [reflexivity|].
  destruct Hf as [-> _]. split; [apply keep_last_NoDup; exact Hnd'|].
  apply keep_last_bound.
Qed.

Lemma history_add_distinct_capped_witness :
  NoDup ["a"; "b"; "c"]
  /\ exists w' this' entries this'',
       CommandLineHistory.add (H := Examples.host0) (Some "b")
         (CommandLineHistory.mk "dir" ["a"; "b"; "c"])
         (mkWorld (mkConfiguration false 2 false false) "linux" Examples.fs0
            [] [] [] Examples.vimState0 None)
       = (w', Ok this')
       /\ CommandLineHistory.get this' w' = (w', Ok (entries, this''))
       /\ NoDup entries
       /\ (Z.of_nat (length entries) <= 2)%Z.
Proof.
  assert (Hnd : NoDup ["a"; "b"; "c"]).
  { repeat (constructor; [rewrite ?elem_of_cons, elem_of_nil; intuition discriminate|]).
    constructor. }
  split; [exact Hnd|].
  destruct (@history_add_distinct_capped Examples.host0 (Some "b")
              (CommandLineHistory.mk "dir" ["a"; "b"; "c"])
              (mkWorld (mkConfiguration false 2 false false) "linux" Examples.fs0
                 [] [] [] Examples.vimState0 None) Hnd)
    as (w' & this' & entries & this'' & Hadd & _ & Hget & Hnd' & Hlen).
  exists w', this', entries, this''.
  split; [exact Hadd|]. split; [exact Hget|]. split; [exact Hnd'|].
  apply Hlen. simpl. lia.
Defined.

(** X2.  The store that [add] returns does not depend on the file system:
    with any other state of the history directory and file, failing or
    not, [add] returns, and returns the same store. *)
Theorem history_add_ignores_file_system {host : Host}
    (c : option string) (this : CommandLineHistory.t) (w : World) (f : FS) :
  exists w1 w2 this',
    CommandLineHistory.add c this w = (w1, Ok this')
    /\ CommandLineHistory.add c this (set_fs f w) = (w2, Ok this')
    /\ vimState w1 = vimState w /\ vimState w2 = vimState w
    /\ statusBar w1 = statusBar w /\ statusBar w2 = statusBar w
    /\ messages w1 = messages w /\ messages w2 = messages w.
Proof.
  destruct (add_general c this w) as (w1 & H1 & Hf1).
  destruct (add_general c this (set_fs f w)) as (w2 & H2 & Hf2).
  exists w1, w2. eexists. split; [exact H1|]. split; [exact H2|].
  destruct Hf1 as (_ & _ & ? & ? & ? & _), Hf2 as (_ & _ & ? & ? & ? & _).
  simpl in *. auto 10.
Qed.




Section LoadMore.
Context {host : Host}.

(** A file that holds an array. *)
Lemma new_array dir w data l :
  file (fs w) = Some data -> read_error (fs w) = None ->
  data <> EmptyString -> JSON_parse data = Ok (IsArray l) ->
  CommandLineHistory.new dir w = (w, Ok (CommandLineHistory.mk dir l)).
Proof.
  intros Hf Hr Hd Hp. unfold CommandLineHistory.new, CommandLineHistory._loadFromFile.
  cbv [try_catch mbind M_bind get_world lift modify mret M_ret throw].
  unfold readFileSync. rewrite Hf, Hr.
  destruct data as [|a data]; [congruence|].
  change (String.length (String a data) =? 0)%nat with false. cbv iota.
  rewrite Hp. reflexivity.
Qed.

(** A file that cannot be read, for another reason than its absence. *)
Lemma new_unreadable dir w data e :
  file (fs w) = Some data -> read_error (fs w) = Some e ->
  exists w',
    CommandLineHistory.new dir w = (w', Ok (CommandLineHistory.mk dir []))
    /\ fs w' = fs w.
Proof.
  intros Hf Hr. unfold CommandLineHistory.new, CommandLineHistory._loadFromFile.
  cbv [try_catch mbind M_bind get_world lift modify mret M_ret throw].
  unfold readFileSync. rewrite Hf, Hr.
  destruct (match exn_code e with Some c => _ | None => _ end);
    eexists; split; reflexivity.
Qed.

End LoadMore.

(** X4.  What [add] saves, the constructor loads: when the file system
    works and [JSON.parse] reads back what [JSON.stringify] wrote, a store
    constructed over the same directory after an [add] is the store that
    [add] returned. *)
Theorem history_add_then_load {host : Host}
    (c : string) (this : CommandLineHistory.t) (w : World) :
  let h' := Spec.keep_last (history (configuration w))
              (Spec.move_to_end c (CommandLineHistory._history this)) in
  c <> EmptyString ->
  (dir_exists (fs w) = true \/ mkdir_error (fs w) = None) ->
  write_error (fs w) = None -> read_error (fs w) = None ->
  JSON_parse (JSON_stringify h') = Ok (IsArray h') ->
  JSON_stringify h' <> EmptyString ->
  exists w' this',
    CommandLineHistory.add (Some c) this w = (w', Ok this')
    /\ CommandLineHistory._history this' = h'
    /\ CommandLineHistory.new (CommandLineHistory._historyDir this) w'
       = (w', Ok this').
Proof.
  intros h' Hc Hd Hw Hr Hp Hne.
  rewrite (add_saves c this w Hc). fold h'.
  rewrite save_written by assumption. simpl.
  eexists _, _. split; [reflexivity|]. split; [reflexivity|].
  eapply new_array; simpl; eauto.
Qed.

Lemma history_add_then_load_witness :
  exists w' this',
    CommandLineHistory.add (H := Examples.host_json) (Some "three")
      (CommandLineHistory.mk "dir" ["one"; "two"]) Examples.world0
    = (w', Ok this')
    /\ CommandLineHistory._history this' = ["one"; "two"; "three"]
    /\ CommandLineHistory.new (H := Examples.host_json) "dir" w' = (w', Ok this').
Proof.
  exact (@history_add_then_load Examples.host_json "three"
           (CommandLineHistory.mk "dir" ["one"; "two"]) Examples.world0
           ltac:(discriminate) (or_intror eq_refl) eq_refl eq_refl eq_refl
           ltac:(discriminate)).
Defined.

(** X5.  [clear] deletes the history file and nothing else: the entries in
    memory are still returned by [get], and the next [add] writes them
    back to the file together with the new entry. *)
Theorem history_clear_then_add {host : Host}
    (c data : string) (this : CommandLineHistory.t) (w : World) :
  file (fs w) = Some data -> unlink_error (fs w) = None ->
  dir_exists (fs w) = true -> write_error (fs w) = None ->
  c <> EmptyString ->
  exists w1 w2 this',
    CommandLineHistory.clear this w = (w1, Ok tt)
    /\ file (fs w1) = None
    /\ CommandLineHistory.get this w1
       = (w1, Ok (Spec.keep_last (history (configuration w))
                    (CommandLineHistory._history this),
                  CommandLineHistory.mk (CommandLineHistory._historyDir this)
                    (Spec.keep_last (history (configuration w))
                       (CommandLineHistory._history this))))
    /\ CommandLineHistory.add (Some c) this w1 = (w2, Ok this')
    /\ file (fs w2)
       = Some (JSON_stringify
                 (Spec.keep_last (history (configuration w))
                    (Spec.move_to_end c (CommandLineHistory._history this)))).
Proof.
  intros Hf Hu Hd Hw Hc.
  destruct (clear_total this w) as (w1 & Hclear & Hok & _).
  assert (Hw1 : w1 = set_fs (mkFS (dir_exists (fs w)) None (mkdir_error (fs w))
                  (read_error (fs w)) (write_error (fs w)) (unlink_error (fs w))) w).
  { apply Hok. unfold unlinkSync. rewrite Hf, Hu. reflexivity. }
  subst w1. eexists _, _, _. split; [exact Hclear|]. split; [reflexivity|].
  split; [rewrite get_spec; reflexivity|].
  rewrite (add_saves c this _ Hc).
  rewrite save_written; simpl; auto.
Qed.

Lemma history_clear_then_add_witness :
  exists w1 w2 this',
    CommandLineHistory.clear
      (CommandLineHistory.mk "dir" ["one"; "two"]) Examples.world_saved
    = (w1, Ok tt)
    /\ file (fs w1) = None
    /\ CommandLineHistory.add (H := Examples.host0) (Some "three")
         (CommandLineHistory.mk "dir" ["one"; "two"]) w1
       = (w2, Ok this')
    /\ file (fs w2) = Some (Examples.quoted_list ["one"; "two"; "three"]).
Proof.
  destruct (@history_clear_then_add Examples.host0 "three"
              (Examples.quoted_list ["one"; "two"])
              (CommandLineHistory.mk "dir" ["one"; "two"]) Examples.world_saved
              eq_refl eq_refl eq_refl eq_refl ltac:(discriminate))
    as (w1 & w2 & this' & H1 & H2 & _ & H3 & H4).
  exists w1, w2, this'. repeat split; assumption.
Defined.

(** X6.  A history file that holds an array is loaded as it is, without a
    change to the world: the entries are neither deduplicated nor capped
    by the constructor; [get] then returns the last entries, up to the
    cap. *)
Theorem history_load_array {host : Host}
    (dir data : string) (l : list string) (w : World) :
  file (fs w) = Some data -> read_error (fs w) = None ->
  data <> EmptyString -> JSON_parse data = Ok (IsArray l) ->
  CommandLineHistory.new dir w = (w, Ok (CommandLineHistory.mk dir l))
  /\ CommandLineHistory.get (CommandLineHistory.mk dir l) w
     = (w, Ok (Spec.keep_last (history (configuration w)) l,
               CommandLineHistory.mk dir
                 (Spec.keep_last (history (configuration w)) l))).
Proof.
  intros Hf Hr Hd Hp. split; [eapply new_array; eassumption|apply get_spec].
Qed.

Lemma history_load_array_witness :
  let w := mkWorld (mkConfiguration false 1 false false) "linux"
             Examples.fs_saved [] [] [] Examples.vimState0 None in
  CommandLineHistory.new (H := Examples.host_json) "dir" w
  = (w, Ok (CommandLineHistory.mk "dir" ["one"; "two"]))
  /\ CommandLineHistory.get
       (CommandLineHistory.mk "dir" ["one"; "two"]) w
     = (w, Ok (["two"], CommandLineHistory.mk "dir" ["two"])).
Proof.
  intros w.
  exact (@history_load_array Examples.host_json "dir"
           (Examples.quoted_list ["one"; "two"]) ["one"; "two"] w
           eq_refl eq_refl ltac:(discriminate) eq_refl).
Defined.

(** X7.  The constructor changes the file system in one case only: it
    deletes a file that it could read and whose content, not empty, is not
    an array of JSON.  A file that cannot be read is left in place, with
    an empty history. *)
Theorem history_load_file_system {host : Host} (dir : string) (w : World) :
  exists w' this,
    CommandLineHistory.new dir w = (w', Ok this)
    /\ (fs w' = fs w
        \/ (file (fs w') = None
            /\ this = CommandLineHistory.mk dir []
            /\ exists data,
                 file (fs w) = Some data /\ read_error (fs w) = None
                 /\ data <> EmptyString
                 /\ forall l, JSON_parse data <> Ok (IsArray l)))
    /\ (forall e, file (fs w) <> None -> read_error (fs w) = Some e ->
        this = CommandLineHistory.mk dir [] /\ fs w' = fs w).
Proof.
  destruct (file (fs w)) as [data|] eqn:Hf.
  - destruct (read_error (fs w)) as [e|] eqn:Hr.
    + destruct (new_unreadable dir w data e Hf Hr) as (w' & Hn & Hfs).
      exists w'. eexists. split; [exact Hn|]. split; [left; exact Hfs|].
      intros e' _ _. split; [reflexivity|exact Hfs].
    + destruct data as [|a data].
      * rewrite (new_empty_file dir w Hf Hr). eexists _, _.
        split; [reflexivity|]. split; [left; reflexivity|]. intros e _ [=].
      * destruct (JSON_parse (String a data)) as [[|l]|e] eqn:Hp.
        -- destruct (new_corrupted dir w (String a data) Hf Hr ltac:(discriminate)
                       (or_introl Hp)) as (w' & Hn & Hdel & Hkeep).
           exists w'. eexists. split; [exact Hn|]. split; [|intros e _ [=]].
           destruct (unlink_error (fs w)) eqn:Hu.
           ++ left. apply Hkeep. discriminate.
           ++ right. split; [apply Hdel; reflexivity|]. split; [reflexivity|].
              exists (String a data). repeat split; try assumption; try discriminate.
              intros l. rewrite Hp. discriminate.
        -- rewrite (new_array dir w (String a data) l Hf Hr ltac:(discriminate) Hp).
           eexists _, _. split; [reflexivity|]. split; [left; reflexivity|].
           intros e _ [=].
        -- destruct (new_corrupted dir w (String a data) Hf Hr ltac:(discriminate)
                       (or_intror (ex_intro _ e Hp))) as (w' & Hn & Hdel & Hkeep).
           exists w'. eexists. split; [exact Hn|]. split; [|intros e' _ [=]].
           destruct (unlink_error (fs w)) eqn:Hu.
           ++ left. apply Hkeep. discriminate.
           ++ right. split; [apply Hdel; reflexivity|]. split; [reflexivity|].
              exists (String a data). repeat split; try assumption; try discriminate.
              intros l. rewrite Hp. discriminate.
  - rewrite (new_missing dir w Hf). eexists _, _. split; [reflexivity|].
    split; [left; reflexivity|]. intros e Hne. congruence.
Qed.

Lemma history_load_file_system_witness :
  let w := set_fs (mkFS true (Some "[]") None (Some (SystemError "EACCES")) None None)
             Examples.world0 in
  exists w',
    CommandLineHistory.new (H := Examples.host0) "dir" w
    = (w', Ok (CommandLineHistory.mk "dir" []))
    /\ fs w' = fs w.
Proof.
  intros w.
  destruct (@history_load_file_system Examples.host0 "dir" w)
    as (w' & this & Hn & _ & Hun).
  destruct (Hun (SystemError "EACCES") ltac:(discriminate) eq_refl) as [-> Hfs].
  exists w'. split; [exact Hn|exact Hfs].
Defined.

(** ** The command-line engine: further properties *)

Section RunMore.
Context {host : Host}.
Variable parse : string -> result node.CommandLine.t.

(** Run on a non-empty text, with the state after the recording spelled
    out. *)
Lemma Run_steps text this w :
  text <> EmptyString ->
  exists w1 this1,
    Spec.frame w w1
    /\ CommandLineHistory._history (CommandLine._history this1)
       = Spec.keep_last (history (configuration w))
           (Spec.ideal_add
              (CommandLineHistory._history (CommandLine._history this))
              (Some (CommandLine.strip_colon text)))
    /\ CommandLine._commandLineHistoryIndex this1
       = Z.of_nat (length (CommandLineHistory._history (CommandLine._history this1)))
    /\ CommandLine.Run parse (Some text) this w
       = (let '(w2, r) :=
            try_catch (CommandLine.Run_try parse (CommandLine.strip_colon text))
              (CommandLine.Run_catch (CommandLine.strip_colon text)) w1 in
          (w2, this1, r)).
Proof.
  intros Ht.
  destruct (Run_unfold parse text this w Ht) as (w1 & this1 & Hrec & Hrun).
  destruct (Run_record_spec (CommandLine.strip_colon text) this w)
    as (w1' & Hrec' & Hf).
  rewrite Hrec' in Hrec. injection Hrec as Hw Hthis.
  exists w1, this1. subst w1'.
  split; [exact Hf|]. split; [rewrite <- Hthis; reflexivity|].
  split; [rewrite <- Hthis; reflexivity|exact Hrun].
Qed.

End RunMore.

(** X8.  A failure of the parser, other than unsupported syntax with the
    delegation enabled, changes nothing of the editing state: Run returns,
    the state of the session (text, selections, cursor, marks, register)
    and the backend session are as before, and the failure is shown: in
    the status bar, followed by the command, when it is an error of the
    emulation layer, as an error message otherwise. *)
Theorem Run_parse_failure_atomic {host : Host}
    (parse : string -> result node.CommandLine.t)
    (text : string) (this : CommandLine.t) (w : World) (e : exn) :
  text <> EmptyString ->
  parse (CommandLine.strip_colon text) = Throw e ->
  Spec.is_E492 e && enableNeovim (configuration w) = false ->
  exists w' this',
    CommandLine.Run parse (Some text) this w = (w', this', Ok tt)
    /\ vimState w' = vimState w
    /\ nvim w' = nvim w
    /\ match e with
       | VimError _ _ =>
           statusBar w'
           = (statusBar w
              ++ [(exn_toString e ++ ". " ++ CommandLine.strip_colon text)%string])%list
           /\ messages w' = messages w
       | _ =>
           messages w' = (messages w ++ [exn_toString e])%list
           /\ statusBar w' = statusBar w
       end.
Proof.
  intros Ht Hp He.
  destruct (Run_steps parse text this w Ht) as (w1 & this1 & Hf & _ & _ & Hrun).
  destruct Hf as (Hc & _ & Hsb & Hms & Hv & Hn).
  unfold try_catch, CommandLine.Run_try in Hrun.
  unfold mbind, M_bind, lift in Hrun. rewrite Hp in Hrun.
  unfold CommandLine.Run_catch in Hrun.
  cbv [mbind M_bind get_world modify] in Hrun.
  destruct e as [m|m|m|c|code t]; simpl in He;
    try (eexists _, this1; split; [exact Hrun|]; simpl; rewrite Hsb, Hms; auto).
  rewrite Hc, He in Hrun.
  eexists _, this1. split; [exact Hrun|]. simpl. rewrite Hsb, Hms. auto.
Qed.

Lemma Run_parse_failure_atomic_witness :
  exists w' this',
    CommandLine.Run (H := Examples.host0) Examples.parse_fail (Some ":nonsense")
      Examples.commandLine0 Examples.world_nvim
    = (w', this', Ok tt)
    /\ vimState w' = vimState Examples.world_nvim
    /\ nvim w' = nvim Examples.world_nvim
    /\ messages w' = ["Error: not a Vim command"].
Proof.
  destruct (@Run_parse_failure_atomic Examples.host0 Examples.parse_fail
              ":nonsense" Examples.commandLine0 Examples.world_nvim
              (Error "not a Vim command") ltac:(discriminate) eq_refl eq_refl)
    as (w' & this' & Hrun & Hv & Hn & Hms & _).
  exists w', this'. repeat split; assumption.
Defined.

(** X9.  A command that keeps the [executeWithRange] of the base class,
    run with a range and without delegation, is not executed: Run returns,
    the error message 'Error: Not implemented!' is shown, and the state of
    the session is as before. *)
Theorem Run_range_not_implemented {host : Host}
    (parse : string -> result node.CommandLine.t)
    (text : string) (this : CommandLine.t) (w : World)
    (cl : node.CommandLine.t) (c : node.CommandBase.t) :
  text <> EmptyString ->
  parse (CommandLine.strip_colon text) = Ok cl ->
  node.CommandLine.command cl = Some c ->
  LineRange.isEmpty (node.CommandLine.range cl) = false ->
  node.CommandBase.executeWithRange c = node.CommandBase.executeWithRange_default ->
  enableNeovim (configuration w) && node.CommandBase.neovimCapable c = false ->
  exists w' this',
    CommandLine.Run parse (Some text) this w = (w', this', Ok tt)
    /\ messages w' = (messages w ++ ["Error: Not implemented!"])%list
    /\ statusBar w' = statusBar w
    /\ vimState w' = vimState w
    /\ nvim w' = nvim w.
Proof.
  intros Ht Hp Hc Hne Hdef Hcap.
  destruct (Run_steps parse text this w Ht) as (w1 & this1 & Hf & _ & _ & Hrun).
  destruct Hf as (Hcfg & _ & Hsb & Hms & Hv & Hn).
  unfold try_catch, CommandLine.Run_try in Hrun.
  cbv [mbind M_bind lift get_world] in Hrun. rewrite Hp, Hc, Hcfg, Hcap in Hrun.
  unfold node.CommandLine.execute in Hrun. rewrite Hc, Hne, Hdef in Hrun.
  eexists _, this1. split; [exact Hrun|]. simpl. rewrite Hsb, Hms. auto.
Qed.

Lemma Run_range_not_implemented_witness :
  exists w' this',
    CommandLine.Run (H := Examples.host0) Examples.parse_ranged (Some "1foo")
      Examples.commandLine0 Examples.world0
    = (w', this', Ok tt)
    /\ messages w' = ["Error: Not implemented!"]
    /\ statusBar w' = []
    /\ vimState w' = Examples.vimState0.
Proof.
  destruct (@Run_range_not_implemented Examples.host0 Examples.parse_ranged
              "1foo" Examples.commandLine0 Examples.world0 _ _
              ltac:(discriminate) eq_refl eq_refl eq_refl eq_refl eq_refl)
    as (w' & this' & Hrun & Hms & Hsb & Hv & _).
  exists w', this'. repeat split; assumption.
Defined.

(** X10.  With the delegation enabled, a command that declares itself
    eligible is handed to the bridge and never executed locally: the
    [try] block of Run is the run of the bridge on the command text, in
    the state after the recording, whatever range was parsed and whatever
    the entry points of the command would do; what it throws goes to the
    [catch] clause.  Through a process that answers, Run returns, and the
    inputs of the session are the command line, as the bridge escapes it,
    and at most the escape key after it. *)
Theorem Run_delegation_skips_local {host : Host}
    (parse : string -> result node.CommandLine.t)
    (text : string) (this : CommandLine.t) (w : World)
    (cl : node.CommandLine.t) (c : node.CommandBase.t) :
  text <> EmptyString ->
  enableNeovim (configuration w) = true ->
  parse (CommandLine.strip_colon text) = Ok cl ->
  node.CommandLine.command cl = Some c ->
  node.CommandBase.neovimCapable c = true ->
  let command := CommandLine.strip_colon text in
  exists w1 this1,
    CommandLine.Run_record command this w = (w1, Ok this1)
    /\ nvim w1 = nvim w
    /\ vimState w1 = vimState w
    /\ CommandLine.Run parse (Some text) this w
       = (let '(w2, r) :=
            try_catch (Neovim.run command) (CommandLine.Run_catch command) w1 in
          (w2, this1, r))
    /\ forall p cs,
         (forall cs r, fails p cs r = None) ->
         nvim w = Some (mkNvim p cs) ->
         exists w' more rest,
           CommandLine.Run parse (Some text) this w = (w', this1, Ok tt)
           /\ Neovim.run command w1 = (w', Ok tt)
           /\ nvim w' = Some (mkNvim p (cs ++ more)%list)
           /\ Examples.inputs more = Spec.injected command :: rest
           /\ (rest = [] \/ rest = ["<esc>"]).
Proof.
  intros Ht Hen Hp Hc Hn command.
  destruct (Run_unfold parse text this w Ht) as (w1 & this1 & Hrec & Hrun).
  destruct (Run_record_spec command this w) as (w1' & Hrec' & Hf).
  fold command in Hrec, Hrun, Hp.
  assert (w1' = w1) as -> by (rewrite Hrec' in Hrec; congruence).
  destruct Hf as (Hcfg & _ & _ & _ & Hv & Hnv).
  assert (Htry : CommandLine.Run_try parse command w1 = Neovim.run command w1).
  { unfold CommandLine.Run_try. cbv [mbind M_bind lift get_world].
    rewrite Hp, Hc, Hcfg, Hen, Hn. reflexivity. }
  assert (Hrun' : CommandLine.Run parse (Some text) this w
                  = (let '(w2, r) :=
                       try_catch (Neovim.run command) (CommandLine.Run_catch command) w1 in
                     (w2, this1, r))).
  { rewrite Hrun. unfold try_catch. rewrite Htry. reflexivity. }
  exists w1, this1. split; [exact Hrec|]. split; [exact Hnv|]. split; [exact Hv|].
  split; [exact Hrun'|].
  intros p cs Hp' Hs.
  destruct (run_ok p Hp' command w1 cs ltac:(rewrite Hnv; exact Hs))
    as (w' & before & more & Hok & Hn' & _ & Hin).
  exists w', more, (if mode_blocking p
                        (cs ++ before ++ [nvim_input (Spec.injected command); nvim_getMode])%list
                  then ["<esc>"] else []).
  split; [|split; [exact Hok|split; [exact Hn'|split; [exact Hin|]]]].
  - rewrite Hrun'. unfold try_catch. rewrite Hok. reflexivity.
  - destruct (mode_blocking p _); auto.
Qed.

Lemma Run_delegation_skips_local_witness :
  exists w' this' n,
    CommandLine.Run (H := Examples.host0) Examples.parse_capable_2 (Some ":foo")
      Examples.commandLine0 Examples.world_nvim
    = (w', this', Ok tt)
    /\ nvim w' = Some n
    /\ head (Examples.inputs (calls n)) = Some (":foo" ++ String "010" EmptyString)
    /\ statusBar w' = [EmptyString]
    /\ messages w' = [].
Proof.
  destruct (@Run_delegation_skips_local Examples.host0 Examples.parse_capable_2
              ":foo" Examples.commandLine0 Examples.world_nvim _ _
              ltac:(discriminate) eq_refl eq_refl eq_refl eq_refl)
    as (w1 & this1 & _ & _ & _ & _ & Hp).
  destruct (Hp Examples.process0 [] (fun _ _ => eq_refl) eq_refl)
    as (w' & more & rest & Hrun & _ & Hn & Hin & _).
  exists w', this1, (mkNvim Examples.process0 more).
  split; [exact Hrun|]. split; [exact Hn|]. split; [cbn [calls]; rewrite Hin; reflexivity|].
  vm_compute in Hrun. injection Hrun as <- _. split; reflexivity.
Defined.

(** X11.  After Run on a non-empty text, whatever happens to the command,
    the history index is the number of entries of the history, one past
    the newest, and with a cap that is not negative it is at most the
    cap. *)
Theorem Run_history_index {host : Host}
    (parse : string -> result node.CommandLine.t)
    (text : string) (this : CommandLine.t) (w : World) :
  text <> EmptyString ->
  exists w' this' r,
    CommandLine.Run parse (Some text) this w = (w', this', r)
    /\ CommandLine._commandLineHistoryIndex this'
       = Z.of_nat (length (CommandLineHistory._history (CommandLine._history this')))
    /\ ((0 <= history (configuration w))%Z ->
        (0 <= CommandLine._commandLineHistoryIndex this'
         <= history (configuration w))%Z).
Proof.
  intros Ht.
  destruct (Run_steps parse text this w Ht) as (w1 & this1 & _ & Hh & Hi & Hrun).
  destruct (try_catch _ _ w1) as [w2 r].
  exists w2, this1, r. split; [exact Hrun|]. split; [exact Hi|].
  intros HN. rewrite Hi, Hh.
  pose proof (keep_last_bound (history (configuration w))
                (Spec.ideal_add (CommandLineHistory._history (CommandLine._history this))
                   (Some (CommandLine.strip_colon text))) HN).
  lia.
Qed.

Lemma Run_history_index_witness :
  exists w' this' r,
    CommandLine.Run (H := Examples.host0) Examples.parse_fail (Some ":w!")
      Examples.commandLine0 Examples.world0
    = (w', this', r)
    /\ CommandLine._commandLineHistoryIndex this' = 2%Z.
Proof.
  destruct (@Run_history_index Examples.host0 Examples.parse_fail ":w!"
              Examples.commandLine0 Examples.world0 ltac:(discriminate))
    as (w' & this' & r & Hrun & Hi & _).
  exists w', this', r. split; [exact Hrun|].
  rewrite Hi. vm_compute in Hrun. injection Hrun as _ <- _. reflexivity.
Defined.

(** X12.  With an active editor, ShowHistory adds the initial text to the
    history and offers the entries newest first: for an initial text that
    is not empty and a cap of at least one, the first item offered is the
    initial text, the items are the reversed history, and what is returned
    is the pick of the user among them.  Without an active editor it
    returns the empty text and the history is not touched. *)
Theorem ShowHistory_newest_first {host : Host}
    (pick : list string -> option string)
    (text : string) (this : CommandLine.t) (w : World) :
  text <> EmptyString -> (1 <= history (configuration w))%Z ->
  (exists w' this' items,
     CommandLine.ShowHistory true pick text this w = (w', Ok (pick items, this'))
     /\ items = reverse (CommandLineHistory._history (CommandLine._history this'))
     /\ head items = Some text
     /\ CommandLineHistory._history (CommandLine._history this')
        = Spec.keep_last (history (configuration w))
            (Spec.move_to_end text
               (CommandLineHistory._history (CommandLine._history this))))
  /\ exists w',
       CommandLine.ShowHistory false pick text this w
       = (w', Ok (Some EmptyString, this))
       /\ fs w' = fs w.
Proof.
  intros Ht HN. split.
  - unfold CommandLine.ShowHistory. cbn [negb].
    cbv [mbind M_bind].
    destruct (add_spec text (CommandLine._history this) w Ht) as (w' & -> & Hf).
    rewrite get_spec. destruct Hf as [Hcfg _]. cbv beta iota.
    rewrite Hcfg.
    cbn [CommandLineHistory._history CommandLineHistory._historyDir].
    rewrite !keep_last_idemp.
    eexists w', _, _. split; [reflexivity|]. simpl.
    split; [reflexivity|]. split; [|reflexivity].
    rewrite head_reverse. apply last_keep_last_snoc. exact HN.
  - unfold CommandLine.ShowHistory. cbn [negb].
    eexists. split; reflexivity.
Qed.

Lemma ShowHistory_newest_first_witness :
  exists w' this',
    CommandLine.ShowHistory (H := Examples.host0) true head "w!"
      Examples.commandLine0 Examples.world0
    = (w', Ok (Some "w!", this'))
    /\ CommandLineHistory._history (CommandLine._history this') = ["old"; "w!"].
Proof.
  destruct (proj1 (@ShowHistory_newest_first Examples.host0 head "w!"
              Examples.commandLine0 Examples.world0 ltac:(discriminate)
              ltac:(simpl; lia)))
    as (w' & this' & items & Hshow & _ & Hhead & Hh).
  exists w', this'. rewrite Hhead in Hshow. split; [exact Hshow|exact Hh].
Defined.

(** X21.  The only exception that Run lets through is one thrown by the
    bridge in the retry: when Run throws, the parser or the execution had
    thrown the unsupported-syntax error, the delegation was enabled, and
    the exception is the one that the run of the bridge on the command
    threw.  With the delegation disabled at that point, Run returns. *)
Theorem Run_throws_only_from_retry {host : Host}
    (parse : string -> result node.CommandLine.t)
    (text : string) (this : CommandLine.t) (w w' : World)
    (this' : CommandLine.t) (e : exn) :
  CommandLine.Run parse (Some text) this w = (w', this', Throw e) ->
  exists w1 this1 w2 e0,
    CommandLine.Run_record (CommandLine.strip_colon text) this w = (w1, Ok this1)
    /\ CommandLine.Run_try parse (CommandLine.strip_colon text) w1 = (w2, Throw e0)
    /\ Spec.is_E492 e0 = true
    /\ enableNeovim (configuration w2) = true
    /\ Neovim.run (CommandLine.strip_colon text) w2 = (w', Throw e).
Proof.
  intros Hrun.
  destruct text as [|a text]; [discriminate|].
  destruct (Run_unfold parse (String a text) this w ltac:(discriminate))
    as (w1 & this1 & Hrec & Hrun').
  rewrite Hrun in Hrun'. unfold try_catch in Hrun'.
  destruct (CommandLine.Run_try parse (CommandLine.strip_colon (String a text)) w1)
    as [w2 [[]|e0]] eqn:Htry; [discriminate|].
  exists w1, this1, w2, e0. split; [exact Hrec|]. split; [exact Htry|].
  unfold CommandLine.Run_catch in Hrun'.
  destruct e0 as [m|m|m|c|code t]; try discriminate.
  cbv [mbind M_bind get_world] in Hrun'. simpl.
  destruct ((code =? E492)%N) eqn:Hcode; simpl in Hrun'; [|discriminate].
  destruct (enableNeovim (configuration w2)) eqn:Hen; simpl in Hrun'; [|discriminate].
  split; [reflexivity|]. split; [reflexivity|].
  destruct (Neovim.run _ w2) as [w3 r3]. injection Hrun' as -> _ ->. reflexivity.
Qed.

Lemma Run_throws_only_from_retry_witness :
  exists w' this' e w1 this1 w2 e0,
    CommandLine.Run (H := Examples.host0) Examples.parse_E492 (Some "foo")
      Examples.commandLine0 (set_nvim None Examples.world_nvim)
    = (w', this', Throw e)
    /\ CommandLine.Run_record (H := Examples.host0) "foo" Examples.commandLine0
         (set_nvim None Examples.world_nvim)
       = (w1, Ok this1)
    /\ CommandLine.Run_try (H := Examples.host0) Examples.parse_E492 "foo" w1
       = (w2, Throw e0)
    /\ Spec.is_E492 e0 = true.
Proof.
  destruct (CommandLine.Run (H := Examples.host0) Examples.parse_E492 (Some "foo")
              Examples.commandLine0 (set_nvim None Examples.world_nvim))
    as [[w' this'] [[]|e]] eqn:Hrun; [vm_compute in Hrun; discriminate|].
  destruct (@Run_throws_only_from_retry Examples.host0 Examples.parse_E492 "foo"
              Examples.commandLine0 (set_nvim None Examples.world_nvim)
              w' this' e Hrun)
    as (w1 & this1 & w2 & e0 & Hrec & Htry & He & _).
  exists w', this', e, w1, this1, w2, e0. repeat split; assumption.
Defined.

(** ** The bridge: further properties *)

Section QuietFacts.
Context {host : Host}.
Import Spec.
Local Open Scope list_scope.

Lemma quiet_ret {A} (a : A) : quiet (mret a).
Proof. intros w. split; reflexivity. Qed.

Lemma quiet_get_world : quiet get_world.
Proof. intros w. split; reflexivity. Qed.

Lemma quiet_log l msg : quiet (modify (log l msg)).
Proof. intros w. split; reflexivity. Qed.

Lemma quiet_set_vimState f : quiet (modify (fun w => set_vimState (f w) w)).
Proof. intros w. split; reflexivity. Qed.

Lemma quiet_request r : quiet (Neovim.request r).
Proof.
  intros w. unfold Neovim.request. destruct (nvim w) as [n|]; [|split; reflexivity].
  destruct (fails (process n) (calls n) r); split; reflexivity.
Qed.

Lemma quiet_bind {A B} (m : M A) (k : A -> M B) :
  quiet m -> (forall a, quiet (k a)) -> quiet (m ≫= k).
Proof.
  intros Hm Hk w. unfold mbind, M_bind. specialize (Hm w).
  destruct (m w) as [w1 [a|e]]; simpl in *; [|assumption].
  destruct (Hk a w1) as [H1 H2]. destruct Hm as [H3 H4].
  split; congruence.
Qed.

Lemma quiet_if {A} (b : bool) (m1 m2 : M A) :
  quiet m1 -> quiet m2 -> quiet (if b then m1 else m2).
Proof. destruct b; auto. Qed.

Lemma quiet_executeCommand cmd : quiet (Neovim.vscode_executeCommand cmd).
Proof. intros w. split; reflexivity. Qed.

Lemma quiet_push_marks marks : quiet (Neovim.push_marks marks).
Proof.
  induction marks as [|m marks IH]; simpl.
  - apply quiet_ret.
  - apply quiet_bind; [apply quiet_request|intros _; exact IH].
Qed.

Ltac quiet_tac :=
  repeat first
    [ apply quiet_ret | apply quiet_get_world | apply quiet_log
    | apply quiet_request | apply quiet_executeCommand
    | apply quiet_push_marks | apply quiet_set_vimState
    | apply quiet_if
    | apply quiet_bind; [|intros ?] ].

Lemma quiet_syncVSToVim : quiet Neovim.syncVSToVim.
Proof. unfold Neovim.syncVSToVim. quiet_tac. Qed.

Lemma quiet_syncVimToVs : quiet Neovim.syncVimToVs.
Proof. unfold Neovim.syncVimToVs. quiet_tac. Qed.

Lemma ends_SetText text : ends_with_status (modify (StatusBar_SetText text)).
Proof. intros w. simpl. split; [eexists; reflexivity|reflexivity]. Qed.

Lemma ends_bind {A B} (m : M A) (k : A -> M B) :
  quiet m -> (forall a, ends_with_status (k a)) -> ends_with_status (m ≫= k).
Proof.
  intros Hm Hk w. unfold mbind, M_bind. specialize (Hm w).
  destruct (m w) as [w1 [a|e]]; simpl in *; [|assumption].
  specialize (Hk a w1). destruct Hm as [H3 H4].
  destruct ((k a w1).2); rewrite <- H3, <- H4; exact Hk.
Qed.

Lemma ends_run command : ends_with_status (Neovim.run command).
Proof.
  unfold Neovim.run.
  apply ends_bind; [apply quiet_syncVSToVim|intros _].
  apply ends_bind; [apply quiet_request|intros _].
  apply ends_bind; [apply quiet_request|intros _].
  apply ends_bind; [apply quiet_request|intros n].
  apply ends_bind; [quiet_tac|intros _].
  apply ends_bind; [apply quiet_request|intros n'].
  apply ends_bind; [quiet_tac|intros text].
  apply ends_bind; [apply quiet_syncVimToVs|intros _].
  apply ends_SetText.
Qed.

Lemma quiet_input keys : quiet (Neovim.input keys).
Proof.
  unfold Neovim.input.
  apply quiet_bind; [apply quiet_syncVSToVim|intros _].
  apply quiet_bind; [apply quiet_request|intros _].
  apply quiet_syncVimToVs.
Qed.

End QuietFacts.

(** X13.  [run] shows one text in the status bar, as its last step, when
    it returns; when it throws, whatever failed, it has shown nothing: the
    status bar and the error messages are as before.  [input] never shows
    anything. *)
Theorem run_shows_status_or_throws {host : Host}
    (command keys : string) (w : World) :
  (forall w' e,
     Neovim.run command w = (w', Throw e) ->
     statusBar w' = statusBar w /\ messages w' = messages w)
  /\ (forall w',
        Neovim.run command w = (w', Ok tt) ->
        (exists text, statusBar w' = (statusBar w ++ [text])%list)
        /\ messages w' = messages w)
  /\ (forall w' r,
        Neovim.input keys w = (w', r) ->
        statusBar w' = statusBar w /\ messages w' = messages w).
Proof.
  pose proof (ends_run command w) as Hrun.
  pose proof (quiet_input keys w) as Hin.
  split; [|split].
  - intros w' e Heq. rewrite Heq in Hrun. exact Hrun.
  - intros w' Heq. rewrite Heq in Hrun. exact Hrun.
  - intros w' r Heq. rewrite Heq in Hin. exact Hin.
Qed.

Lemma run_shows_status_or_throws_witness :
  exists w' e,
    Neovim.run (H := Examples.host0) "s/a/b/"
      (set_nvim (Some (mkNvim Examples.process_dead [])) Examples.world_nvim)
    = (w', Throw e)
    /\ statusBar w' = [] /\ messages w' = [].
Proof.
  eexists _, _. split; [reflexivity|].
  exact (proj1 (@run_shows_status_or_throws Examples.host0 "s/a/b/" "x"
           (set_nvim (Some (mkNvim Examples.process_dead [])) Examples.world_nvim))
           _ _ eq_refl).
Defined.

(** Joining the lines of a text gives the text back. *)
Lemma join_split (s : string) :
  JS.join (String "010" EmptyString) (JS.split "010" s) = s.
Proof.
  induction s as [|c s IH]; [reflexivity|].
  cbn [JS.split]. pose proof (split_nonempty "010" s) as Hne.
  destruct (Ascii.eqb c "010") eqn:Ec.
  - apply Ascii.eqb_eq in Ec. subst c.
    destruct (JS.split "010" s) as [|w ws] eqn:Es; [simpl in Hne; lia|].
    change (JS.join (String "010" EmptyString) (EmptyString :: w :: ws))
      with (String "010" (JS.join (String "010" EmptyString) (w :: ws))).
    rewrite IH. reflexivity.
  - destruct (JS.split "010" s) as [|w ws] eqn:Es; [simpl in Hne; lia|].
    destruct ws as [|w' ws].
    + simpl in IH. simpl. rewrite IH. reflexivity.
    + change (JS.join (String "010" EmptyString) (String c w :: w' :: ws))
        with (String c (JS.join (String "010" EmptyString) (w :: w' :: ws))).
      rewrite IH. reflexivity.
Qed.

(** The carriage return that ends a line is removed. *)
Lemma strip_cr_snoc (l : string) :
  Neovim.strip_cr (l ++ String "013" EmptyString) = l.
Proof.
  induction l as [|c l IH]; [reflexivity|].
  change (String c l ++ String "013" EmptyString)
    with (String c (l ++ String "013" EmptyString)).
  cbn [Neovim.strip_cr].
  destruct (l ++ String "013" EmptyString) eqn:E.
  - destruct l; discriminate.
  - rewrite IH. reflexivity.
Qed.

Lemma map_strip_cr_snoc (ls : list string) :
  map Neovim.strip_cr (map (fun l => l ++ String "013" EmptyString) ls) = ls.
Proof.
  induction ls as [|l ls IH]; simpl; [reflexivity|].
  rewrite strip_cr_snoc, IH. reflexivity.
Qed.

Section SyncFacts.
Context {host : Host}.
Variable p : NvimProcess.
Hypothesis never_fails : forall cs r, fails p cs r = None.
Local Open Scope list_scope.

Ltac step :=
  first [ erewrite (bind_request p never_fails) by reflexivity
        | erewrite (bind_push_marks p never_fails) by reflexivity
        | rewrite bind_get_world
        | rewrite bind_modify
        | rewrite bind_ret ].

Lemma syncVimToVs_result w cs :
  nvim w = Some (mkNvim p cs) ->
  let tr1 := cs ++ [nvim_getCurrentBuf; buf_getLines 0 (-1) false] in
  let lines := buffer_lines p tr1 in
  let fixed :=
    if String.eqb (platform w) "win32" then map Neovim.strip_cr lines else lines in
  let tr2 := tr1 ++ [Spec.getpos_call] in
  let cur := Spec.cursor_read (function_value p tr2 "getpos" [AScalar (VStr ".")]) in
  let ed :=
    mkTextEditor (mkTextDocument (JS.join (String "010" EmptyString) fixed))
      (mkSelection cur cur cur) [] in
  exists w',
    Neovim.syncVimToVs w = (w', Ok tt)
    /\ editor (vimState w')
       = (if expandtab (configuration w)
          then executeCommand "editor.action.indentationToSpaces" ed else ed)
    /\ cursorPosition (vimState w') = cursorPosition (vimState w)
    /\ cursorStartPosition (vimState w') = cursorStartPosition (vimState w)
    /\ historyTracker (vimState w') = historyTracker (vimState w)
    /\ configuration w' = configuration w
    /\ platform w' = platform w.
Proof.
  intros Hn. destruct w as [c pl f lg sb ms v nv]. simpl in Hn. subst nv.
  cbn zeta.
  unfold Neovim.syncVimToVs, Neovim.vscode_executeCommand.
  repeat step. simpl configuration. simpl platform.
  destruct (expandtab c); repeat step;
    (eexists; split; [reflexivity|]; simpl; rewrite <- ?app_assoc; simpl;
     repeat split).
Qed.

End SyncFacts.

Section BridgeMore.
Context {host : Host}.
Variable p : NvimProcess.
Hypothesis never_fails : forall cs r, fails p cs r = None.
Local Open Scope list_scope.

Ltac step :=
  first [ erewrite (bind_request p never_fails) by reflexivity
        | erewrite (bind_push_marks p never_fails) by reflexivity
        | rewrite bind_get_world
        | rewrite bind_modify
        | rewrite bind_ret ].

Lemma tabs_applied_off c v : expandtab c = false -> Spec.tabs_applied c v = v.
Proof. intros H. unfold Spec.tabs_applied. rewrite H. reflexivity. Qed.

(** [input] through a process that answers, without conversion of the
    indentation. *)
Lemma input_result keys w cs :
  nvim w = Some (mkNvim p cs) -> expandtab (configuration w) = false ->
  exists w' tr1 tr2,
    Neovim.input keys w = (w', Ok tt)
    /\ editor (vimState w')
       = mkTextEditor
           (mkTextDocument
              (JS.join (String "010" EmptyString)
                 (if String.eqb (platform w) "win32"
                  then map Neovim.strip_cr (buffer_lines p tr1)
                  else buffer_lines p tr1)))
           (mkSelection
              (Spec.cursor_read (function_value p tr2 "getpos" [AScalar (VStr ".")]))
              (Spec.cursor_read (function_value p tr2 "getpos" [AScalar (VStr ".")]))
              (Spec.cursor_read (function_value p tr2 "getpos" [AScalar (VStr ".")])))
           []
    /\ cursorPosition (vimState w') = cursorPosition (vimState w)
    /\ cursorStartPosition (vimState w') = cursorStartPosition (vimState w)
    /\ historyTracker (vimState w') = historyTracker (vimState w).
Proof.
  intros Hn He. unfold Neovim.input.
  erewrite (bind_syncVSToVim p never_fails) by exact Hn.
  rewrite (tabs_applied_off _ _ He).
  step.
  match goal with
  | |- context [Neovim.syncVimToVs ?W] =>
      destruct (syncVimToVs_result p never_fails W _ eq_refl)
        as (w' & Hs & Hed & Hc & Hcs & Hh & _)
  end.
  simpl in Hed, Hc, Hcs, Hh. rewrite He in Hed.
  eexists w', _, _. split; [exact Hs|]. split; [exact Hed|].
  repeat split; assumption.
Qed.

End BridgeMore.

(** X14.  The text of the buffer survives the trip through a process that
    answers with the lines it was sent: after [input], on another platform
    than Windows and without conversion of the indentation, the text is
    the text before, and the cursor and the marks of the session are not
    touched. *)
Theorem input_text_round_trip {host : Host}
    (keys : string) (w : World) (p : NvimProcess) (cs : list rpc) :
  nvim w = Some (mkNvim p cs) ->
  (forall cs r, fails p cs r = None) ->
  expandtab (configuration w) = false ->
  String.eqb (platform w) "win32" = false ->
  (forall tr, buffer_lines p tr
              = JS.split "010" (getText (document (editor (vimState w))))) ->
  exists w',
    Neovim.input keys w = (w', Ok tt)
    /\ getText (document (editor (vimState w')))
       = getText (document (editor (vimState w)))
    /\ cursorPosition (vimState w') = cursorPosition (vimState w)
    /\ historyTracker (vimState w') = historyTracker (vimState w).
Proof.
  intros Hn Hp He Hpl Hlines.
  destruct (input_result p Hp keys w cs Hn He)
    as (w' & tr1 & tr2 & Hin & Hed & Hc & _ & Hh).
  exists w'. split; [exact Hin|]. split; [|split; assumption].
  rewrite Hed, Hpl, Hlines. simpl. apply join_split.
Qed.

Lemma input_text_round_trip_witness :
  exists w',
    Neovim.input (H := Examples.host0) "dd"
      (Examples.world_reporting EmptyString EmptyString)
    = (w', Ok tt)
    /\ getText (document (editor (vimState w'))) = Examples.three_lines.
Proof.
  destruct (@input_text_round_trip Examples.host0 "dd"
              (Examples.world_reporting EmptyString EmptyString)
              (Examples.process_reporting EmptyString EmptyString) []
              eq_refl (fun _ _ => eq_refl) eq_refl eq_refl (fun _ => eq_refl))
    as (w' & Hin & Htext & _).
  exists w'. split; [exact Hin|exact Htext].
Defined.

(** X15.  On Windows, through a process that answers and without
    conversion of the indentation ([expandtab] off): when the lines come
    back from the process as they were sent but with a carriage return at
    the end of each, the sync-in removes it, so that the text after
    [input] is again the text before. *)
Theorem input_text_round_trip_win32 {host : Host}
    (keys : string) (w : World) (p : NvimProcess) (cs : list rpc) :
  nvim w = Some (mkNvim p cs) ->
  (forall cs r, fails p cs r = None) ->
  expandtab (configuration w) = false ->
  platform w = "win32" ->
  (forall tr, buffer_lines p tr
              = map (fun l => l ++ String "013" EmptyString)
                  (JS.split "010" (getText (document (editor (vimState w)))))) ->
  exists w',
    Neovim.input keys w = (w', Ok tt)
    /\ getText (document (editor (vimState w')))
       = getText (document (editor (vimState w))).
Proof.
  intros Hn Hp He Hpl Hlines.
  destruct (input_result p Hp keys w cs Hn He)
    as (w' & tr1 & tr2 & Hin & Hed & _).
  exists w'. split; [exact Hin|].
  rewrite Hed, Hpl, Hlines. simpl. rewrite map_strip_cr_snoc. apply join_split.
Qed.

Lemma input_text_round_trip_win32_witness :
  exists w',
    Neovim.input (H := Examples.host0) "dd" Examples.world_win32 = (w', Ok tt)
    /\ getText (document (editor (vimState w'))) = Examples.three_lines.
Proof.
  destruct (@input_text_round_trip_win32 Examples.host0 "dd"
              Examples.world_win32 Examples.process_crlf []
              eq_refl (fun _ _ => eq_refl) eq_refl eq_refl (fun _ => eq_refl))
    as (w' & Hin & Htext).
  exists w'. split; [exact Hin|exact Htext].
Defined.

(** X16.  Through a process that answers and without conversion of the
    indentation ([expandtab] off), the sync-in reads the cursor of the
    process, whose lines count from 1, into the selection of the editor,
    whose lines count from 0.  For a cursor of the process that is a
    position of its buffer, a row of at least 1 and a column that is not
    negative, which are the values that the constructor of the editor's
    positions accepts after the translation, the selection is collapsed at
    the line before and the same column, and the other selections are
    dropped.  The cursor of the session itself is left where it was. *)
Theorem input_cursor_read_back {host : Host}
    (keys : string) (w : World) (p : NvimProcess) (cs : list rpc)
    (bufnum off : scalar) (row col : Z) :
  nvim w = Some (mkNvim p cs) ->
  (forall cs r, fails p cs r = None) ->
  expandtab (configuration w) = false ->
  (1 <= row)%Z ->
  (0 <= col)%Z ->
  (forall tr, function_value p tr "getpos" [AScalar (VStr ".")]
              = AList [bufnum; VNum (JS.Int row); VNum (JS.Int col); off]) ->
  exists w',
    Neovim.input keys w = (w', Ok tt)
    /\ selection (editor (vimState w'))
       = mkSelection (mkPosition (JS.Int (row - 1)) (JS.Int col))
           (mkPosition (JS.Int (row - 1)) (JS.Int col))
           (mkPosition (JS.Int (row - 1)) (JS.Int col))
    /\ (0 <= row - 1)%Z
    /\ secondary_selections (editor (vimState w')) = []
    /\ cursorPosition (vimState w') = cursorPosition (vimState w)
    /\ cursorStartPosition (vimState w') = cursorStartPosition (vimState w).
Proof.
  intros Hn Hp He Hrow Hcol Hpos.
  destruct (input_result p Hp keys w cs Hn He)
    as (w' & tr1 & tr2 & Hin & Hed & Hc & Hcs & _).
  exists w'. split; [exact Hin|]. rewrite Hed, Hpos. simpl.
  split; [reflexivity|]. split; [lia|]. repeat split; assumption.
Qed.

Lemma input_cursor_read_back_witness :
  exists w',
    Neovim.input (H := Examples.host0) "j"
      (Examples.world_reporting EmptyString EmptyString)
    = (w', Ok tt)
    /\ active (selection (editor (vimState w'))) = Examples.at_ 1 4
    /\ cursorPosition (vimState w') = Examples.origin.
Proof.
  destruct (@input_cursor_read_back Examples.host0 "j"
              (Examples.world_reporting EmptyString EmptyString)
              (Examples.process_reporting EmptyString EmptyString) []
              (VNum (JS.Int 0)) (VNum (JS.Int 0)) 2 4
              eq_refl (fun _ _ => eq_refl) eq_refl ltac:(lia) ltac:(lia)
              (fun _ => eq_refl))
    as (w' & Hin & Hsel & _ & _ & Hc & _).
  exists w'. split; [exact Hin|]. rewrite Hsel. split; [reflexivity|exact Hc].
Defined.

Section RunStatus.
Context {host : Host}.
Variable p : NvimProcess.
Hypothesis never_fails : forall cs r, fails p cs r = None.
Local Open Scope list_scope.

Ltac step :=
  first [ erewrite (bind_request p never_fails) by reflexivity
        | erewrite (bind_push_marks p never_fails) by reflexivity
        | rewrite bind_get_world
        | rewrite bind_modify
        | rewrite bind_ret ].

Lemma run_status command w cs err st :
  nvim w = Some (mkNvim p cs) ->
  (forall tr, vvar p tr "errmsg" = err) ->
  (forall tr, vvar p tr "statusmsg" = st) ->
  exists w',
    Neovim.run command w = (w', Ok tt)
    /\ statusBar w'
       = statusBar w ++ [if negb (String.eqb err EmptyString) then err else st].
Proof.
  intros Hn Herr Hst. unfold Neovim.run.
  erewrite (bind_syncVSToVim p never_fails) by exact Hn.
  do 3 step. simpl process; simpl calls.
  assert (Hend : forall w1 cs1 text,
    nvim w1 = Some (mkNvim p cs1) ->
    exists w',
      (Neovim.syncVimToVs ≫= (fun _ => modify (StatusBar_SetText text))) w1
      = (w', Ok tt)
      /\ statusBar w' = statusBar w1 ++ [text]).
  { intros w1 cs1 t Hw1.
    destruct (syncVimToVs_ok p never_fails w1 cs1 Hw1)
      as (w' & more & Hs & _ & _ & Hsb & _).
    unfold mbind, M_bind at 1. rewrite Hs.
    eexists. split; [reflexivity|]. simpl. rewrite Hsb. reflexivity. }
  destruct (mode_blocking p _); [rewrite bind_assoc|]; repeat step;
    simpl process; simpl calls; rewrite ?Herr;
    (destruct (negb (String.eqb err EmptyString)) eqn:He;
     [rewrite bind_ret
     |rewrite bind_assoc; step; simpl process; simpl calls; rewrite ?Hst;
      destruct (negb (String.eqb st EmptyString)) eqn:Hs; rewrite bind_ret]);
    match goal with
    | |- context [(Neovim.syncVimToVs
                    ≫= (fun _ => modify (StatusBar_SetText ?t))) ?W] =>
        destruct (Hend W _ t eq_refl) as (w' & -> & Hsb)
    end;
    exists w'; (split; [reflexivity|]); rewrite Hsb; simpl;
    try reflexivity.
  all: apply negb_false_iff, String.eqb_eq in Hs; rewrite Hs; reflexivity.
Qed.

End RunStatus.

(** X17.  The text that [run] shows in the status bar is the error message
    of the process when there is one, and its status message otherwise:
    an error message hides the status message. *)
Theorem run_status_precedence {host : Host}
    (command : string) (w : World) (p : NvimProcess) (cs : list rpc)
    (err st : string) :
  nvim w = Some (mkNvim p cs) ->
  (forall cs r, fails p cs r = None) ->
  (forall tr, vvar p tr "errmsg" = err) ->
  (forall tr, vvar p tr "statusmsg" = st) ->
  exists w',
    Neovim.run command w = (w', Ok tt)
    /\ statusBar w'
       = (statusBar w ++ [if negb (String.eqb err EmptyString) then err else st])%list.
Proof.
  intros Hn Hp Herr Hst. exact (run_status p Hp command w cs err st Hn Herr Hst).
Qed.

Lemma run_status_precedence_witness :
  exists w',
    Neovim.run (H := Examples.host0) "s/x/y/"
      (Examples.world_reporting "E486: Pattern not found: x" "3 lines changed")
    = (w', Ok tt)
    /\ statusBar w' = ["E486: Pattern not found: x"].
Proof.
  exact (@run_status_precedence Examples.host0 "s/x/y/"
           (Examples.world_reporting "E486: Pattern not found: x" "3 lines changed")
           (Examples.process_reporting "E486: Pattern not found: x" "3 lines changed")
           [] "E486: Pattern not found: x" "3 lines changed"
           eq_refl (fun _ _ => eq_refl) (fun _ => eq_refl) (fun _ => eq_refl)).
Defined.

(** X18.  The sync-out pushes the cursor and every tracked mark, each with
    its line counted from 1 and its own column, and it injects no input;
    it leaves the cursor and the marks of the session as they are. *)
Theorem syncVSToVim_pushes_marks {host : Host}
    (w : World) (p : NvimProcess) (cs : list rpc) :
  nvim w = Some (mkNvim p cs) ->
  (forall cs r, fails p cs r = None) ->
  exists w' more,
    Neovim.syncVSToVim w = (w', Ok tt)
    /\ nvim w' = Some (mkNvim p (cs ++ more)%list)
    /\ (forall m, m ∈ getMarks (historyTracker (vimState w)) ->
        Neovim.setpos ("'" ++ name m)
          (JS.add (line (position m)) (JS.Int 1)) (character (position m))
        ∈ more)
    /\ Neovim.setpos "."
         (JS.add (line (cursorPosition (vimState w))) (JS.Int 1))
         (character (cursorPosition (vimState w)))
       ∈ more
    /\ Examples.inputs more = []
    /\ cursorPosition (vimState w') = cursorPosition (vimState w)
    /\ historyTracker (vimState w') = historyTracker (vimState w).
Proof.
  intros Hn Hp. rewrite (syncVSToVim_ok p Hp w cs Hn).
  destruct (tabs_applied_cursor (configuration w) (vimState w)) as [Hc Hs].
  assert (Hh : historyTracker (Spec.tabs_applied (configuration w) (vimState w))
               = historyTracker (vimState w)).
  { unfold Spec.tabs_applied. destruct (expandtab (configuration w)); reflexivity. }
  eexists _, _. split; [reflexivity|]. split; [reflexivity|].
  split; [|split; [|split; [apply inputs_sync_out|split; [exact Hc|exact Hh]]]].
  - intros m Hm. unfold Spec.sync_out_calls. rewrite Hh.
    apply elem_of_app. right. apply elem_of_app. left.
    apply list_elem_of_fmap. exists m. split; [reflexivity|exact Hm].
  - unfold Spec.sync_out_calls. rewrite Hc.
    apply elem_of_app. left. do 3 apply list_elem_of_further. apply list_elem_of_here.
Qed.

Lemma syncVSToVim_pushes_marks_witness :
  exists w' n,
    Neovim.syncVSToVim (H := Examples.host0) Examples.world_nvim = (w', Ok tt)
    /\ nvim w' = Some n
    /\ Neovim.setpos "'a" (JS.Int 3) (JS.Int 5) ∈ calls n.
Proof.
  destruct (@syncVSToVim_pushes_marks Examples.host0 Examples.world_nvim
              Examples.process0 [] eq_refl (fun _ _ => eq_refl))
    as (w' & more & Hs & Hn & Hmarks & _).
  eexists w', _. split; [exact Hs|]. split; [exact Hn|].
  cbn [calls app].
  apply (Hmarks (mkMark "a" (Examples.at_ 2 5))). apply list_elem_of_here.
Defined.

(** ** Line ranges: further properties *)

Section SelectionFacts.
Import token.
Local Open Scope list_scope.

Lemma first_line_min s a b :
  line (start s) = JS.Int a -> line (end_ s) = JS.Int b ->
  Spec.first_line s = JS.Int (Z.min a b).
Proof.
  intros Ha Hb. unfold Spec.first_line, isBeforeOrEqual. rewrite Ha, Hb. simpl.
  destruct (Z.ltb_spec a b); [f_equal; lia|].
  destruct (Z.ltb_spec b a); [f_equal; lia|].
  assert (a = b) by lia. subst.
  destruct (JS.le _ _); f_equal; lia.
Qed.

Lemma last_line_max s a b :
  line (start s) = JS.Int a -> line (end_ s) = JS.Int b ->
  Spec.last_line s = JS.Int (Z.max a b).
Proof.
  intros Ha Hb. unfold Spec.last_line, isAfter, isBeforeOrEqual. rewrite Ha, Hb. simpl.
  destruct (Z.ltb_spec a b); simpl; [f_equal; lia|].
  destruct (Z.ltb_spec b a); simpl; [f_equal; lia|].
  assert (a = b) by lia. subst.
  destruct (JS.le _ _); simpl; f_equal; lia.
Qed.

Lemma fold_min_lines (l : list Selection) : forall x,
  Forall Spec.int_lines l ->
  exists lo,
    fold_left JS.Math_min (map Spec.first_line l) (JS.Int x) = JS.Int lo
    /\ (lo <= x)%Z
    /\ (forall s a b, s ∈ l -> line (start s) = JS.Int a -> line (end_ s) = JS.Int b ->
        (lo <= a /\ lo <= b)%Z)
    /\ (lo = x \/ exists s a b, s ∈ l /\ line (start s) = JS.Int a
                               /\ line (end_ s) = JS.Int b /\ lo = Z.min a b).
Proof.
  induction l as [|s l IH]; intros x Hl; simpl.
  - exists x. split; [reflexivity|]. split; [lia|]. split; [|left; reflexivity].
    intros s a b Hs. inversion Hs.
  - inversion Hl as [|? ? (a & b & Ha & Hb) Hl']; subst.
    rewrite (first_line_min s a b Ha Hb). simpl.
    destruct (IH (Z.min x (Z.min a b)) Hl') as (lo & Hfold & Hle & Hall & Hatt).
    exists lo. split; [exact Hfold|]. split; [lia|]. split.
    + intros s' a' b' Hs' Ha' Hb'. apply elem_of_cons in Hs' as [->|Hs'].
      * rewrite Ha in Ha'. rewrite Hb in Hb'. injection Ha' as <-. injection Hb' as <-. lia.
      * eapply Hall; eassumption.
    + destruct Hatt as [->|(s' & a' & b' & Hs' & Ha' & Hb' & ->)].
      * destruct (Z.min_spec x (Z.min a b)) as [[_ ->]|[_ ->]]; [left; reflexivity|].
        right. exists s, a, b. split; [left|]. auto.
      * right. exists s', a', b'. split; [right; exact Hs'|]. auto.
Qed.

Lemma fold_max_lines (l : list Selection) : forall x,
  Forall Spec.int_lines l ->
  exists hi,
    fold_left JS.Math_max (map Spec.last_line l) (JS.Int x) = JS.Int hi
    /\ (x <= hi)%Z
    /\ (forall s a b, s ∈ l -> line (start s) = JS.Int a -> line (end_ s) = JS.Int b ->
        (a <= hi /\ b <= hi)%Z)
    /\ (hi = x \/ exists s a b, s ∈ l /\ line (start s) = JS.Int a
                               /\ line (end_ s) = JS.Int b /\ hi = Z.max a b).
Proof.
  induction l as [|s l IH]; intros x Hl; simpl.
  - exists x. split; [reflexivity|]. split; [lia|]. split; [|left; reflexivity].
    intros s a b Hs. inversion Hs.
  - inversion Hl as [|? ? (a & b & Ha & Hb) Hl']; subst.
    rewrite (last_line_max s a b Ha Hb). simpl.
    destruct (IH (Z.max x (Z.max a b)) Hl') as (hi & Hfold & Hle & Hall & Hatt).
    exists hi. split; [exact Hfold|]. split; [lia|]. split.
    + intros s' a' b' Hs' Ha' Hb'. apply elem_of_cons in Hs' as [->|Hs'].
      * rewrite Ha in Ha'. rewrite Hb in Hb'. injection Ha' as <-. injection Hb' as <-. lia.
      * eapply Hall; eassumption.
    + destruct Hatt as [->|(s' & a' & b' & Hs' & Ha' & Hb' & ->)].
      * destruct (Z.max_spec x (Z.max a b)) as [[_ ->]|[_ ->]]; [|left; reflexivity].
        right. exists s, a, b. split; [left|]. auto.
      * right. exists s', a', b'. split; [right; exact Hs'|]. auto.
Qed.

End SelectionFacts.

(** X19.  When the ends of every selection are on integer lines, ['<]
    resolves to the least and ['>] to the greatest of the lines of the
    ends of all the selections, both at column 0: the span from the one to
    the other covers every selection, and each bound is the line of an
    end of some selection. *)
Theorem selection_marks_cover
    (doc : TextEditor) (vimState : VimState)
    (first last : token.Token) (rest rest' : list token.Token) :
  token.type first = token.SelectionFirstLine ->
  token.type last = token.SelectionLastLine ->
  Forall Spec.int_lines (selections doc) ->
  exists lo hi,
    LineRange.lineRefToPosition doc (first :: rest) vimState
    = Ok (mkPosition (JS.Int lo) (JS.Int 0))
    /\ LineRange.lineRefToPosition doc (last :: rest') vimState
       = Ok (mkPosition (JS.Int hi) (JS.Int 0))
    /\ (lo <= hi)%Z
    /\ (forall s a b, s ∈ selections doc ->
        line (start s) = JS.Int a -> line (end_ s) = JS.Int b ->
        (lo <= a <= hi /\ lo <= b <= hi)%Z)
    /\ (exists s a b, s ∈ selections doc /\ line (start s) = JS.Int a
                      /\ line (end_ s) = JS.Int b /\ lo = Z.min a b)
    /\ (exists s a b, s ∈ selections doc /\ line (start s) = JS.Int a
                      /\ line (end_ s) = JS.Int b /\ hi = Z.max a b).
Proof.
  intros Hf Hl Hsel. unfold selections in *.
  inversion Hsel as [|s0 l0 (a0 & b0 & Ha0 & Hb0) Hrest]; subst.
  unfold LineRange.lineRefToPosition. rewrite Hf, Hl.
  unfold JS.Math_min_apply, JS.Math_max_apply.
  fold (Spec.first_line (selection doc)). fold (Spec.last_line (selection doc)).
  change (map (fun selection : Selection =>
                 if isBeforeOrEqual (start selection) (end_ selection)
                 then line (start selection) else line (end_ selection))
            (secondary_selections doc))
    with (map Spec.first_line (secondary_selections doc)).
  change (map (fun selection : Selection =>
                 if isAfter (start selection) (end_ selection)
                 then line (start selection) else line (end_ selection))
            (secondary_selections doc))
    with (map Spec.last_line (secondary_selections doc)).
  rewrite (first_line_min _ a0 b0 Ha0 Hb0), (last_line_max _ a0 b0 Ha0 Hb0).
  destruct (fold_min_lines (secondary_selections doc) (Z.min a0 b0) Hrest)
    as (lo & -> & Hlo & Hloall & Hloatt).
  destruct (fold_max_lines (secondary_selections doc) (Z.max a0 b0) Hrest)
    as (hi & -> & Hhi & Hhiall & Hhiatt).
  exists lo, hi. split; [reflexivity|]. split; [reflexivity|]. split; [lia|].
  split; [|split].
  - intros s a b Hs Ha Hb. apply elem_of_cons in Hs as [->|Hs].
    + rewrite Ha0 in Ha. rewrite Hb0 in Hb. injection Ha as <-. injection Hb as <-. lia.
    + specialize (Hloall s a b Hs Ha Hb). specialize (Hhiall s a b Hs Ha Hb). lia.
  - destruct Hloatt as [->|(s & a & b & Hs & Ha & Hb & ->)].
    + exists (selection doc), a0, b0. split; [left|]. auto.
    + exists s, a, b. split; [right; exact Hs|]. auto.
  - destruct Hhiatt as [->|(s & a & b & Hs & Ha & Hb & ->)].
    + exists (selection doc), a0, b0. split; [left|]. auto.
    + exists s, a, b. split; [right; exact Hs|]. auto.
Qed.

Lemma selection_marks_cover_witness :
  let doc :=
    mkTextEditor (mkTextDocument Examples.three_lines)
      (mkSelection (Examples.at_ 3 0) (Examples.at_ 5 2) (Examples.at_ 5 2))
      [mkSelection (Examples.at_ 8 1) (Examples.at_ 1 0) (Examples.at_ 1 0)] in
  LineRange.lineRefToPosition doc
    [token.mkToken token.SelectionFirstLine "'<"] Examples.vimState0
  = Ok (Examples.at_ 1 0)
  /\ LineRange.lineRefToPosition doc
       [token.mkToken token.SelectionLastLine "'>"] Examples.vimState0
     = Ok (Examples.at_ 8 0).
Proof.
  intros doc.
  assert (Hsel : Forall Spec.int_lines (selections doc)).
  { repeat constructor; eexists _, _; split; reflexivity. }
  destruct (selection_marks_cover doc Examples.vimState0
              (token.mkToken token.SelectionFirstLine "'<")
              (token.mkToken token.SelectionLastLine "'>") [] []
              eq_refl eq_refl Hsel)
    as (lo & hi & Hlo & Hhi & _).
  split.
  - rewrite Hlo. vm_compute in Hlo. injection Hlo as <-. reflexivity.
  - rewrite Hhi. vm_compute in Hhi. injection Hhi as <-. reflexivity.
Defined.

Section EmptyFacts.
Import token.

Lemma addToken_not_empty tok r r' :
  LineRange.addToken tok r = Ok r' -> LineRange.isEmpty r' = false.
Proof.
  intros H. apply addToken_Ok_inv in H as [[_ ->] | (_ & _ & ->)].
  - unfold LineRange.isEmpty. simpl. apply andb_false_r.
  - unfold LineRange.isEmpty.
    destruct (LineRange.separator r); simpl.
    + apply andb_false_r.
    + rewrite length_app. simpl. rewrite Nat.add_1_r. reflexivity.
Qed.

Lemma addTokens_not_empty toks : forall r r',
  LineRange.addTokens toks r = Ok r' ->
  LineRange.isEmpty r = false -> LineRange.isEmpty r' = false.
Proof.
  induction toks as [|tok toks IH]; simpl; intros r r' H Hr.
  - congruence.
  - destruct (LineRange.addToken tok r) as [r1|e] eqn:E; simpl in H; [|discriminate].
    eapply IH; [exact H|]. eapply addToken_not_empty. exact E.
Qed.

End EmptyFacts.

(** X20.  A range built from tokens is empty exactly when no token was
    added: any address, offset or separator that is accepted makes it
    non-empty. *)
Theorem LineRange_empty_iff_no_token (toks : list token.Token) (r : LineRange.t) :
  LineRange.addTokens toks LineRange.new = Ok r ->
  (LineRange.isEmpty r = true <-> toks = []).
Proof.
  intros H. destruct toks as [|tok toks].
  - simpl in H. injection H as <-. split; reflexivity.
  - split; [|discriminate]. intros He. simpl in H.
    destruct (LineRange.addToken tok LineRange.new) as [r1|e] eqn:E;
      simpl in H; [|discriminate].
    pose proof (addTokens_not_empty toks r1 r H (addToken_not_empty _ _ _ E)).
    congruence.
Qed.

Lemma LineRange_empty_iff_no_token_witness :
  LineRange.addTokens [token.mkToken token.Comma ","] LineRange.new
  = Ok (LineRange.mk [] (Some (token.mkToken token.Comma ",")) [])
  /\ LineRange.isEmpty (LineRange.mk [] (Some (token.mkToken token.Comma ",")) [])
     <> true.
Proof.
  split; [reflexivity|].
  intros He.
  pose proof (proj1 (LineRange_empty_iff_no_token
                [token.mkToken token.Comma ","]
                (LineRange.mk [] (Some (token.mkToken token.Comma ",")) [])
                eq_refl) He) as Hnil.
  discriminate Hnil.
Defined.

(** ** A bare range through Run *)

Lemma lineRefToPosition_not_VimError doc toks vimState e :
  LineRange.lineRefToPosition doc toks vimState = Throw e ->
  forall code text, e <> VimError code text.
Proof.
  unfold LineRange.lineRefToPosition. intros H code text ->.
  destruct toks as [|first rest]; [discriminate|].
  destruct (token.type first); try discriminate.
  destruct (getMark _ _); discriminate.
Qed.

(** X22.  A command line that is a bare range is never delegated: whether
    the delegation is enabled or not, Run resolves the range locally.
    When the resolution gives a position, Run returns, the cursor and its
    start are at that position, and nothing is shown; when it throws, Run
    returns, the failure is shown as an error message, and the state of
    the session is as before.  In both cases the backend session is not
    used. *)
Theorem Run_bare_range {host : Host}
    (parse : string -> result node.CommandLine.t)
    (text : string) (this : CommandLine.t) (w : World)
    (cl : node.CommandLine.t) :
  text <> EmptyString ->
  parse (CommandLine.strip_colon text) = Ok cl ->
  node.CommandLine.command cl = None ->
  LineRange.isEmpty (node.CommandLine.range cl) = false ->
  exists w' this',
    CommandLine.Run parse (Some text) this w = (w', this', Ok tt)
    /\ nvim w' = nvim w
    /\ statusBar w' = statusBar w
    /\ match LineRange.lineRefToPosition (editor (vimState w))
               (Spec.rightmost_side (node.CommandLine.range cl)) (vimState w) with
       | Ok pos =>
           vimState w' = set_cursor (vimState w) pos pos
           /\ messages w' = messages w
       | Throw e =>
           vimState w' = vimState w
           /\ messages w' = (messages w ++ [exn_toString e])%list
       end.
Proof.
  intros Ht Hp Hc Hne.
  destruct (Run_steps parse text this w Ht) as (w1 & this1 & Hf & _ & _ & Hrun).
  destruct Hf as (Hcfg & _ & Hsb & Hms & Hv & Hn).
  unfold try_catch, CommandLine.Run_try in Hrun.
  cbv [mbind M_bind lift get_world] in Hrun. rewrite Hp, Hc in Hrun.
  rewrite andb_false_r in Hrun.
  unfold node.CommandLine.execute in Hrun. rewrite Hc in Hrun.
  cbv [mbind M_bind lift get_world modify LineRange.execute] in Hrun.
  rewrite Hne, lineRef_rightmost_side, Hv in Hrun.
  destruct (LineRange.lineRefToPosition (editor (vimState w))
              (Spec.rightmost_side (node.CommandLine.range cl)) (vimState w))
    as [pos|e] eqn:Hres.
  - simpl in Hrun. rewrite setLocation_eta in Hrun.
    eexists _, this1. split; [exact Hrun|]. simpl. auto.
  - pose proof (lineRefToPosition_not_VimError _ _ _ _ Hres) as Hnv.
    simpl in Hrun. unfold CommandLine.Run_catch in Hrun.
    destruct e as [m|m|m|c|code t]; try (exfalso; eapply Hnv; reflexivity);
      (eexists _, this1; split; [exact Hrun|]; simpl; rewrite Hms; auto).
Qed.

Lemma Run_bare_range_witness :
  let cl := node.CommandLine.mk
              (LineRange.mk [token.mkToken token.LineNumber "2"] None []) None in
  let parse := fun _ : string => Ok cl in
  let w := Examples.world_nvim in
  enableNeovim (configuration w) = true
  /\ exists w' this',
       CommandLine.Run (H := Examples.host0) parse (Some ":2")
         Examples.commandLine0 w = (w', this', Ok tt)
       /\ nvim w' = nvim w
       /\ cursorPosition (vimState w') = Examples.at_ 1 0.
Proof.
  intros cl parse w. split; [reflexivity|].
  destruct (@Run_bare_range Examples.host0 parse ":2" Examples.commandLine0 w cl
              ltac:(discriminate) eq_refl eq_refl eq_refl)
    as (w' & this' & Hrun & Hn & _ & Hres).
  change (LineRange.lineRefToPosition _ _ _) with (Ok (A := Position) (Examples.at_ 1 0)) in Hres.
  destruct Hres as (Hv & _).
  exists w', this'. split; [exact Hrun|]. split; [exact Hn|].
  rewrite Hv. reflexivity.
Defined.

(** ** Where the escaping of run is complete *)

Lemma replace_cons_other (c : ascii) (s : string) :
  c <> "<"%char ->
  JS.replace "<" "<lt>" (String c s) = String c (JS.replace "<" "<lt>" s).
Proof.
  intros Hc.
  assert (Hp : String.prefix "<" (String c s) = false).
  { cbn -[Ascii.ascii_dec].
    destruct (Ascii.ascii_dec "<" c) as [E|E]; [congruence|reflexivity]. }
  change (JS.replace "<" "<lt>" (String c s))
    with (if String.prefix "<" (String c s)
          then "<lt>" ++ JS.string_slice 1 (String c s)
          else String c (JS.replace "<" "<lt>" s)).
  rewrite Hp. reflexivity.
Qed.

Lemma replace_cons_lt (s : string) :
  JS.replace "<" "<lt>" (String "<" s) = "<lt>" ++ s.
Proof. destruct s; reflexivity. Qed.

Lemma escape_none (s : string) :
  Spec.count_lt s = 0%nat -> Spec.escape_all_lt s = s.
Proof.
  induction s as [|c s IH]; [reflexivity|].
  cbn [Spec.count_lt Spec.escape_all_lt].
  destruct (Ascii.eqb c "<"); [discriminate|].
  intros H. rewrite IH; [reflexivity|exact H].
Qed.

Lemma replace_one (s : string) :
  (Spec.count_lt s <= 1)%nat ->
  JS.replace "<" "<lt>" s = Spec.escape_all_lt s.
Proof.
  induction s as [|c s IH]; [reflexivity|].
  cbn [Spec.count_lt Spec.escape_all_lt].
  destruct (Ascii.eqb_spec c "<") as [->|Hc]; intros H.
  - rewrite replace_cons_lt, escape_none; [reflexivity|lia].
  - rewrite replace_cons_other by exact Hc. rewrite IH; [reflexivity|exact H].
Qed.

Lemma count_lt_app (s t : string) :
  Spec.count_lt (s ++ t) = (Spec.count_lt s + Spec.count_lt t)%nat.
Proof.
  induction s as [|c s IH]; [reflexivity|].
  change (String c s ++ t) with (String c (s ++ t)).
  cbn [Spec.count_lt]. rewrite IH. lia.
Qed.

Lemma replace_two (s : string) :
  (2 <= Spec.count_lt s)%nat ->
  JS.replace "<" "<lt>" s <> Spec.escape_all_lt s.
Proof.
  intros H E. apply (f_equal String.length) in E. revert H E.
  assert (Hlen : forall s, String.length (Spec.escape_all_lt s)
                           = (String.length s + 3 * Spec.count_lt s)%nat).
  { clear. induction s as [|c s IH]; [reflexivity|].
    cbn [Spec.count_lt Spec.escape_all_lt]. destruct (Ascii.eqb c "<").
    - change (String.length ("<lt>" ++ Spec.escape_all_lt s))
        with (4 + String.length (Spec.escape_all_lt s))%nat.
      change (String.length (String c s)) with (1 + String.length s)%nat. lia.
    - change (String.length (String c (Spec.escape_all_lt s)))
        with (1 + String.length (Spec.escape_all_lt s))%nat.
      change (String.length (String c s)) with (1 + String.length s)%nat. lia. }
  assert (Hrep : forall s, (String.length (JS.replace "<" "<lt>" s)
                            <= String.length s + 3)%nat).
  { clear. induction s as [|c s IH]; [simpl; lia|].
    destruct (Ascii.eqb_spec c "<") as [->|Hc].
    - rewrite replace_cons_lt.
      change (String.length ("<lt>" ++ s)) with (4 + String.length s)%nat.
      change (String.length (String "<" s)) with (1 + String.length s)%nat. lia.
    - rewrite replace_cons_other by exact Hc.
      change (String.length (String c (JS.replace "<" "<lt>" s)))
        with (1 + String.length (JS.replace "<" "<lt>" s))%nat.
      change (String.length (String c s)) with (1 + String.length s)%nat. lia. }
  intros H E. rewrite Hlen in E. specialize (Hrep s). lia.
Qed.

Section EscapeFacts.
Local Open Scope list_scope.
Context {host : Host}.
Variable p : NvimProcess.
Hypothesis never_fails : forall cs r, fails p cs r = None.

(** X23.  The command line that run injects into a process that answers,
    the command between a colon and a line feed, has every less-than sign
    replaced by its key notation exactly when the command holds one such
    sign at most; it is the first input of the run, and the only other one
    is the escape key that follows it where the process reports a blocking
    mode. *)
Theorem run_escaping_complete_iff (command : string) (w : World) (cs : list rpc) :
  nvim w = Some (mkNvim p cs) ->
  exists w' more rest,
    Neovim.run command w = (w', Ok tt)
    /\ nvim w' = Some (mkNvim p (cs ++ more))
    /\ Examples.inputs more = Spec.injected command :: rest
    /\ (rest = [] \/ rest = ["<esc>"%string])
    /\ (Spec.injected command
        = Spec.escape_all_lt (":" ++ command ++ String "010" EmptyString)%string
        <-> (Spec.count_lt command <= 1)%nat).
Proof.
  intros Hn.
  destruct (run_ok p never_fails command w cs Hn)
    as (w' & before & more & Hrun & Hn' & _ & Hin).
  exists w', more, (if mode_blocking p
                  (cs ++ before ++ [nvim_input (Spec.injected command); nvim_getMode])
                then ["<esc>"%string] else []).
  split; [exact Hrun|]. split; [exact Hn'|]. split; [exact Hin|].
  split; [destruct (mode_blocking p _); auto|].
  assert (Hc : Spec.count_lt (":" ++ command ++ String "010" EmptyString)%string
               = Spec.count_lt command).
  { change (":" ++ command ++ String "010" EmptyString)%string
      with (String ":" (command ++ String "010" EmptyString)%string).
    cbn [Spec.count_lt]. rewrite count_lt_app. simpl. lia. }
  unfold Spec.injected. split.
  - intros E. destruct (le_lt_dec (Spec.count_lt command) 1) as [|Hgt]; [assumption|].
    exfalso. eapply replace_two; [|exact E]. rewrite Hc. lia.
  - intros H. apply replace_one. rewrite Hc. exact H.
Qed.

End EscapeFacts.

Lemma run_escaping_complete_iff_witness :
  exists w' more,
    Neovim.run (H := Examples.host0) "a<b" Examples.world_nvim = (w', Ok tt)
    /\ nvim w' = Some (mkNvim Examples.process0 more)
    /\ head (Examples.inputs more)
       = Some (Spec.escape_all_lt (":a<b" ++ String "010" EmptyString)).
Proof.
  destruct (@run_escaping_complete_iff Examples.host0 Examples.process0
              (fun _ _ => eq_refl) "a<b" Examples.world_nvim [] eq_refl)
    as (w' & more & rest & Hrun & Hn & Hin & _ & Hiff).
  exists w', more. split; [exact Hrun|]. split; [exact Hn|].
  rewrite Hin. cbn [head]. rewrite (proj2 Hiff); [reflexivity|]. vm_compute. lia.
Defined.

(** ** The bare-range jump, token by token *)

Section JumpFacts.
Import token.
Local Open Scope list_scope.

(** The resolution of ['<] and of ['>]. *)
Lemma resolve_first_line (doc : TextEditor) :
  Forall Spec.int_lines (selections doc) ->
  exists lo,
    JS.Math_min_apply (Spec.first_line (selection doc))
      (map Spec.first_line (secondary_selections doc)) = JS.Int lo
    /\ (forall s a b, s ∈ selections doc ->
        line (start s) = JS.Int a -> line (end_ s) = JS.Int b ->
        (lo <= a /\ lo <= b)%Z)
    /\ (exists s a b, s ∈ selections doc /\ line (start s) = JS.Int a
                      /\ line (end_ s) = JS.Int b /\ lo = Z.min a b).
Proof.
  intros Hsel. unfold selections in *.
  inversion Hsel as [|s0 l0 (a0 & b0 & Ha0 & Hb0) Hrest]; subst.
  unfold JS.Math_min_apply. rewrite (first_line_min _ a0 b0 Ha0 Hb0).
  destruct (fold_min_lines (secondary_selections doc) (Z.min a0 b0) Hrest)
    as (lo & -> & Hlo & Hall & Hatt).
  exists lo. split; [reflexivity|]. split.
  - intros s a b Hs Ha Hb. apply elem_of_cons in Hs as [->|Hs].
    + rewrite Ha0 in Ha. rewrite Hb0 in Hb. injection Ha as <-. injection Hb as <-. lia.
    + eapply Hall; eassumption.
  - destruct Hatt as [->|(s & a & b & Hs & Ha & Hb & ->)].
    + exists (selection doc), a0, b0. split; [left|]. auto.
    + exists s, a, b. split; [right; exact Hs|]. auto.
Qed.

Lemma resolve_last_line (doc : TextEditor) :
  Forall Spec.int_lines (selections doc) ->
  exists hi,
    JS.Math_max_apply (Spec.last_line (selection doc))
      (map Spec.last_line (secondary_selections doc)) = JS.Int hi
    /\ (forall s a b, s ∈ selections doc ->
        line (start s) = JS.Int a -> line (end_ s) = JS.Int b ->
        (a <= hi /\ b <= hi)%Z)
    /\ (exists s a b, s ∈ selections doc /\ line (start s) = JS.Int a
                      /\ line (end_ s) = JS.Int b /\ hi = Z.max a b).
Proof.
  intros Hsel. unfold selections in *.
  inversion Hsel as [|s0 l0 (a0 & b0 & Ha0 & Hb0) Hrest]; subst.
  unfold JS.Math_max_apply. rewrite (last_line_max _ a0 b0 Ha0 Hb0).
  destruct (fold_max_lines (secondary_selections doc) (Z.max a0 b0) Hrest)
    as (hi & -> & Hhi & Hall & Hatt).
  exists hi. split; [reflexivity|]. split.
  - intros s a b Hs Ha Hb. apply elem_of_cons in Hs as [->|Hs].
    + rewrite Ha0 in Ha. rewrite Hb0 in Hb. injection Ha as <-. injection Hb as <-. lia.
    + eapply Hall; eassumption.
  - destruct Hatt as [->|(s & a & b & Hs & Ha & Hb & ->)].
    + exists (selection doc), a0, b0. split; [left|]. auto.
    + exists s, a, b. split; [right; exact Hs|]. auto.
Qed.

End JumpFacts.

(** What the execution of a bare range does with the outcome of the
    resolution. *)
Lemma bare_range_outcome
    (cl : node.CommandLine.t) (doc : TextEditor) (w : World) :
  node.CommandLine.command cl = None ->
  LineRange.isEmpty (node.CommandLine.range cl) = false ->
  exists w' r,
    node.CommandLine.execute doc cl w = (w', r)
    /\ editor (vimState w') = editor (vimState w)
    /\ (forall pos,
          LineRange.lineRefToPosition doc
            (Spec.rightmost_side (node.CommandLine.range cl)) (vimState w)
          = Ok pos ->
          r = Ok tt
          /\ cursorPosition (vimState w') = pos
          /\ cursorStartPosition (vimState w') = pos
          /\ w' = set_vimState (set_cursor (vimState w) pos pos) w)
    /\ (forall e,
          LineRange.lineRefToPosition doc
            (Spec.rightmost_side (node.CommandLine.range cl)) (vimState w)
          = Throw e ->
          r = Throw e /\ w' = w).
Proof.
  intros Hcmd Hne.
  unfold node.CommandLine.execute. rewrite Hcmd.
  unfold mbind, M_bind, get_world, lift, modify, LineRange.execute.
  rewrite Hne, lineRef_rightmost_side.
  destruct (LineRange.lineRefToPosition doc _ (vimState w)) as [pos|e];
    simpl; rewrite ?setLocation_eta.
  - eexists _, _. split; [reflexivity|]. split; [reflexivity|].
    split; [|discriminate].
    intros pos' [= <-]. repeat split.
  - eexists _, _. split; [reflexivity|]. split; [reflexivity|].
    split; [discriminate|].
    intros e' [= <-]. split; reflexivity.
Qed.

(** C2.  Executing a command line that has a non-empty range and no
    command takes the rightmost non-empty side of the range (right if
    non-empty, else left), resolves its first token to a position, and
    moves the cursor, and the start of the cursor, there: [$] and [%] to
    the last line of the buffer, [.] to the line of the active end of the
    selection, a number [n] to the line [clamp(n-1, 0, lineCount)], ['<]
    and ['>] to the least and the greatest line of the ends of the
    selections, all at column 0, and a mark to its stored position.  A
    side without token, a mark that is not set and any other kind of token
    make the execution throw and leave the state as it was.  In every case
    the editor, and so the text of the buffer, is not changed. *)
Theorem bare_range_jump
    (cl : node.CommandLine.t) (doc : TextEditor) (w : World) :
  node.CommandLine.command cl = None ->
  LineRange.isEmpty (node.CommandLine.range cl) = false ->
  exists w' r,
    node.CommandLine.execute doc cl w = (w', r)
    /\ editor (vimState w') = editor (vimState w)
    /\ getText (document (editor (vimState w')))
       = getText (document (editor (vimState w)))
    /\ let jumps_to (pos : Position) :=
         r = Ok tt
         /\ cursorPosition (vimState w') = pos
         /\ cursorStartPosition (vimState w') = pos
         /\ w' = set_vimState (set_cursor (vimState w) pos pos) w in
       let throws (e : exn) := r = Throw e /\ w' = w in
       let side :=
         match LineRange.right (node.CommandLine.range cl) with
         | [] => LineRange.left (node.CommandLine.range cl)
         | _ :: _ => LineRange.right (node.CommandLine.range cl)
         end in
       match side with
       | [] => exists msg, throws (TypeError msg)
       | first :: _ =>
           match token.type first with
           | token.Dollar | token.Percent =>
               jumps_to (mkPosition (JS.Int (lineCount (document doc) - 1)) (JS.Int 0))
           | token.Dot =>
               jumps_to (mkPosition (line (active (selection doc))) (JS.Int 0))
           | token.LineNumber =>
               match JS.parseInt (token.content first) with
               | JS.Int n =>
                   jumps_to
                     (mkPosition
                        (JS.Int (Spec.clamp (n - 1) 0 (lineCount (document doc))))
                        (JS.Int 0))
               | JS.NaN => jumps_to (mkPosition JS.NaN (JS.Int 0))
               end
           | token.SelectionFirstLine =>
               Forall Spec.int_lines (selections doc) ->
               exists lo,
                 jumps_to (mkPosition (JS.Int lo) (JS.Int 0))
                 /\ (forall s a b, s ∈ selections doc ->
                     line (start s) = JS.Int a -> line (end_ s) = JS.Int b ->
                     (lo <= a /\ lo <= b)%Z)
                 /\ (exists s a b, s ∈ selections doc /\ line (start s) = JS.Int a
                                   /\ line (end_ s) = JS.Int b /\ lo = Z.min a b)
           | token.SelectionLastLine =>
               Forall Spec.int_lines (selections doc) ->
               exists hi,
                 jumps_to (mkPosition (JS.Int hi) (JS.Int 0))
                 /\ (forall s a b, s ∈ selections doc ->
                     line (start s) = JS.Int a -> line (end_ s) = JS.Int b ->
                     (a <= hi /\ b <= hi)%Z)
                 /\ (exists s a b, s ∈ selections doc /\ line (start s) = JS.Int a
                                   /\ line (end_ s) = JS.Int b /\ hi = Z.max a b)
           | token.Mark =>
               match getMark (historyTracker (vimState w)) (token.content first) with
               | Some m => jumps_to (position m)
               | None => exists msg, throws (TypeError msg)
               end
           | _ => throws (Error "Not Implemented")
           end
       end.
Proof.
  intros Hcmd Hne.
  pose proof (lineCount_pos (document doc)) as Hpos.
  destruct (bare_range_outcome cl doc w Hcmd Hne) as (w' & r & Hex & Hed & Hok & Hko).
  exists w', r. split; [exact Hex|]. split; [exact Hed|].
  split; [rewrite Hed; reflexivity|].
  cbv zeta. unfold Spec.rightmost_side in Hok, Hko.
  destruct (match LineRange.right (node.CommandLine.range cl) with
            | [] => LineRange.left (node.CommandLine.range cl)
            | _ :: _ => LineRange.right (node.CommandLine.range cl)
            end) as [|first rest].
  - eexists. apply Hko. reflexivity.
  - unfold LineRange.lineRefToPosition in Hok, Hko.
    destruct (token.type first) eqn:Hty;
      try (apply Hko; reflexivity); try (apply Hok; reflexivity).
    + destruct (JS.parseInt (token.content first)) as [|n] eqn:Hn.
      * apply Hok. reflexivity.
      * apply Hok. simpl. do 3 f_equal. unfold Spec.clamp. lia.
    + destruct (getMark _ _) as [m|].
      * apply Hok. reflexivity.
      * eexists. apply Hko. reflexivity.
    + intros Hsel. destruct (resolve_first_line doc Hsel) as (lo & Hlo & Hall & Hatt).
      exists lo. split; [|split; assumption].
      apply Hok. f_equal. f_equal. exact Hlo.
    + intros Hsel. destruct (resolve_last_line doc Hsel) as (hi & Hhi & Hall & Hatt).
      exists hi. split; [|split; assumption].
      apply Hok. f_equal. f_equal. exact Hhi.
Qed.

Lemma bare_range_jump_witness :
  let cl := node.CommandLine.mk
              (LineRange.mk [token.mkToken token.LineNumber "1"]
                 (Some (token.mkToken token.Comma ","))
                 [token.mkToken token.Dollar "$"]) None in
  let cl' := node.CommandLine.mk
               (LineRange.mk [token.mkToken token.Mark "a"] None []) None in
  let w := Examples.world0 in
  (exists w',
     node.CommandLine.execute (editor (vimState w)) cl w = (w', Ok tt)
     /\ cursorPosition (vimState w') = Examples.at_ 2 0
     /\ getText (document (editor (vimState w'))) = Examples.three_lines)
  /\ (exists w',
        node.CommandLine.execute (editor (vimState w)) cl' w = (w', Ok tt)
        /\ cursorPosition (vimState w') = Examples.at_ 2 5).
Proof.
  intros cl cl' w. split.
  - destruct (bare_range_jump cl (editor (vimState w)) w eq_refl eq_refl)
      as (w' & r & Hex & _ & Htext & Hjump).
    cbv zeta in Hjump. cbn [LineRange.right node.CommandLine.range cl token.type] in Hjump.
    destruct Hjump as (-> & Hc & _).
    exists w'. split; [exact Hex|]. split; [exact Hc|exact Htext].
  - destruct (bare_range_jump cl' (editor (vimState w)) w eq_refl eq_refl)
      as (w' & r & Hex & _ & _ & Hjump).
    cbv zeta in Hjump.
    change (r = Ok tt
            /\ cursorPosition (vimState w') = Examples.at_ 2 5
            /\ cursorStartPosition (vimState w') = Examples.at_ 2 5
            /\ w' = set_vimState
                      (set_cursor (vimState w) (Examples.at_ 2 5) (Examples.at_ 2 5)) w)
      in Hjump.
    destruct Hjump as (-> & Hc & _).
    exists w'. split; [exact Hex|exact Hc].
Defined.
